(** * Export resolution, version lookup and design listing of the design-document server

    A shallow embedding of the request handlers of [code_sample.ts] that
    carry the branching logic of the server:

    - [POST /api/data/download]: cache probe, session creation, parameter
      and export discovery, computation, payload extraction, content-type
      normalization, response assembly and cache population;
    - [GET /api/data/versions/:name/:versionNumber] and
      [GET /api/data/versions/:name]: version resolution and listing;
    - [POST /api/data/upload], [GET /api/data/list_latest] and
      [GET /api/designs/list].

    A string of the model holds the UTF-8 encoding of the JavaScript string
    (an unpaired surrogate as the three bytes of its code point);
    [Js.codeUnits] recovers the UTF-16 code units where the runtime reads
    them.  The two primitives of the runtime that depend on the Unicode
    tables or on the printing of doubles are operations of a [Runtime]; the
    handlers are modelled over any runtime.  Byte buffers are lists of
    integers in [0, 256).  The remote collaborators (cache, computation
    service, HTTP fetch) are oracles of an environment record, and every call
    to one of them is recorded in a trace of events, so that "no remote call
    is made" is a statement about that trace. *)

From Stdlib Require Import ZArith Ascii String List Lia.
From stdpp Require Import base decidable option list strings gmap sorting pretty.

Local Open Scope Z_scope.

(** ** JavaScript primitives used by the handlers *)

Module Js.

Definition is_upper (c : ascii) : bool :=
  let n := Ascii.N_of_ascii c in ((65 <=? n) && (n <=? 90))%N.

Definition lower_char (c : ascii) : ascii :=
  if is_upper c then Ascii.ascii_of_N (Ascii.N_of_ascii c + 32) else c.

(** Case folding of the letters [A] to [Z]: what a pattern with the flag
    [i] does to the letters of the alphabet, and what
    [String.prototype.toLowerCase] does to a string of ASCII characters. *)
Fixpoint lowerAscii (s : string) : string :=
  match s with
  | EmptyString => EmptyString
  | String c s' => String (lower_char c) (lowerAscii s')
  end.

(** The string holds ASCII characters only. *)
Fixpoint isAscii (s : string) : bool :=
  match s with
  | EmptyString => true
  | String c s' => (Ascii.N_of_ascii c <? 128)%N && isAscii s'
  end.

(** Two ASCII characters are the same up to the case of a letter. *)
Definition sameLetter (c d : ascii) : Prop :=
  c = d \/ (is_upper c = true /\ d = lower_char c)
  \/ (is_upper d = true /\ c = lower_char d).

(** Two strings are equal up to the case of the letters [A] to [Z]. *)
Inductive equalUpToCase : string -> string -> Prop :=
| equal_empty : equalUpToCase EmptyString EmptyString
| equal_char c d s t :
    sameLetter c d -> equalUpToCase s t -> equalUpToCase (String c s) (String d t).

Fixpoint bytes (s : string) : list Z :=
  match s with
  | EmptyString => []
  | String c s' => Z.of_N (Ascii.N_of_ascii c) :: bytes s'
  end.

(** UTF-8 to UTF-16: one unit for a sequence of one, two or three bytes, a
    surrogate pair for a sequence of four; a byte that starts no sequence
    reads as U+FFFD. *)
Fixpoint decodeUtf8 (l : list Z) : list Z :=
  match l with
  | [] => []
  | b0 :: r0 =>
      if b0 <? 128 then b0 :: decodeUtf8 r0
      else if (192 <=? b0) && (b0 <? 224) then
        match r0 with
        | b1 :: r1 =>
            Z.lor (Z.shiftl (Z.land b0 31) 6) (Z.land b1 63) :: decodeUtf8 r1
        | [] => [65533]
        end
      else if (224 <=? b0) && (b0 <? 240) then
        match r0 with
        | b1 :: b2 :: r2 =>
            Z.lor (Z.shiftl (Z.land b0 15) 12)
              (Z.lor (Z.shiftl (Z.land b1 63) 6) (Z.land b2 63)) :: decodeUtf8 r2
        | _ => [65533]
        end
      else if (240 <=? b0) && (b0 <? 248) then
        match r0 with
        | b1 :: b2 :: b3 :: r3 =>
            let cp :=
              Z.lor (Z.shiftl (Z.land b0 7) 18)
                (Z.lor (Z.shiftl (Z.land b1 63) 12)
                   (Z.lor (Z.shiftl (Z.land b2 63) 6) (Z.land b3 63))) - 65536 in
            (55296 + Z.shiftr cp 10) :: (56320 + Z.land cp 1023) :: decodeUtf8 r3
        | _ => [65533]
        end
      else 65533 :: decodeUtf8 r0
  end.

(** The UTF-16 code units of a string. *)
Definition codeUnits (s : string) : list Z := decodeUtf8 (bytes s).

(** [String.prototype.startsWith] *)
Fixpoint startsWith (s p : string) {struct p} : bool :=
  match p, s with
  | EmptyString, _ => true
  | String _ _, EmptyString => false
  | String a p', String b s' => if decide (a = b) then startsWith s' p' else false
  end.

(** [String.prototype.includes] *)
Fixpoint includes (s p : string) : bool :=
  startsWith s p ||
  match s with
  | EmptyString => false
  | String _ s' => includes s' p
  end.

(** [s.split(sep)] for a one-character separator: the pieces between
    the occurrences of [sep], in order; never empty. *)
Fixpoint split (sep : ascii) (s : string) : list string :=
  match s with
  | EmptyString => [EmptyString]
  | String c s' =>
      if decide (c = sep) then EmptyString :: split sep s'
      else match split sep s' with
           | [] => [String c EmptyString]
           | p :: ps => String c p :: ps
           end
  end.

(** Truthiness of an optional string ([undefined] and [''] are falsy). *)
Definition truthy (o : option string) : bool :=
  match o with
  | Some s => negb (bool_decide (s = EmptyString))
  | None => false
  end.

(** [a || b] on optional strings. *)
Definition or_else (a b : option string) : option string :=
  if truthy a then a else b.

(** [a || d] where [d] is a string literal. *)
Definition or_str (a : option string) (d : string) : string :=
  match a with
  | Some s => if bool_decide (s = EmptyString) then d else s
  | None => d
  end.

(** [String(v)] of a string or [undefined]. *)
Definition String_ (o : option string) : string :=
  match o with Some s => s | None => "undefined" end.

(** A string between two double-quote characters. *)
Definition dquote : string := String (Ascii.ascii_of_N 34) EmptyString.
Definition quoted (s : string) : string := dquote +:+ s +:+ dquote.

End Js.

(** The property names every object inherits from [Object.prototype]:
    reading one of them on an object that has no such property of its own
    yields the inherited value, which is truthy. *)
Definition inheritedNames : list string :=
  ["constructor"; "__defineGetter__"; "__defineSetter__"; "hasOwnProperty";
   "__lookupGetter__"; "__lookupSetter__"; "isPrototypeOf"; "propertyIsEnumerable";
   "toString"; "valueOf"; "__proto__"; "toLocaleString"].

(** ** Byte buffers and [Buffer.from(s, 'base64')] *)

Definition Buffer := list Z.

Module Base64.

Definition code (c : ascii) : Z := Z.of_N (Ascii.N_of_ascii c).

(** The decoding table of the runtime: both the standard and the
    URL-safe alphabet are accepted; every other character is illegal. *)
Definition unbase64 (n : Z) : option Z :=
  if (65 <=? n) && (n <=? 90) then Some (n - 65)
  else if (97 <=? n) && (n <=? 122) then Some (n - 71)
  else if (48 <=? n) && (n <=? 57) then Some (n + 4)
  else if (n =? 43) || (n =? 45) then Some 62
  else if (n =? 47) || (n =? 95) then Some 63
  else None.

(** The legal characters of the input, as 6-bit values.  The decoder
    reads the low 8 bits of each code unit; illegal characters are skipped,
    and decoding stops at the first ['=']. *)
Fixpoint sextets (units : list Z) : list Z :=
  match units with
  | [] => []
  | u :: rest =>
      let c := Z.land u 255 in
      match unbase64 c with
      | Some v => v :: sextets rest
      | None => if c =? 61 then [] else sextets rest
      end
  end.

Definition byte1 (hi lo : Z) : Z :=
  Z.lor (Z.shiftl (Z.land hi 63) 2) (Z.shiftr (Z.land lo 48) 4).
Definition byte2 (hi lo : Z) : Z :=
  Z.lor (Z.shiftl (Z.land hi 15) 4) (Z.shiftr (Z.land lo 60) 2).
Definition byte3 (hi lo : Z) : Z :=
  Z.lor (Z.shiftl (Z.land hi 3) 6) (Z.land lo 63).

(** Four 6-bit values give three bytes; a final group of two or three
    values gives one or two bytes; a lone value gives none. *)
Fixpoint pack (l : list Z) : Buffer :=
  match l with
  | a :: b :: c :: d :: l' => byte1 a b :: byte2 b c :: byte3 c d :: pack l'
  | a :: b :: c :: [] => [byte1 a b; byte2 b c]
  | a :: b :: [] => [byte1 a b]
  | _ => []
  end.

(** [Buffer.from(s, 'base64')].  It never throws on a string, so the
    [catch] arm that re-reads the payload as 'binary' is never taken. *)
Definition decode (s : string) : Buffer := pack (sextets (Js.codeUnits s)).

End Base64.

(** ** The pattern [/\b(x-)?obj\b/i] *)

Module ObjPattern.

(** [\w] *)
Definition is_word (c : ascii) : bool :=
  let n := Base64.code c in
  ((65 <=? n) && (n <=? 90)) || ((97 <=? n) && (n <=? 122))
  || ((48 <=? n) && (n <=? 57)) || (n =? 95).

Definition is_word_opt (o : option ascii) : bool :=
  match o with Some c => is_word c | None => false end.

Definition head (s : string) : option ascii :=
  match s with EmptyString => None | String c _ => Some c end.

(** [\b] between the character [prev] and the rest [s] of the input. *)
Definition boundary (prev : option ascii) (s : string) : bool :=
  xorb (is_word_opt prev) (is_word_opt (head s)).

(** Case-insensitive match of the literal [p] at the start of [s];
    returns the last matched character and the rest of the input. *)
Fixpoint literal (p : string) (last : option ascii) (s : string)
  : option (option ascii * string) :=
  match p with
  | EmptyString => Some (last, s)
  | String a p' =>
      match s with
      | EmptyString => None
      | String b s' =>
          if decide (Js.lower_char a = Js.lower_char b)
          then literal p' (Some b) s' else None
      end
  end.

(** [obj\b] at the start of [s]. *)
Definition obj_here (prev : option ascii) (s : string) : bool :=
  match literal "obj" prev s with
  | Some (last, rest) => boundary last rest
  | None => false
  end.

(** [\b(x-)?obj\b] at the start of [s]: the optional group is tried
    first with [x-], then without. *)
Definition match_here (prev : option ascii) (s : string) : bool :=
  boundary prev s &&
  ((match literal "x-" prev s with
    | Some (last, rest) => obj_here last rest
    | None => false
    end) || obj_here prev s).

Fixpoint test_from (prev : option ascii) (s : string) : bool :=
  match_here prev s ||
  match s with
  | EmptyString => false
  | String c s' => test_from (Some c) s'
  end.

(** [/\b(x-)?obj\b/i.test(s)] *)
Definition test (s : string) : bool := test_from None s.

(** The last character of [a], or [prev] when [a] is empty. *)
Fixpoint last_or (prev : option ascii) (a : string) : option ascii :=
  match a with
  | EmptyString => prev
  | String c a' => last_or (Some c) a'
  end.

(** The input contains [obj], in any letter case, with no word character
    right before or right after it. *)
Definition whole_word_obj (s : string) : Prop :=
  exists a w b, s = a +:+ w +:+ b /\ Js.lowerAscii w = "obj"
    /\ is_word_opt (last_or None a) = false
    /\ is_word_opt (head b) = false.

End ObjPattern.

(** ** [parseInt(s)] without a radix argument *)

Module ParseInt.

(** White space and line terminators of the language, by code point. *)
Definition is_space_point (p : Z) : bool :=
  ((9 <=? p) && (p <=? 13)) || (p =? 32) || (p =? 160) || (p =? 5760)
  || ((8192 <=? p) && (p <=? 8202)) || (p =? 8232) || (p =? 8233)
  || (p =? 8239) || (p =? 8287) || (p =? 12288) || (p =? 65279).

(** The input without its leading white space: the code point at the
    head is read from its one, two or three bytes. *)
Fixpoint trim_start (s : string) : string :=
  match s with
  | EmptyString => EmptyString
  | String c0 s1 =>
      let b0 := Base64.code c0 in
      if b0 <? 128 then (if is_space_point b0 then trim_start s1 else s)
      else if (192 <=? b0) && (b0 <? 224) then
        match s1 with
        | String c1 s2 =>
            if is_space_point
                 (Z.lor (Z.shiftl (Z.land b0 31) 6) (Z.land (Base64.code c1) 63))
            then trim_start s2 else s
        | EmptyString => s
        end
      else if (224 <=? b0) && (b0 <? 240) then
        match s1 with
        | String c1 (String c2 s3) =>
            if is_space_point
                 (Z.lor (Z.shiftl (Z.land b0 15) 12)
                    (Z.lor (Z.shiftl (Z.land (Base64.code c1) 63) 6)
                       (Z.land (Base64.code c2) 63)))
            then trim_start s3 else s
        | _ => s
        end
      else s
  end.

Definition digit_val (radix : Z) (c : ascii) : option Z :=
  let n := Base64.code c in
  let v := if (48 <=? n) && (n <=? 57) then Some (n - 48)
           else if (97 <=? n) && (n <=? 122) then Some (n - 87)
           else if (65 <=? n) && (n <=? 90) then Some (n - 55)
           else None in
  match v with
  | Some d => if d <? radix then Some d else None
  | None => None
  end.

(** Value of the longest prefix of digits; [None] when it is empty. *)
Fixpoint digits (radix : Z) (acc : option Z) (s : string) : option Z :=
  match s with
  | EmptyString => acc
  | String c s' =>
      match digit_val radix c with
      | Some d => digits radix (Some (default 0 acc * radix + d)) s'
      | None => acc
      end
  end.

(** [None] is [NaN]; otherwise the integer that the digits denote.  The
    Number of the runtime is that integer rounded to the nearest double: the
    same number up to 2^53, and always on the same side of 0 and of the
    length of an array, so that the tests of a handler are those on the
    integer; the text of the number in a message is [numberToString]. *)
Definition parseInt (s : string) : option Z :=
  let s1 := trim_start s in
  let '(sign, s2) :=
    match s1 with
    | String "-" r => (-1, r)
    | String "+" r => (1, r)
    | _ => (1, s1)
    end in
  let '(radix, s3) :=
    match s2 with
    | String "0" (String "x" r) => (16, r)
    | String "0" (String "X" r) => (16, r)
    | _ => (10, s2)
    end in
  (λ v, sign * v) <$> digits radix None s3.

End ParseInt.

(** ** The runtime

    [String.prototype.toLowerCase] maps every cased letter of Unicode, and
    the conversion of a Number to a string prints the shortest decimal that
    reads back as the same double.  Neither table is written out: a runtime
    is any pair of functions that does what the language prescribes on ASCII
    strings and on the integers a double holds exactly, and the handlers are
    modelled over every runtime.  [numberToString z] is the text of the
    Number nearest to the integer [z]. *)
Class Runtime := {
  toLowerCase : string -> string;
  numberToString : Z -> string;
  toLowerCase_ascii : forall s, Js.isAscii s = true -> toLowerCase s = Js.lowerAscii s;
  numberToString_safe : forall z, Z.abs z <= 2 ^ 53 -> numberToString z = pretty z
}.

(** A runtime for sample runs on ASCII inputs and safe integers. *)
Definition asciiRuntime : Runtime :=
  {| toLowerCase := Js.lowerAscii;
     numberToString := pretty;
     toLowerCase_ascii := fun _ _ => eq_refl;
     numberToString_safe := fun _ _ => eq_refl |}.

(** ** Data model *)

Unset Elimination Schemes.
Inductive Json :=
| JNull
| JBool (b : bool)
| JNum (n : Z)
| JStr (s : string)
| JArr (l : list Json)
| JObj (fields : list (string * Json)).
Set Elimination Schemes.

Inductive Body :=
| BodyJson (j : Json)
| BodyBytes (b : Buffer).

Record Response := {
  status : Z;
  headers : list (string * string);
  body : Body
}.

(** [res.status(code).json({...})] *)
Definition json_reply (code : Z) (fields : list (string * Json)) : Response :=
  {| status := code; headers := []; body := BodyJson (JObj fields) |}.

(** The body of [POST /api/data/download]; an absent field is [None]. *)
Record DownloadRequest := {
  designId : option string;
  shapediverEndpoint : option string;
  exportType : option string;
  exportNameContains : option string;
  contentType : option string;
  bypassCache : bool
}.

(** The criteria object handed to the cache:
    [{ designId, exportType, exportNameContains, contentType }]. *)
Definition CacheKey : Type := string * string * option string * option string.

(** What [getCachedExport] resolves to. *)
Record CacheResult := {
  hit : bool;
  buffer : option Buffer;
  cached_contentType : option string;
  filename : option string
}.

Record ParamDef := { p_name : option string }.
Record ExportDef := { e_type : option string; e_name : option string }.

(** [sessionResponse.data]; the two mappings are kept as their
    [Object.entries] sequences, since the handler iterates over them. *)
Record SessionData := {
  sessionId : string;
  parameters : option (list (string * ParamDef));
  exports : option (list (string * ExportDef))
}.

Record ExportRequest := {
  rq_parameters : list (string * string);
  rq_exports : list string
}.

(** A value found in a [data] or [content] field. *)
Inductive JsVal :=
| JUndefined
| JString (s : string)
| JArrayBuffer (b : Buffer)
| JNodeBuffer (b : Buffer)
| JOther (truthy : bool).

Record ContentEntry := {
  c_contentType : option string;
  c_format : option string;
  c_data : JsVal;
  c_content : JsVal;
  c_href : option string;
  c_url : option string;
  c_downloadUrl : option string;
  c_link : option string
}.

Inductive ContentField :=
| ContentArray (l : list ContentEntry)
| ContentValue (v : JsVal).

(** One entry of [exportResults.data.exports]. *)
Record ExportResult := {
  r_content : ContentField;
  r_data : JsVal;
  r_format : option string;
  r_href : option string;
  r_url : option string;
  r_downloadUrl : option string;
  r_link : option string
}.

Record ExportData := { x_exports : option (gmap string ExportResult) }.

Record FetchResponse := {
  ok : bool;
  f_status : Z;
  statusText : string;
  f_body : Buffer
}.

(** ** Collaborators and effects *)

(** A call that may throw resolves to [inl message] or [inr value]. *)
Record Env := {
  getCachedExport : CacheKey -> string + CacheResult;
  createSessionByTicket : string -> string -> string + SessionData;
  computeExports : string -> string -> ExportRequest -> string + ExportData;
  fetch : string -> string + FetchResponse;
  (** [Some message] when the promise of the write is rejected *)
  putCachedExport : CacheKey -> Buffer -> string -> string -> option string
}.

Inductive Event :=
| CacheGet (k : CacheKey)
| CreateSession (basePath ticket : string)
| ComputeExports (basePath session : string) (rq : ExportRequest)
| Fetch (url : string)
| CachePut (k : CacheKey) (buf : Buffer) (ct file : string)
| ConsoleError (label msg : string)
| ConsoleWarn (label msg : string).

(** A handler step either goes on with a value, has sent the response
    ([return res...]), or has thrown. *)
Inductive Outcome (A : Type) :=
| Done (a : A)
| Sent (r : Response)
| Thrown (msg : string).
Arguments Done {A} a.
Arguments Sent {A} r.
Arguments Thrown {A} msg.

Definition Handler (A : Type) : Type := list Event -> Outcome A * list Event.

Definition ret {A} (a : A) : Handler A := fun t => (Done a, t).

Definition bind {A B} (m : Handler A) (k : A -> Handler B) : Handler B :=
  fun t =>
    match m t with
    | (Done a, t') => k a t'
    | (Sent r, t') => (Sent r, t')
    | (Thrown e, t') => (Thrown e, t')
    end.

Definition send {A} (r : Response) : Handler A := fun t => (Sent r, t).
Definition throw {A} (msg : string) : Handler A := fun t => (Thrown msg, t).
Definition emit (e : Event) : Handler unit := fun t => (Done tt, t ++ [e]).

(** [try { m } catch (e) { k e }] *)
Definition try_catch {A} (m : Handler A) (k : string -> Handler A) : Handler A :=
  fun t =>
    match m t with
    | (Thrown e, t') => k e t'
    | r => r
    end.

Notation "'let!' x ':=' m 'in' k" := (bind m (fun x => k))
  (at level 10, x name, m at level 100, k at level 200).
Notation "'do!' m 'in' k" := (bind m (fun _ => k))
  (at level 10, m at level 100, k at level 200).

(** [await] of a collaborator call, recorded in the trace. *)
Definition await {A} (e : Event) (r : string + A) : Handler A :=
  do! emit e in
  match r with inl msg => throw msg | inr a => ret a end.

Section Server.
Context {rt : Runtime}.

(** ** [POST /api/data/download] *)

Definition RENDER_DEPLOYMENT_URI : string := "https://mongo-sd-server.onrender.com".
Definition DOWNLOAD_TICKET : string :=
  "80e664af137358eb815863befd67a2e95848ab0f38a6c6dd2782e67be2b314b7729c849b8455089fd96ebbcd029af8a85d956598a8f64381885bc229f4225c3e7737018c7c9c1eb1da9b0629b35656d9a2424c385fd0be81933e6a1ae7bc155e492f0f252d8eeee2b9db0d03613623914e459aa17f30a5ca-16b0fd83018df447ae8af036efb925f8".
Definition DEFAULT_ENDPOINT : string := "https://sdr8euc1.eu-central-1.shapediver.com".

(** Step 3: the id of the first parameter named [moda-json]. *)
Fixpoint findModaJson (entries : list (string * ParamDef)) : option string :=
  match entries with
  | [] => None
  | (paramId, paramDef) :: rest =>
      if bool_decide (p_name paramDef = Some "moda-json") then Some paramId
      else findModaJson rest
  end.

(** Step 4: the two tests applied to each export definition. *)
Definition typeMatches (exportType : string) (e : ExportDef) : bool :=
  bool_decide (toLowerCase (Js.or_str (e_type e) EmptyString) = toLowerCase exportType).

Definition nameMatches (exportNameContains : option string) (e : ExportDef) : bool :=
  if Js.truthy exportNameContains
  then Js.includes (toLowerCase (Js.or_str (e_name e) EmptyString))
                   (toLowerCase (Js.String_ exportNameContains))
  else true.

(** The loop over [Object.entries(sessionData.exports)]: the id and the
    name ([e.name || exportType]) of the first export passing both tests. *)
Fixpoint selectExport (exportType : string) (exportNameContains : option string)
    (entries : list (string * ExportDef)) : option (string * string) :=
  match entries with
  | [] => None
  | (exportId, e) :: rest =>
      if typeMatches exportType e && nameMatches exportNameContains e
      then Some (exportId, Js.or_str (e_name e) exportType)
      else selectExport exportType exportNameContains rest
  end.

(** The message of the 404 reply of step 4. *)
Definition export_not_found_message (exportType : string)
    (exportNameContains : option string) : string :=
  "No export matched type=" +:+ Js.quoted exportType +:+
  (if Js.truthy exportNameContains
   then " and nameContains=" +:+ Js.quoted (Js.String_ exportNameContains)
   else EmptyString).

Definition js_truthy (v : JsVal) : bool :=
  match v with
  | JUndefined => false
  | JString s => negb (bool_decide (s = EmptyString))
  | JArrayBuffer _ | JNodeBuffer _ => true
  | JOther t => t
  end.

Definition js_or (a b : JsVal) : JsVal := if js_truthy a then a else b.

(** The choice of the content entry:
    [contentType ? content.find(c => ...) : content[0]]. *)
Definition contentTypeIs (contentType : option string) (c : ContentEntry) : bool :=
  bool_decide (toLowerCase (Js.or_str (c_contentType c) EmptyString)
               = toLowerCase (Js.String_ contentType)).

Definition pickContent (contentType : option string) (content : list ContentEntry)
  : option ContentEntry :=
  if Js.truthy contentType
  then List.find (contentTypeIs contentType) content
  else content !! 0%nat.

(** [payload.split(',')[1] ?? ''] *)
Definition data_uri_part (payload : string) : string :=
  default EmptyString (Js.split "," payload !! 1%nat).

(** Decoding of the payload of a picked content entry. *)
Definition decodePicked (payload : JsVal) : option Buffer :=
  match payload with
  | JString s =>
      if Js.startsWith s "data:" then Some (Base64.decode (data_uri_part s))
      else Some (Base64.decode s)
  | JArrayBuffer b => Some b
  | JNodeBuffer b => Some b
  | _ => None
  end.

(** Decoding of a payload carried by the result object itself. *)
Definition decodeDirect (payload : JsVal) : option Buffer :=
  match payload with
  | JString s => Some (Base64.decode s)
  | JArrayBuffer b => Some b
  | JNodeBuffer b => Some b
  | _ => None
  end.

Record Extraction := {
  fileBuffer : option Buffer;
  pickedContent : option ContentEntry;
  downloadUrl : option string
}.

(** "Extract file content or URL" *)
Definition extract (contentType : option string) (selectedExportData : ExportResult)
  : Extraction :=
  match r_content selectedExportData with
  | ContentArray content =>
      let picked := pickContent contentType content in
      let payload := js_or (from_option c_data JUndefined picked)
                           (from_option c_content JUndefined picked) in
      if js_truthy payload then
        {| fileBuffer := decodePicked payload; pickedContent := picked;
           downloadUrl := None |}
      else if Js.truthy (picked ≫= c_href) then
        {| fileBuffer := None; pickedContent := picked;
           downloadUrl := picked ≫= c_href |}
      else
        {| fileBuffer := None; pickedContent := picked; downloadUrl := None |}
  | ContentValue content =>
      let payload := js_or (r_data selectedExportData) content in
      let urlField :=
        Js.or_else (r_href selectedExportData)
          (Js.or_else (r_url selectedExportData)
             (Js.or_else (r_downloadUrl selectedExportData)
                (r_link selectedExportData))) in
      if js_truthy payload then
        {| fileBuffer := decodeDirect payload; pickedContent := None;
           downloadUrl := None |}
      else if Js.truthy urlField then
        {| fileBuffer := None; pickedContent := None; downloadUrl := urlField |}
      else
        {| fileBuffer := None; pickedContent := None; downloadUrl := None |}
  end.

(** "Prepare response headers (normalize by known formats)" *)
Definition formatOf (picked : option ContentEntry) (selectedExportData : ExportResult)
  : string :=
  toLowerCase
    (Js.or_str (Js.or_else (picked ≫= c_format) (r_format selectedExportData))
       EmptyString).

(** The content type before the vendor-OBJ rewrite. *)
Definition resolvedContentType (format : string) (picked : option ContentEntry)
    (contentType : option string) : string :=
  if bool_decide (format = "pdf") then "application/pdf"
  else if bool_decide (format = "zip") then "application/zip"
  else if bool_decide (format = "obj") then "model/obj"
  else Js.or_str (Js.or_else (picked ≫= c_contentType) contentType)
                 "application/octet-stream".

(** [if (!format && /\b(x-)?obj\b/i.test(ct)) ct = 'model/obj'] *)
Definition normalizeContentType (format ct : string) : string :=
  if bool_decide (format = EmptyString) && ObjPattern.test ct then "model/obj" else ct.

(** "Ensure proper file extension" *)
Definition extensionOf (format ct : string) : string :=
  let ext :=
    if negb (bool_decide (format = EmptyString)) then "." +:+ format
    else if bool_decide (ct = "application/pdf") then ".pdf"
    else if bool_decide (ct = "application/zip") then ".zip"
    else if bool_decide (ct = "model/obj") then ".obj"
    else EmptyString in
  if bool_decide (ext = EmptyString) && ObjPattern.test ct then ".obj" else ext.

(** Content type and extension of a fresh artifact. *)
Definition normalize (picked : option ContentEntry) (selectedExportData : ExportResult)
    (contentType : option string) : string * string :=
  let format := formatOf picked selectedExportData in
  let ct := normalizeContentType format (resolvedContentType format picked contentType) in
  (ct, extensionOf format ct).

(** [res.setHeader(name, value)] throws on a value that holds a code unit
    other than a tab, 0x20 to 0x7e and 0x80 to 0xff. *)
Definition validHeaderValue (value : string) : bool :=
  forallb (fun u => (u =? 9) || ((32 <=? u) && (u <=? 126))
                    || ((128 <=? u) && (u <=? 255)))
          (Js.codeUnits value).

(** The message of the error thrown for the header [name]. *)
Definition invalidHeaderMessage (name : string) : string :=
  "Invalid character in header content [" +:+ Js.quoted name +:+ "]".

(** Headers set one after the other: [None] when all are accepted,
    otherwise the headers set before the first refused one, and its name. *)
Fixpoint refusedHeader (hs : list (string * string))
  : option (list (string * string) * string) :=
  match hs with
  | [] => None
  | (n, v) :: rest =>
      if validHeaderValue v then
        match refusedHeader rest with
        | Some (set, bad) => Some ((n, v) :: set, bad)
        | None => None
        end
      else Some ([], n)
  end.

(** The reply to a cache hit.  The content type and the file name of a
    cached artifact are the ones a fresh answer was sent with before it was
    stored, so [setHeader] accepts them here as it did there. *)
Definition hitReply (cached : CacheResult) (buf : Buffer) : Response :=
  {| status := 200;
     headers :=
       [("X-Cache", "HIT");
        ("Content-Type", Js.or_str (cached_contentType cached) "application/octet-stream")]
       ++ (if Js.truthy (filename cached)
           then [("Content-Disposition",
                  "attachment; filename=" +:+ Js.quoted (Js.String_ (filename cached)))]
           else [])
       ++ [("Content-Length", pretty (length buf))];
     body := BodyBytes buf |}.

(** The reply carrying a freshly computed artifact. *)
Definition missReply (buf : Buffer) (ct file : string) : Response :=
  {| status := 200;
     headers :=
       [("X-Cache", "MISS");
        ("Content-Type", ct);
        ("Content-Disposition", "attachment; filename=" +:+ Js.quoted file);
        ("Content-Length", pretty (length buf))];
     body := BodyBytes buf |}.

Definition errorReply (code : Z) (error message : string) : Response :=
  json_reply code [("error", JStr error); ("message", JStr message)].

(** "Optional cache lookup before any ShapeDiver calls" *)
Definition probeCache (env : Env) (bypassCache : bool) (key : CacheKey) : Handler unit :=
  if bypassCache then ret tt
  else
    let! cached := await (CacheGet key) (getCachedExport env key) in
    match hit cached, buffer cached with
    | true, Some buf => send (hitReply cached buf)
    | _, _ => ret tt
    end.

(** Step 2: create the session with the server-side ticket. *)
Definition openSession (env : Env) (endpoint : string) : Handler SessionData :=
  try_catch
    (await (CreateSession endpoint DOWNLOAD_TICKET)
           (createSessionByTicket env endpoint DOWNLOAD_TICKET))
    (fun msg =>
       do! emit (ConsoleError "Session creation failed:" msg) in
       throw ("Failed to create ShapeDiver session: " +:+ msg)).

(** [if (!fileBuffer && downloadUrl) { ... fetch ... }] *)
Definition fetchPayload (env : Env) (ex : Extraction) : Handler (option Buffer) :=
  match fileBuffer ex with
  | Some buf => ret (Some buf)
  | None =>
      if Js.truthy (downloadUrl ex) then
        let url := Js.String_ (downloadUrl ex) in
        let! r := await (Fetch url) (fetch env url) in
        if negb (ok r) then
          send (errorReply 502 "Download failed"
                  ("Failed to download export: " +:+ pretty (f_status r)
                   +:+ " " +:+ statusText r))
        else ret (Some (f_body r))
      else ret None
  end.

(** "Fire and forget cache store (do not delay response)": the write is
    started and its promise is dropped; the handler goes on without its
    outcome. *)
Definition storeInCache (bypassCache : bool) (key : CacheKey)
    (buf : Buffer) (ct file : string) : Handler unit :=
  if bypassCache then ret tt
  else emit (CachePut key buf ct file).

(** The answer of the [catch] block of the handler; the headers set
    before the error stay on the response. *)
Definition caughtReply (set : list (string * string)) (msg : string) : Response :=
  {| status := 500; headers := set;
     body := BodyJson (JObj [("error", JStr "Download error");
                             ("message", JStr (Js.or_str (Some msg) "Unknown error"))]) |}.

(** From the selected export's result to the response: extraction,
    normalization, headers, cache store.  The four headers are set before the
    write is started, and a header that is refused ends the request through
    the [catch] block. *)
Definition deliver (env : Env) (req : DownloadRequest)
    (designId exportType selectedExportName : string)
    (selectedExportData : ExportResult) : Handler Response :=
  let contentType := contentType req in
  let ex := extract contentType selectedExportData in
  let! fileBuffer := fetchPayload env ex in
  match fileBuffer with
  | None =>
      send (errorReply 500 "No export content"
              "No file content or URL returned by export")
  | Some buf =>
      let '(ct, ext) := normalize (pickedContent ex) selectedExportData contentType in
      let file :=
        designId +:+ "_" +:+ Js.or_str (Some selectedExportName) exportType +:+ ext in
      match refusedHeader (headers (missReply buf ct file)) with
      | Some (set, name) =>
          (* [res.setHeader] throws; the [catch] block logs and answers *)
          do! emit (ConsoleError "Error in download endpoint:"
                      (invalidHeaderMessage name)) in
          send (caughtReply set (invalidHeaderMessage name))
      | None =>
          do! storeInCache (bypassCache req)
                (designId, exportType, exportNameContains req, Some ct) buf ct file in
          send (missReply buf ct file)
      end
  end.

(** What the lookup of an inherited name finds: an object on which no
    field of a result is defined. *)
Definition inheritedValue : ExportResult :=
  {| r_content := ContentValue JUndefined; r_data := JUndefined; r_format := None;
     r_href := None; r_url := None; r_downloadUrl := None; r_link := None |}.

(** [exportData.exports && exportData.exports[id]]: the entry of the map,
    or else the value that every object inherits under that name. *)
Definition lookupExport (exportData : ExportData) (id : string) : option ExportResult :=
  match x_exports exportData with
  | None => None
  | Some m =>
      match m !! id with
      | Some r => Some r
      | None => if bool_decide (id ∈ inheritedNames) then Some inheritedValue else None
      end
  end.

(** Steps 3 to 7, once the session is open. *)
Definition resolveExport (env : Env) (req : DownloadRequest)
    (designId exportType endpoint : string) (sessionData : SessionData)
  : Handler Response :=
  let exportNameContains := exportNameContains req in
  let databaseApiUrl := RENDER_DEPLOYMENT_URI in
  (* Step 3: find the moda-json input parameter *)
  let modaJsonInputId := parameters sessionData ≫= findModaJson in
  if negb (Js.truthy modaJsonInputId) then
    throw "Could not find moda-json input parameter"
  else
  (* Step 4: select export by type and optional name filter *)
  let selected := exports sessionData ≫= selectExport exportType exportNameContains in
  let selectedExportId := fst <$> selected in
  let selectedExportName := from_option snd EmptyString selected in
  if negb (Js.truthy selectedExportId) then
    send (errorReply 404 "Export not found"
            (export_not_found_message exportType exportNameContains))
  else
  let selectedExportId := Js.String_ selectedExportId in
  (* Step 5, 6: submit the export computation *)
  let modaJsonUri := databaseApiUrl +:+ "/api/data/" +:+ designId in
  let exportRequest :=
    {| rq_parameters := [(Js.String_ modaJsonInputId, modaJsonUri)];
       rq_exports := [selectedExportId] |} in
  let! exportData :=
    await (ComputeExports endpoint (sessionId sessionData) exportRequest)
          (computeExports env endpoint (sessionId sessionData) exportRequest) in
  (* Step 7: get the export data from the results *)
  match lookupExport exportData selectedExportId with
  | None => send (errorReply 500 "Export missing" "Export not found in results")
  | Some selectedExportData =>
      deliver env req designId exportType selectedExportName selectedExportData
  end.

(** The body of the [try] block of the handler. *)
Definition downloadBody (env : Env) (req : DownloadRequest) : Handler Response :=
  let exportType := default "download" (exportType req) in
  (* Validate required parameters *)
  if negb (Js.truthy (designId req)) then
    send (errorReply 400 "Missing required parameter" "designId is required")
  else
  let designId := Js.String_ (designId req) in
  let endpoint := Js.or_str (shapediverEndpoint req) DEFAULT_ENDPOINT in
  do! probeCache env (bypassCache req)
        (designId, exportType, exportNameContains req, contentType req) in
  let! sessionData := openSession env endpoint in
  resolveExport env req designId exportType endpoint sessionData.

(** The handler: the [try] block and its [catch], started on an empty
    trace.  Returns the response and the events up to the moment the
    response is sent. *)
Definition handleDownload (env : Env) (req : DownloadRequest) : Response * list Event :=
  match downloadBody env req [] with
  | (Done r, t) => (r, t)
  | (Sent r, t) => (r, t)
  | (Thrown msg, t) =>
      (errorReply 500 "Download error" (Js.or_str (Some msg) "Unknown error"),
       t ++ [ConsoleError "Error in download endpoint:" msg])
  end.

(** The rejection handler attached to a cache write
    ([.catch(err => console.warn(...))]): what it logs once the write has
    settled. *)
Definition settled (env : Env) (e : Event) : list Event :=
  match e with
  | CachePut key buf ct file =>
      match putCachedExport env key buf ct file with
      | Some msg => [ConsoleWarn "⚠️ Cache store failed:" msg]
      | None => []
      end
  | _ => []
  end.

(** The request as a whole: the response seen by the caller, and the events
    in the order they occur.  The handler has returned, and the response is
    sent, before a write it started settles. *)
Definition postDownload (env : Env) (req : DownloadRequest) : Response * list Event :=
  let '(r, t) := handleDownload env req in
  (r, t ++ flat_map (settled env) t).

(** The [requireMongo] middleware in front of a handler. *)
Definition requireMongo {T} (isMongoConnected : bool) (next : Response * list T)
  : Response * list T :=
  if isMongoConnected then next
  else (errorReply 503 "Database unavailable"
          "MongoDB is not connected. Please start MongoDB and restart the server.",
        []).

(** ** The artifact cache *)

Record Artifact := {
  a_bytes : Buffer;
  a_contentType : string;
  a_filename : string
}.

(** Modelled from the spec: [getCachedExport] of [services/firebaseCache],
    which is not part of the sources at hand.  The cache is a store keyed by
    the criteria tuple (designId, exportKind, nameFilter, contentType); a
    probe returns an entry exactly when its tuple equals a stored key, and
    then yields the stored bytes, content type and file name. *)
Definition cacheGet (store : gmap CacheKey Artifact) (k : CacheKey) : string + CacheResult :=
  inr match store !! k with
      | Some a =>
          {| hit := true; buffer := Some (a_bytes a);
             cached_contentType := Some (a_contentType a);
             filename := Some (a_filename a) |}
      | None =>
          {| hit := false; buffer := None; cached_contentType := None;
             filename := None |}
      end.

(** Modelled from the spec: [putCachedExport] of [services/firebaseCache];
    a completed write stores the artifact under the given criteria tuple. *)
Definition cachePut (store : gmap CacheKey Artifact) (k : CacheKey)
    (buf : Buffer) (ct file : string) : gmap CacheKey Artifact :=
  <[k := {| a_bytes := buf; a_contentType := ct; a_filename := file |}]> store.

(** The remote computation service and the HTTP client. *)
Record Remote := {
  remote_session : string -> string -> string + SessionData;
  remote_compute : string -> string -> ExportRequest -> string + ExportData;
  remote_fetch : string -> string + FetchResponse
}.

(** The environment of a request served against the cache [store]. *)
Definition envOf (remote : Remote) (store : gmap CacheKey Artifact) : Env :=
  {| getCachedExport := cacheGet store;
     createSessionByTicket := remote_session remote;
     computeExports := remote_compute remote;
     fetch := remote_fetch remote;
     putCachedExport := fun _ _ _ _ => None |}.

(** The cache once the writes issued during a request have completed. *)
Definition settle (store : gmap CacheKey Artifact) (t : list Event)
  : gmap CacheKey Artifact :=
  fold_left (fun st e =>
               match e with
               | CachePut k buf ct file => cachePut st k buf ct file
               | _ => st
               end) t store.

(** One request against the cache: the response, the calls made, and the
    cache afterwards. *)
Definition serve (remote : Remote) (store : gmap CacheKey Artifact)
    (req : DownloadRequest) : Response * list Event * gmap CacheKey Artifact :=
  let '(r, t) := postDownload (envOf remote store) req in
  (r, t, settle store t).

Definition is_cache_put (e : Event) : bool :=
  match e with CachePut _ _ _ _ => true | _ => false end.

Definition is_console_warn (e : Event) : bool :=
  match e with ConsoleWarn _ _ => true | _ => false end.

(** ** [GET /api/data/versions/:name/:versionNumber] *)

Record Doc := {
  _id : string;
  name : string;
  uploadedAt : Z;
  fields : list (string * Json)
}.

Definition docFields (d : Doc) : list (string * Json) :=
  ("_id", JStr (_id d)) :: ("name", JStr (name d))
  :: ("uploadedAt", JNum (uploadedAt d)) :: fields d.

(** [{ ...o, k: v }] *)
Fixpoint objSet (k : string) (v : Json) (o : list (string * Json))
  : list (string * Json) :=
  match o with
  | [] => [(k, v)]
  | (k', v') :: rest =>
      if decide (k' = k) then (k, v) :: rest else (k', v') :: objSet k v rest
  end.

(** The order of [sort({ uploadedAt: -1 })]. *)
Definition newerFirst (a b : Doc) : Prop := uploadedAt b <= uploadedAt a.

#[global] Instance newerFirst_dec a b : Decision (newerFirst a b) :=
  Z_le_dec (uploadedAt b) (uploadedAt a).

(** [collection.find({ name }).sort({ uploadedAt: -1 }).toArray()] on a
    collection held in memory: one of the results the query may have.  The
    store promises no order among documents of equal [uploadedAt]; a
    statement that depends on that order is made for any sorted result, or
    for pairwise distinct upload times. *)
Definition findVersions (coll : list Doc) (n : string) : string + list Doc :=
  inr (merge_sort newerFirst (filter (fun d => name d = n) coll)).



Definition invalidVersionReply : Response :=
  errorReply 400 "Invalid version number"
    "Version number must be a non-negative integer (0 = current, 1 = previous, etc.)".

Definition versionNotFoundMessage (versionNum : Z) (count : nat) : string :=
  "Version " +:+ numberToString versionNum
  +:+ " does not exist. Available versions: 0-"
  +:+ pretty (Z.of_nat count - 1).

Definition versionInfo (versionNum : Z) (count : nat) (d : Doc) : Json :=
  JObj [("versionNumber", JNum versionNum);
        ("totalVersions", JNum (Z.of_nat count));
        ("isCurrent", JBool (versionNum =? 0));
        ("uploadedAt", JNum (uploadedAt d))].

Definition fetchFailedReply : Response :=
  json_reply 500 [("error", JStr "Failed to fetch design version")].

(** The handler; [find] is the query of the document store. *)
Definition getVersion (find : string -> string + list Doc)
    (n versionNumber : string) : Response :=
  match ParseInt.parseInt versionNumber with
  | None => invalidVersionReply
  | Some versionNum =>
      if versionNum <? 0 then invalidVersionReply
      else
        match find n with
        | inl _ => fetchFailedReply
        | inr versions =>
            if bool_decide (length versions = 0%nat) then
              json_reply 404 [("error", JStr "No versions found for this design name")]
            else if Z.of_nat (length versions) <=? versionNum then
              json_reply 404
                [("error", JStr "Version not found");
                 ("message", JStr (versionNotFoundMessage versionNum (length versions)));
                 ("totalVersions", JNum (Z.of_nat (length versions)))]
            else
              match versions !! Z.to_nat versionNum with
              | Some requestedVersion =>
                  json_reply 200
                    (objSet "versionInfo"
                       (versionInfo versionNum (length versions) requestedVersion)
                       (docFields requestedVersion))
              | None => fetchFailedReply
              end
        end
  end.

(** ** Stages of a download request, as hypotheses *)

Definition exportTypeOf (req : DownloadRequest) : string :=
  default "download" (exportType req).

Definition endpointOf (req : DownloadRequest) : string :=
  Js.or_str (shapediverEndpoint req) DEFAULT_ENDPOINT.

(** The criteria with which the cache is probed for a request. *)
Definition probeKey (req : DownloadRequest) (id : string) : CacheKey :=
  (id, exportTypeOf req, exportNameContains req, contentType req).

(** The criteria under which a fresh artifact of content type [ct] is stored. *)
Definition storeKey (req : DownloadRequest) (id ct : string) : CacheKey :=
  (id, exportTypeOf req, exportNameContains req, Some ct).

Definition probeTrace (req : DownloadRequest) (id : string) : list Event :=
  if bypassCache req then [] else [CacheGet (probeKey req id)].

(** The cache does not answer the request: it is bypassed, or the probe
    resolves to a miss or to an entry without bytes. *)
Definition cacheMisses (env : Env) (req : DownloadRequest) (id : string) : Prop :=
  bypassCache req = true
  \/ exists cached, getCachedExport env (probeKey req id) = inr cached
                    /\ (hit cached = false \/ buffer cached = None).

(** The request passes validation, is not answered by the cache, the
    session opens and the [moda-json] parameter [pid] is found. *)
Record ReachesDiscovery (env : Env) (req : DownloadRequest)
    (id : string) (sd : SessionData) (pid : string) : Prop := {
  rd_design : designId req = Some id;
  rd_design_ne : id <> EmptyString;
  rd_miss : cacheMisses env req id;
  rd_session : createSessionByTicket env (endpointOf req) DOWNLOAD_TICKET = inr sd;
  rd_param : parameters sd ≫= findModaJson = Some pid;
  rd_param_ne : pid <> EmptyString
}.

(** The request passes validation, is not answered by the cache, and the
    session [sd] opens. *)
Record ReachesSession (env : Env) (req : DownloadRequest)
    (id : string) (sd : SessionData) : Prop := {
  rs_design : designId req = Some id;
  rs_design_ne : id <> EmptyString;
  rs_miss : cacheMisses env req id;
  rs_session : createSessionByTicket env (endpointOf req) DOWNLOAD_TICKET = inr sd
}.

(** The computation request submitted for export [eid]. *)
Definition exportRequestFor (id pid eid : string) : ExportRequest :=
  {| rq_parameters := [(pid, RENDER_DEPLOYMENT_URI +:+ "/api/data/" +:+ id)];
     rq_exports := [eid] |}.

(** The calls made up to and including session creation. *)
Definition sessionTrace (req : DownloadRequest) (id : string) : list Event :=
  probeTrace req id ++ [CreateSession (endpointOf req) DOWNLOAD_TICKET].


(** The fetch made for an extraction, if any. *)
Definition fetchTrace (ex : Extraction) : list Event :=
  match fileBuffer ex with
  | Some _ => []
  | None =>
      if Js.truthy (downloadUrl ex) then [Fetch (Js.String_ (downloadUrl ex))]
      else []
  end.

(** The cache write started for a fresh artifact. *)
Definition storeTrace (bypass : bool) (key : CacheKey)
    (buf : Buffer) (ct file : string) : list Event :=
  if bypass then [] else [CachePut key buf ct file].

(** The step ends the request with an error reply, or throws. *)
Definition failed {A} (res : Outcome A * list Event) : Prop :=
  (exists r, fst res = Sent r /\ status r <> 200)
  \/ (exists msg, fst res = Thrown msg).

(** The response is a freshly computed artifact. *)
Definition isFresh (r : Response) : Prop :=
  status r = 200 /\ In ("X-Cache", "MISS") (headers r).

(** The four headers of a fresh artifact are accepted by [res.setHeader]. *)
Definition headersAccepted (ct file : string) : Prop :=
  validHeaderValue ct = true
  /\ validHeaderValue ("attachment; filename=" +:+ Js.quoted file) = true.

(** The environment [env] with another outcome of the cache write. *)
Definition withPut (env : Env)
    (put : CacheKey -> Buffer -> string -> string -> option string) : Env :=
  {| getCachedExport := getCachedExport env;
     createSessionByTicket := createSessionByTicket env;
     computeExports := computeExports env;
     fetch := fetch env;
     putCachedExport := put |}.


(** ** Sample inputs *)

Definition entry (ct fmt : option string) (data : JsVal) (href url : option string)
  : ContentEntry :=
  {| c_contentType := ct; c_format := fmt; c_data := data; c_content := JUndefined;
     c_href := href; c_url := url; c_downloadUrl := None; c_link := None |}.

Definition arrayResult (l : list ContentEntry) : ExportResult :=
  {| r_content := ContentArray l; r_data := JUndefined; r_format := None;
     r_href := None; r_url := None; r_downloadUrl := None; r_link := None |}.

Definition directResult (data : JsVal) (fmt href url : option string) : ExportResult :=
  {| r_content := ContentValue JUndefined; r_data := data; r_format := fmt;
     r_href := href; r_url := url; r_downloadUrl := None; r_link := None |}.

Definition sampleSession : SessionData :=
  {| sessionId := "s1";
     parameters := Some [("p1", {| p_name := Some "moda-json" |})];
     exports := Some [("e1", {| e_type := Some "download"; e_name := Some "plan" |})] |}.

(** A remote service that opens the session [sd] and answers every
    computation with [results]; every fetch answers 200 with [body]. *)
Definition remoteWith (sd : SessionData) (results : option (gmap string ExportResult))
    (body : Buffer) : Remote :=
  {| remote_session := fun _ _ => inr sd;
     remote_compute := fun _ _ _ => inr {| x_exports := results |};
     remote_fetch := fun _ =>
       inr {| ok := true; f_status := 200; statusText := "OK"; f_body := body |} |}.

(** The sample session, with the result [r] computed for its export [e1]. *)
Definition remoteReturning (r : ExportResult) (body : Buffer) : Remote :=
  remoteWith sampleSession (Some {[ "e1" := r ]}) body.


(** A session whose only export has an id that every object inherits. *)
Definition inheritedIdSession : SessionData :=
  {| sessionId := "s4";
     parameters := Some [("p1", {| p_name := Some "moda-json" |})];
     exports := Some [("constructor",
                       {| e_type := Some "download"; e_name := Some "plan" |})] |}.


(** A design id with a line feed, which no header value may hold. *)
Definition lineFeedId : string := "ab" +:+ String (Ascii.ascii_of_N 10) "c".

(** A remote service whose result for [e1] points to a URL, and whose
    fetches are answered with [resp]. *)
Definition remoteFetching (resp : FetchResponse) : Remote :=
  {| remote_session := fun _ _ => inr sampleSession;
     remote_compute := fun _ _ _ =>
       inr {| x_exports :=
                Some {[ "e1" := directResult JUndefined None None
                                  (Some "https://files.example/a.pdf") ]} |};
     remote_fetch := fun _ => inr resp |}.

Definition requestFor (id : string) (ct : option string) (bypass : bool)
  : DownloadRequest :=
  {| designId := Some id; shapediverEndpoint := None; exportType := None;
     exportNameContains := None; contentType := ct; bypassCache := bypass |}.

Definition pdfEntry : ContentEntry :=
  entry (Some "application/pdf") (Some "pdf") (JString "QUJD") None None.

(** The calls of a fresh answer to a request for [abc] preferring
    [application/pdf], when the computation returns [pdfEntry]. *)
Definition pdfTrace : list Event :=
  [CacheGet ("abc", "download", None, Some "application/pdf");
   CreateSession DEFAULT_ENDPOINT DOWNLOAD_TICKET;
   ComputeExports DEFAULT_ENDPOINT "s1"
     {| rq_parameters := [("p1", "https://mongo-sd-server.onrender.com/api/data/abc")];
        rq_exports := ["e1"] |};
   CachePut ("abc", "download", None, Some "application/pdf")
     [65; 66; 67] "application/pdf" "abc_plan.pdf"].

Definition cachedPdf : Artifact :=
  {| a_bytes := [65; 66; 67]; a_contentType := "application/pdf";
     a_filename := "abc_plan.pdf" |}.

Definition threeVersions : list Doc :=
  [ {| _id := "b"; name := "chair"; uploadedAt := 200; fields := [] |};
    {| _id := "x"; name := "table"; uploadedAt := 250; fields := [] |};
    {| _id := "a"; name := "chair"; uploadedAt := 300; fields := [] |};
    {| _id := "c"; name := "chair"; uploadedAt := 100; fields := [] |} ].

(** ** Discipline of the calls of a download request *)

Definition is_cache_event (e : Event) : bool :=
  match e with
  | CacheGet _ | CachePut _ _ _ _ => true
  | _ => false
  end.

(** The rank of a collaborator call in the pipeline; console output has
    none. *)
Definition phase (e : Event) : option nat :=
  match e with
  | CacheGet _ => Some 0%nat
  | CreateSession _ _ => Some 1%nat
  | ComputeExports _ _ _ => Some 2%nat
  | Fetch _ => Some 3%nat
  | CachePut _ _ _ _ => Some 4%nat
  | ConsoleError _ _ | ConsoleWarn _ _ => None
  end.

Definition calls (t : list Event) : list nat := omap phase t.

(** The two shapes of a response of the download endpoint: bytes under
    status 200 with the cache marker first, a non-empty content type and the
    length of the body; or a JSON error object with the fields [error] and
    [message] under an error status.  An error response carries no header
    set by the handler, except the 500 answered after [setHeader] refused a
    value, which keeps the headers set before it, the cache marker first. *)
Definition wellFormed (r : Response) : Prop :=
  match body r with
  | BodyBytes b =>
      status r = 200
      /\ (headers r !! 0%nat = Some ("X-Cache", "HIT")
          \/ headers r !! 0%nat = Some ("X-Cache", "MISS"))
      /\ (exists ct, headers r !! 1%nat = Some ("Content-Type", ct) /\ ct <> EmptyString)
      /\ In ("Content-Length", pretty (length b)) (headers r)
  | BodyJson j =>
      In (status r) [400; 404; 500; 502; 503]
      /\ (headers r = []
          \/ (status r = 500 /\ headers r !! 0%nat = Some ("X-Cache", "MISS")))
      /\ exists e m, j = JObj [("error", JStr e); ("message", JStr m)]
  end.

(** A handler step started on any trace appends events that all satisfy
    [P], whose calls have strictly increasing ranks within [lo, hi); a
    response it sends satisfies [Q] and a value it returns satisfies [D]. *)
Definition runs {A} (lo hi : nat) (P : Event -> Prop) (Q : Response -> Prop)
    (D : A -> Prop) (m : Handler A) : Prop :=
  forall t, exists o t',
    m t = (o, t ++ t')
    /\ Forall P t'
    /\ StronglySorted lt (calls t')
    /\ Forall (fun p => lo <= p < hi)%nat (calls t')
    /\ match o with
       | Done a => D a
       | Sent r => Q r
       | Thrown _ => True
       end.

(** The request reaches payload extraction: an export [eid] named [nm] is
    selected, the computation succeeds, and its result holds [res] for that
    export. *)
Record ReachesExtraction (env : Env) (req : DownloadRequest)
    (id : string) (sd : SessionData) (pid eid nm : string) (res : ExportResult)
  : Prop := {
  re_discovery : ReachesDiscovery env req id sd pid;
  re_selected : selectExport (exportTypeOf req) (exportNameContains req)
                  (default [] (exports sd)) = Some (eid, nm);
  re_selected_ne : eid <> EmptyString;
  re_computed : exists data,
      computeExports env (endpointOf req) (sessionId sd) (exportRequestFor id pid eid)
      = inr data
      /\ lookupExport data eid = Some res
}.

(** The calls made up to and including the computation. *)
Definition computeTrace (req : DownloadRequest) (id : string) (sd : SessionData)
    (pid eid : string) : list Event :=
  sessionTrace req id
  ++ [ComputeExports (endpointOf req) (sessionId sd) (exportRequestFor id pid eid)].

(** The inline field read from a result: [data || content] of the picked
    entry, or of the result object when it has no content array. *)
Definition inlinePayload (contentType : option string) (res : ExportResult) : JsVal :=
  match r_content res with
  | ContentArray content =>
      let picked := pickContent contentType content in
      js_or (from_option c_data JUndefined picked)
            (from_option c_content JUndefined picked)
  | ContentValue content => js_or (r_data res) content
  end.

Definition is_fetch (e : Event) : bool :=
  match e with Fetch _ => true | _ => false end.

(** ** [GET /api/data/versions/:name] *)

(** One element of the version list. *)
Definition versionEntry (index : nat) (version : Doc) : Json :=
  JObj [("id", JStr (_id version));
        ("name", JStr (name version));
        ("versionNumber", JNum (Z.of_nat index));
        ("uploadedAt", JNum (uploadedAt version));
        ("isCurrent", JBool (bool_decide (index = 0%nat)))].

(** The handler; [find] is the query of the document store, sorted by
    [uploadedAt] descending. *)
Definition getVersions (find : string -> string + list Doc) (n : string) : Response :=
  match find n with
  | inl _ => json_reply 500 [("error", JStr "Failed to fetch design versions")]
  | inr versions =>
      if bool_decide (length versions = 0%nat) then
        json_reply 404 [("error", JStr "No versions found for this design name")]
      else
        let versionList := imap versionEntry versions in
        json_reply 200
          [("designName", JStr n);
           ("totalVersions", JNum (Z.of_nat (length versionList)));
           ("versions", JArr versionList)]
  end.

(** ** [POST /api/data/upload] *)

(** The request body: the [name] field and the other fields. *)
Record DesignData := {
  u_name : option string;
  u_fields : list (string * Json)
}.

(** The handler on a collection held in memory.  [insertedId] is the id
    the store generates for the new record, [now] the time of the request
    and [toISOString] the rendering of a date.  Returns the response and the
    collection afterwards. *)
Definition postUpload (toISOString : Z -> string) (coll : list Doc)
    (designData : DesignData) (now : Z) (insertedId : string)
  : Response * list Doc :=
  if negb (Js.truthy (u_name designData)) then
    (errorReply 400 "Invalid design data" "Design must have a name field", coll)
  else
    let doc := {| _id := insertedId; name := Js.String_ (u_name designData);
                  uploadedAt := now; fields := u_fields designData |} in
    (json_reply 201
       [("message", JStr "Design uploaded successfully");
        ("id", JStr insertedId);
        ("name", JStr (Js.String_ (u_name designData)));
        ("uploadedAt", JStr (toISOString now))],
     coll ++ [doc]).

(** ** [GET /api/data/list_latest] and [GET /api/designs/list] *)

(** [item.name || 'Unnamed Item'].  A record without a name is held with
    the empty name; both are falsy. *)
Definition displayName (d : Doc) : string :=
  Js.or_str (Some (name d)) "Unnamed Item".

(** Own properties of an object, in creation order. *)
Fixpoint ownGet {V} (k : string) (o : list (string * V)) : option V :=
  match o with
  | [] => None
  | (k', v) :: rest => if decide (k' = k) then Some v else ownGet k rest
  end.

Fixpoint ownSet {V} (k : string) (v : V) (o : list (string * V)) : list (string * V) :=
  match o with
  | [] => [(k, v)]
  | (k', v') :: rest =>
      if decide (k' = k) then (k, v) :: rest else (k', v') :: ownSet k v rest
  end.

(** One round of the grouping loop:
    [if (!designGroups[name]) designGroups[name] = []; designGroups[name].push(item)].
    [None] when [push] is called on an inherited value and throws. *)
Definition groupItem (designGroups : list (string * list Doc)) (item : Doc)
  : option (list (string * list Doc)) :=
  let n := displayName item in
  match ownGet n designGroups with
  | Some versions => Some (ownSet n (versions ++ [item]) designGroups)
  | None =>
      if bool_decide (n ∈ inheritedNames) then None
      else Some (designGroups ++ [(n, [item])])
  end.

Fixpoint groupAll (designGroups : list (string * list Doc)) (items : list Doc)
  : option (list (string * list Doc)) :=
  match items with
  | [] => Some designGroups
  | item :: rest =>
      match groupItem designGroups item with
      | Some g => groupAll g rest
      | None => None
      end
  end.

(** A property name that is an array index: the canonical numeral of a
    number below 2^32 - 1. *)
Definition arrayIndex (k : string) : option Z :=
  match ParseInt.digits 10 None k with
  | Some v => if bool_decide (pretty v = k) && (v <? 4294967295) then Some v else None
  | None => None
  end.

Definition indexLe {V} (a b : string * V) : Prop :=
  default 0 (arrayIndex a.1) <= default 0 (arrayIndex b.1).

#[global] Instance indexLe_dec {V} (a b : string * V) : Decision (indexLe a b) :=
  Z_le_dec _ _.

(** [Object.entries(o)]: array-index keys in ascending order, then the
    other keys in creation order. *)
Definition objectEntries {V} (o : list (string * V)) : list (string * V) :=
  merge_sort indexLe (List.filter (fun e => bool_decide (is_Some (arrayIndex e.1))) o)
  ++ List.filter (fun e => negb (bool_decide (is_Some (arrayIndex e.1)))) o.

(** [versions.sort((a, b) => time(b) - time(a))]: a stable sort, newest
    first. *)
Fixpoint insertNewest (d : Doc) (l : list Doc) : list Doc :=
  match l with
  | [] => [d]
  | x :: l' =>
      if uploadedAt d <? uploadedAt x then x :: insertNewest d l' else d :: l
  end.

Definition sortNewestFirst (l : list Doc) : list Doc := foldr insertNewest [] l.

Record LatestDesign := {
  ld_id : string;
  ld_name : string;
  ld_uploadedAt : Z;
  ld_totalVersions : nat
}.

(** The element pushed for one group; [None] when the group is empty and
    reading [latestVersion._id] throws. *)
Definition latestOf (versions : list Doc) : option LatestDesign :=
  match sortNewestFirst versions with
  | latestVersion :: _ =>
      Some {| ld_id := _id latestVersion;
              ld_name := displayName latestVersion;
              ld_uploadedAt := uploadedAt latestVersion;
              ld_totalVersions := length versions |}
  | [] => None
  end.

Fixpoint latestAll (entries : list (string * list Doc)) : option (list LatestDesign) :=
  match entries with
  | [] => Some []
  | (_, versions) :: rest =>
      match latestOf versions with
      | Some e => (fun l => e :: l) <$> latestAll rest
      | None => None
      end
  end.

Definition latestJson (e : LatestDesign) : Json :=
  JObj [("id", JStr (ld_id e));
        ("name", JStr (ld_name e));
        ("uploadedAt", JNum (ld_uploadedAt e));
        ("isLatestVersion", JBool true);
        ("totalVersions", JNum (Z.of_nat (ld_totalVersions e)))].

(** The unique designs with their latest version, or [None] when the
    handler throws. *)
Definition latestDesigns (allItems : list Doc) : option (list LatestDesign) :=
  groupAll [] allItems ≫= (fun designGroups => latestAll (objectEntries designGroups)).

(** The handler; [findAll] is [collection.find({}).toArray()]. *)
Definition listLatest (findAll : string + list Doc) : Response :=
  match findAll with
  | inl _ => json_reply 500 [("error", JStr "Failed to fetch design list")]
  | inr allItems =>
      match latestDesigns allItems with
      | Some l =>
          {| status := 200; headers := []; body := BodyJson (JArr (latestJson <$> l)) |}
      | None => json_reply 500 [("error", JStr "Failed to fetch design list")]
      end
  end.

(** What the grouping loop maintains over the items [p] seen so far:
    one group per name, each holding the items of that name in their
    order, no group under an inherited name, every item in one group. *)
Definition Grouped (groups : list (string * list Doc)) (p : list Doc) : Prop :=
  NoDup groups.*1
  /\ (forall k g, (k, g) ∈ groups ->
        g = filter (fun d => displayName d = k) p /\ g <> [])
  /\ (forall d, d ∈ p -> displayName d ∈ groups.*1)
  /\ (forall k, k ∈ groups.*1 -> k ∉ inheritedNames)
  /\ sum_list_with (fun e => length e.2) groups = length p.

(** What one element of the answer says about the group it was made of. *)
Definition latestFor (e : string * list Doc) (r : LatestDesign) : Prop :=
  exists h, h ∈ e.2
    /\ (forall x, x ∈ e.2 -> uploadedAt x <= uploadedAt h)
    /\ r = {| ld_id := _id h; ld_name := displayName h;
              ld_uploadedAt := uploadedAt h; ld_totalVersions := length e.2 |}.

(** An element reports the newest record of its name and the number of
    records of that name. *)
Definition reportsLatest (coll : list Doc) (e : LatestDesign) : Prop :=
  ld_totalVersions e = length (filter (fun d => displayName d = ld_name e) coll)
  /\ exists d, d ∈ coll /\ displayName d = ld_name e
       /\ _id d = ld_id e /\ uploadedAt d = ld_uploadedAt e
       /\ forall d', d' ∈ coll -> displayName d' = ld_name e ->
            uploadedAt d' <= uploadedAt d.

Definition designStore : list Doc :=
  [ {| _id := "b"; name := "chair"; uploadedAt := 200; fields := [] |};
    {| _id := "y"; name := "7"; uploadedAt := 50; fields := [] |};
    {| _id := "x"; name := EmptyString; uploadedAt := 250; fields := [] |};
    {| _id := "a"; name := "chair"; uploadedAt := 300; fields := [] |} ].

Definition designStoreLatest : list LatestDesign :=
  [ {| ld_id := "y"; ld_name := "7"; ld_uploadedAt := 50; ld_totalVersions := 1 |};
    {| ld_id := "a"; ld_name := "chair"; ld_uploadedAt := 300; ld_totalVersions := 2 |};
    {| ld_id := "x"; ld_name := "Unnamed Item"; ld_uploadedAt := 250;
       ld_totalVersions := 1 |} ].

(** * Properties *)

(** ** Strings *)



(** ** Letter case *)

Lemma is_upper_bound c : Js.is_upper c = true -> (65 <= N_of_ascii c <= 90)%N.
Proof.
  unfold Js.is_upper. intros [H1 H2]%andb_true_iff.
  apply N.leb_le in H1, H2. lia.
Qed.

Lemma lower_upper c :
  Js.is_upper c = true -> Js.is_upper (Js.lower_char c) = false.
Proof.
  intros H. unfold Js.lower_char. rewrite H.
  apply is_upper_bound in H. unfold Js.is_upper.
  rewrite N_ascii_embedding by lia.
  apply andb_false_iff. right. apply N.leb_gt. lia.
Qed.

Lemma lower_char_idem c : Js.lower_char (Js.lower_char c) = Js.lower_char c.
Proof.
  destruct (Js.is_upper c) eqn:E.
  - unfold Js.lower_char at 1. by rewrite (lower_upper c E).
  - unfold Js.lower_char. by rewrite !E.
Qed.

(** Two characters fold to the same character exactly when they are the
    same letter up to case. *)
Lemma lower_char_eq c d :
  Js.lower_char c = Js.lower_char d <-> Js.sameLetter c d.
Proof.
  split.
  - intros H. unfold Js.sameLetter.
    destruct (Js.is_upper c) eqn:Ec, (Js.is_upper d) eqn:Ed.
    + left. unfold Js.lower_char in H. rewrite Ec, Ed in H.
      apply is_upper_bound in Ec, Ed.
      apply (f_equal N_of_ascii) in H.
      rewrite !N_ascii_embedding in H by lia.
      rewrite <- (ascii_N_embedding c), <- (ascii_N_embedding d).
      f_equal. lia.
    + right. left. split; [done |].
      rewrite H. unfold Js.lower_char. by rewrite Ed.
    + right. right. split; [done |].
      rewrite <- H. unfold Js.lower_char. by rewrite Ec.
    + left. unfold Js.lower_char in H. by rewrite Ec, Ed in H.
  - intros [-> | [[_ ->] | [_ ->]]]; [done | |]; by rewrite lower_char_idem.
Qed.

Lemma lowerAscii_eq s t :
  Js.lowerAscii s = Js.lowerAscii t <-> Js.equalUpToCase s t.
Proof.
  split.
  - revert t. induction s as [| c s IH]; intros [| d t]; simpl; try done.
    + intros _. constructor.
    + intros [= Hc Hs]. constructor; [by apply lower_char_eq | by apply IH].
  - induction 1 as [| c d s t Hc _ IH]; simpl; [done |].
    apply lower_char_eq in Hc. by rewrite Hc, IH.
Qed.



(** On ASCII strings the runtime's folding is the folding of the letters
    [A] to [Z]: equality after folding is equality up to letter case, and
    containment after folding is containment up to letter case. *)
Lemma folded_equal a b :
  Js.isAscii a = true -> Js.isAscii b = true ->
  toLowerCase a = toLowerCase b <-> Js.equalUpToCase a b.
Proof.
  intros Ha Hb. rewrite (toLowerCase_ascii a Ha), (toLowerCase_ascii b Hb).
  apply lowerAscii_eq.
Qed.


Lemma find_first {A} (f : A -> bool) (l : list A) :
  match List.find f l with
  | Some x => exists l1 l2, l = l1 ++ x :: l2 /\ f x = true
                            /\ Forall (fun y => f y = false) l1
  | None => Forall (fun y => f y = false) l
  end.
Proof.
  induction l as [|a l IH]; simpl; [constructor |].
  destruct (f a) eqn:Hfa.
  - exists [], l. by repeat split.
  - destruct (List.find f l) as [x|].
    + destruct IH as (l1 & l2 & -> & Hx & Hl1).
      exists (a :: l1), l2. repeat split; [done | by constructor].
    + by constructor.
Qed.

(** ** Payload extraction: the choice of the content entry *)

(** C1 (as amended).  With a preferred content type the resolver picks the
    first entry of the [content] array whose declared content type equals
    it after case folding, and picks no entry when none does; without a
    preferred content type it picks the first entry of the array.  On ASCII
    content types, equality after case folding is equality up to letter
    case. *)
Theorem C1_pickContent (contentType : option string) (content : list ContentEntry) :
  let preferred := Js.String_ contentType in
  let declared := fun c => Js.or_str (c_contentType c) EmptyString in
  (if Js.truthy contentType then
     match pickContent contentType content with
     | Some c =>
         exists l1 l2, content = l1 ++ c :: l2
           /\ toLowerCase (declared c) = toLowerCase preferred
           /\ Forall (fun c' => toLowerCase (declared c') <> toLowerCase preferred) l1
     | None =>
         Forall (fun c' => toLowerCase (declared c') <> toLowerCase preferred) content
     end
   else pickContent contentType content = content !! 0%nat)
  /\ (forall c, Js.isAscii (declared c) = true -> Js.isAscii preferred = true ->
        (toLowerCase (declared c) = toLowerCase preferred
         <-> Js.equalUpToCase (declared c) preferred)).
Proof.
  intros preferred declared. split; [| intros c; apply folded_equal].
  unfold pickContent. destruct (Js.truthy contentType); [| done].
  pose proof (find_first (contentTypeIs contentType) content) as H.
  assert (forall l, Forall (fun y => contentTypeIs contentType y = false) l ->
            Forall (fun c' => toLowerCase (declared c') <> toLowerCase preferred) l)
    as Hno.
  { intros l Hl. eapply Forall_impl; [exact Hl |].
    intros c' Hc'. unfold contentTypeIs in Hc'.
    by apply bool_decide_eq_false in Hc'. }
  destruct (List.find _ content) as [c|]; [| by apply Hno].
  destruct H as (l1 & l2 & -> & Hc & Hl1).
  exists l1, l2. repeat split; [| by apply Hno].
  unfold contentTypeIs in Hc. by apply bool_decide_eq_true in Hc.
Qed.

(** ** The vendor-OBJ pattern *)

Lemma lower_o_word c : Js.lower_char c = "o"%char -> ObjPattern.is_word c = true.
Proof. destruct c as [[] [] [] [] [] [] [] []]; vm_compute; congruence. Qed.

Lemma lower_j_word c : Js.lower_char c = "j"%char -> ObjPattern.is_word c = true.
Proof. destruct c as [[] [] [] [] [] [] [] []]; vm_compute; congruence. Qed.

Lemma lower_x_word c : Js.lower_char c = "x"%char -> ObjPattern.is_word c = true.
Proof. destruct c as [[] [] [] [] [] [] [] []]; vm_compute; congruence. Qed.

Lemma lower_dash c : Js.lower_char c = "-"%char -> c = "-"%char.
Proof. destruct c as [[] [] [] [] [] [] [] []]; vm_compute; congruence. Qed.

Lemma literal_obj prev s last rest :
  ObjPattern.literal "obj" prev s = Some (last, rest) <->
  exists c1 c2 c3,
    s = String c1 (String c2 (String c3 rest)) /\ last = Some c3
    /\ Js.lowerAscii (String c1 (String c2 (String c3 EmptyString))) = "obj".
Proof.
  split.
  - destruct s as [|c1 [|c2 [|c3 s]]]; simpl; try done;
      repeat (case_decide; try done).
    intros [= <- <-]. exists c1, c2, c3. repeat split. simpl.
    match goal with
    | H1 : _ = Js.lower_char c1, H2 : _ = Js.lower_char c2,
      H3 : _ = Js.lower_char c3 |- _ => by rewrite <- H1, <- H2, <- H3
    end.
  - intros (c1 & c2 & c3 & -> & -> & H). simpl in *. injection H as H1 H2 H3.
    by rewrite H1, H2, H3.
Qed.

Lemma obj_here_spec prev s :
  ObjPattern.obj_here prev s = true <->
  exists w b, s = w +:+ b /\ Js.lowerAscii w = "obj"
              /\ ObjPattern.is_word_opt (ObjPattern.head b) = false.
Proof.
  unfold ObjPattern.obj_here. split.
  - destruct (ObjPattern.literal "obj" prev s) as [[last rest] |] eqn:E; [| done].
    apply literal_obj in E as (c1 & c2 & c3 & -> & -> & Hw).
    unfold ObjPattern.boundary. simpl.
    assert (ObjPattern.is_word c3 = true) as ->.
    { simpl in Hw. injection Hw as _ _ H3. by apply lower_j_word. }
    intros Hb. exists (String c1 (String c2 (String c3 EmptyString))), rest.
    repeat split; [done |]. by destruct (ObjPattern.is_word_opt _).
  - intros (w & b & -> & Hw & Hb).
    destruct w as [|c1 [|c2 [|c3 [|c4 w]]]]; try discriminate.
    rewrite (proj2 (literal_obj prev _ (Some c3) b)); [| by exists c1, c2, c3].
    unfold ObjPattern.boundary. rewrite Hb. simpl.
    simpl in Hw. injection Hw as _ _ H3.
    by rewrite (lower_j_word c3).
Qed.

(** The pattern matches exactly when the input contains the letters [obj],
    in any case, as a whole word; the optional [x-] adds nothing. *)
Lemma test_from_spec s : forall prev,
  ObjPattern.test_from prev s = true <->
  exists a w b, s = a +:+ w +:+ b /\ Js.lowerAscii w = "obj"
    /\ ObjPattern.is_word_opt (ObjPattern.last_or prev a) = false
    /\ ObjPattern.is_word_opt (ObjPattern.head b) = false.
Proof.
  induction s as [|c s IH]; intros prev.
  - split.
    + simpl. rewrite orb_false_r. unfold ObjPattern.match_here. simpl.
      by rewrite andb_false_r.
    + intros (a & w & b & Hs & Hw & _). destruct a; [| done].
      destruct w; [done | done].
  - change (ObjPattern.test_from prev (String c s))
      with (ObjPattern.match_here prev (String c s)
            || ObjPattern.test_from (Some c) s).
    rewrite orb_true_iff, IH. split.
    + intros [Hm | (a & w & b & -> & Hw & Ha & Hb)].
      * unfold ObjPattern.match_here in Hm.
        apply andb_true_iff in Hm as [Hbd Hm].
        apply orb_true_iff in Hm as [Hx | Ho].
        -- destruct (ObjPattern.literal "x-" prev (String c s))
             as [[last rest] |] eqn:E; [| done].
           simpl in E. case_decide as Hc; [| done].
           destruct s as [|d s]; [done |]. case_decide as Hd; [| done].
           injection E as <- <-.
           apply obj_here_spec in Hx as (w & b & -> & Hw & Hb).
           exists (String c (String d EmptyString)), w, b.
           repeat split; [done | | done]. simpl.
           by rewrite (lower_dash d).
        -- apply obj_here_spec in Ho as (w & b & Hs & Hw & Hb).
           exists EmptyString, w, b. repeat split; [done.. | | done]. simpl.
           destruct w as [|c1 w]; [done |]. simpl in Hs, Hw.
           injection Hs as -> _. injection Hw as H1 _.
           unfold ObjPattern.boundary in Hbd. simpl in Hbd.
           rewrite (lower_o_word c1 H1) in Hbd.
           by destruct (ObjPattern.is_word_opt prev).
      * exists (String c a), w, b. repeat split; [done | | done].
        simpl. by destruct a.
    + intros (a & w & b & Hs & Hw & Ha & Hb). destruct a as [|c' a].
      * left. simpl in Hs, Ha. unfold ObjPattern.match_here.
        assert (ObjPattern.obj_here prev (String c s) = true) as ->.
        { apply obj_here_spec. by exists w, b. }
        rewrite orb_true_r, andb_true_r.
        unfold ObjPattern.boundary. rewrite Ha. simpl.
        destruct w as [|c1 w]; [done |]. simpl in Hs, Hw.
        injection Hs as -> _. injection Hw as H1 _. by apply lower_o_word.
      * right. simpl in Hs. injection Hs as -> ->.
        exists a, w, b. repeat split; [done | | done].
        simpl in Ha. by destruct a.
Qed.

(** X19.  The matcher of [/\b(x-)?obj\b/i] accepts exactly the inputs that
    contain [obj], in any letter case, as a whole word: with no word
    character right before or right after it. *)
Lemma obj_pattern_spec s :
  ObjPattern.test s = true <-> ObjPattern.whole_word_obj s.
Proof. apply test_from_spec. Qed.

(** ** Content-type normalization *)

Lemma extension_of_format format ct :
  format <> EmptyString -> extensionOf format ct = "." +:+ format.
Proof.
  intros Hf. unfold extensionOf.
  rewrite (bool_decide_eq_false_2 _ Hf). reflexivity.
Qed.

(** C7 (as amended).  When no format token is present and the resolved
    content type matches the pattern [/\b(x-)?obj\b/i], normalization yields
    content type [model/obj] and extension [.obj]; when a format token is
    present the pattern is not consulted: the content type stays the one
    resolved from the token or the entry, and the extension is the token. *)
Theorem C7_obj_normalization (picked : option ContentEntry) (r : ExportResult)
    (contentType : option string) :
  let format := formatOf picked r in
  let ct := resolvedContentType format picked contentType in
  (format = EmptyString -> ObjPattern.test ct = true ->
   normalize picked r contentType = ("model/obj", ".obj"))
  /\ (format <> EmptyString ->
      normalize picked r contentType = (ct, "." +:+ format)).
Proof.
  intros format ct. split.
  - intros Hf Hct. unfold normalize. fold format. fold ct.
    unfold normalizeContentType. rewrite Hf in *.
    rewrite Hct. reflexivity.
  - intros Hf. unfold normalize. fold format. fold ct.
    unfold normalizeContentType.
    rewrite (bool_decide_eq_false_2 _ Hf). simpl.
    by rewrite extension_of_format.
Qed.


(** ** Payload extraction: inline payloads *)

Lemma split_no_sep sep s :
  (forall a b, s <> a +:+ String sep b) -> Js.split sep s = [s].
Proof.
  induction s as [|c s IH]; intros Hs; simpl; [done |].
  case_decide as Hc.
  - subst c. by destruct (Hs EmptyString s).
  - rewrite IH; [done |]. intros a b ->. by apply (Hs (String c a) b).
Qed.

Lemma split_at_first sep p q :
  (forall a b, p <> a +:+ String sep b) ->
  Js.split sep (p +:+ String sep q) = p :: Js.split sep q.
Proof.
  induction p as [|c p IH]; intros Hp; simpl.
  - by rewrite decide_True.
  - case_decide as Hc.
    + subst c. by destruct (Hp EmptyString p).
    + rewrite IH; [done |]. intros a b ->. by apply (Hp (String c a) b).
Qed.

(** X21.  In a picked content entry, a [data:] payload with a single comma
    is decoded from what follows that comma. *)
Lemma decodePicked_data_uri p q :
  Js.startsWith (p +:+ String "," q) "data:" = true ->
  (forall a b, p <> a +:+ String "," b) ->
  (forall a b, q <> a +:+ String "," b) ->
  decodePicked (JString (p +:+ String "," q)) = Some (Base64.decode q).
Proof.
  intros Hd Hp Hq. unfold decodePicked, data_uri_part. rewrite Hd.
  by rewrite split_at_first, (split_no_sep _ q).
Qed.


(** ** Payload extraction: the download URL *)

Lemma fetchPayload_inline env ex buf t :
  fileBuffer ex = Some buf -> fetchPayload env ex t = (Done (Some buf), t).
Proof. intros H. unfold fetchPayload. by rewrite H. Qed.

Lemma fetchPayload_get env ex url r t :
  fileBuffer ex = None -> downloadUrl ex = Some url -> url <> EmptyString ->
  fetch env url = inr r ->
  fetchPayload env ex t =
    (if ok r then Done (Some (f_body r))
     else Sent (errorReply 502 "Download failed"
                  ("Failed to download export: " +:+ pretty (f_status r)
                   +:+ " " +:+ statusText r)),
     t ++ [Fetch url]).
Proof.
  intros Hb Hu Hne Hf. unfold fetchPayload. rewrite Hb, Hu. simpl.
  rewrite (bool_decide_eq_false_2 _ Hne). simpl.
  unfold bind, await, bind, emit. rewrite Hf. simpl. by destruct (ok r).
Qed.

(** X20.  In the fallback shape, when no inline payload is found, the URL
    is the first truthy field among [href], [url], [downloadUrl], [link],
    and nothing is picked or decoded. *)
Lemma extract_direct_url contentType r v :
  r_content r = ContentValue v -> js_truthy (js_or (r_data r) v) = false ->
  extract contentType r =
    {| fileBuffer := None; pickedContent := None;
       downloadUrl :=
         if Js.truthy (r_href r) then r_href r
         else if Js.truthy (r_url r) then r_url r
         else if Js.truthy (r_downloadUrl r) then r_downloadUrl r
         else if Js.truthy (r_link r) then r_link r
         else None |}.
Proof.
  intros Hc Hp. unfold extract. rewrite Hc, Hp. unfold Js.or_else.
  destruct (Js.truthy (r_href r)) eqn:E1; rewrite ?E1; [done |].
  destruct (Js.truthy (r_url r)) eqn:E2; rewrite ?E2; [done |].
  destruct (Js.truthy (r_downloadUrl r)) eqn:E3; rewrite ?E3; [done |].
  destruct (Js.truthy (r_link r)) eqn:E4; rewrite ?E4; done.
Qed.


(** ** The stages of a download request *)

Lemma bind_done {A B} (m : Handler A) (k : A -> Handler B) t a t' :
  m t = (Done a, t') -> bind m k t = k a t'.
Proof. intros H. unfold bind. by rewrite H. Qed.

Lemma bind_sent {A B} (m : Handler A) (k : A -> Handler B) t r t' :
  m t = (Sent r, t') -> bind m k t = (Sent r, t').
Proof. intros H. unfold bind. by rewrite H. Qed.

Lemma bind_thrown {A B} (m : Handler A) (k : A -> Handler B) t e t' :
  m t = (Thrown e, t') -> bind m k t = (Thrown e, t').
Proof. intros H. unfold bind. by rewrite H. Qed.

Lemma await_ok {A} e (a : A) t : await e (inr a) t = (Done a, t ++ [e]).
Proof. reflexivity. Qed.

Lemma await_thrown {A} e msg t : @await A e (inl msg) t = (Thrown msg, t ++ [e]).
Proof. reflexivity. Qed.

Lemma truthy_Some s : s <> EmptyString -> Js.truthy (Some s) = true.
Proof. intros H. simpl. by rewrite bool_decide_eq_false_2. Qed.

Lemma probeCache_hit env key cached buf t :
  getCachedExport env key = inr cached ->
  hit cached = true -> buffer cached = Some buf ->
  probeCache env false key t = (Sent (hitReply cached buf), t ++ [CacheGet key]).
Proof.
  intros Hg Hh Hb. unfold probeCache.
  rewrite (bind_done _ _ _ _ _ (eq_trans (f_equal (fun r => await _ r t) Hg)
                                         (await_ok _ _ _))).
  by rewrite Hh, Hb.
Qed.

Lemma probeCache_miss env req id t :
  cacheMisses env req id ->
  probeCache env (bypassCache req) (probeKey req id) t
  = (Done tt, t ++ probeTrace req id).
Proof.
  unfold cacheMisses, probeCache, probeTrace.
  intros [Hb | (cached & Hg & Hmiss)].
  - rewrite Hb. unfold ret. by rewrite app_nil_r.
  - destruct (bypassCache req); [unfold ret; by rewrite app_nil_r |].
    rewrite (bind_done _ _ _ _ _ (eq_trans (f_equal (fun r => await _ r t) Hg)
                                           (await_ok _ _ _))).
    destruct Hmiss as [Hh | Hb]; [by rewrite Hh |].
    rewrite Hb. by destruct (hit cached).
Qed.

Lemma openSession_ok env endpoint sd t :
  createSessionByTicket env endpoint DOWNLOAD_TICKET = inr sd ->
  openSession env endpoint t
  = (Done sd, t ++ [CreateSession endpoint DOWNLOAD_TICKET]).
Proof. intros H. unfold openSession, try_catch. by rewrite H. Qed.

(** Up to session creation the handler only validates, probes and opens. *)
Lemma downloadBody_session env req id sd :
  designId req = Some id -> id <> EmptyString -> cacheMisses env req id ->
  createSessionByTicket env (endpointOf req) DOWNLOAD_TICKET = inr sd ->
  downloadBody env req []
  = resolveExport env req id (exportTypeOf req) (endpointOf req) sd
      (sessionTrace req id).
Proof.
  intros Hd Hne Hmiss Hs. unfold downloadBody.
  rewrite Hd, (truthy_Some _ Hne). simpl.
  rewrite (bind_done _ _ _ _ _ (probeCache_miss env req id [] Hmiss)).
  by rewrite (bind_done _ _ _ _ _ (openSession_ok env _ sd _ Hs)).
Qed.

(** ** The handler and the settlement of the writes *)

Lemma settled_quiet env t :
  Forall (fun e => is_cache_put e = false) t -> flat_map (settled env) t = [].
Proof.
  induction 1 as [| e t He _ IH]; simpl; [done |].
  rewrite IH, app_nil_r. by destruct e.
Qed.

(** When the handler starts no write, nothing happens after its response. *)
Lemma postDownload_quiet env req r t :
  handleDownload env req = (r, t) ->
  Forall (fun e => is_cache_put e = false) t ->
  postDownload env req = (r, t).
Proof.
  intros H Hq. unfold postDownload. rewrite H, (settled_quiet env t Hq).
  by rewrite app_nil_r.
Qed.

Lemma postDownload_response env req :
  fst (postDownload env req) = fst (handleDownload env req).
Proof. unfold postDownload. by destruct (handleDownload env req). Qed.

Lemma postDownload_events env req :
  snd (postDownload env req)
  = snd (handleDownload env req)
    ++ flat_map (settled env) (snd (handleDownload env req)).
Proof. unfold postDownload. by destruct (handleDownload env req). Qed.

Lemma quiet_probeTrace req id :
  Forall (fun e => is_cache_put e = false) (probeTrace req id).
Proof. unfold probeTrace. destruct (bypassCache req); by repeat constructor. Qed.

Lemma quiet_sessionTrace req id :
  Forall (fun e => is_cache_put e = false) (sessionTrace req id).
Proof.
  unfold sessionTrace. apply Forall_app. split; [apply quiet_probeTrace |].
  by repeat constructor.
Qed.

(** ** The cache probe *)

(** A probe that resolves to an entry with bytes ends the request. *)
Lemma cache_hit_reply env req id cached buf :
  designId req = Some id -> id <> EmptyString -> bypassCache req = false ->
  getCachedExport env (probeKey req id) = inr cached ->
  hit cached = true -> buffer cached = Some buf ->
  handleDownload env req = (hitReply cached buf, [CacheGet (probeKey req id)]).
Proof.
  intros Hd Hne Hb Hg Hh Hbuf. unfold handleDownload, downloadBody.
  rewrite Hd, (truthy_Some _ Hne), Hb. simpl.
  by rewrite (bind_sent _ _ _ _ _
                (probeCache_hit env (probeKey req id) cached buf [] Hg Hh Hbuf)).
Qed.

(** C3.  With [bypassCache = false], when the probe of the cache with the
    request's criteria resolves to a hit carrying bytes, content type and
    file name, the response is those bytes under [X-Cache: HIT] with that
    content type and file name, and the probe is the only call made: no
    session is created, nothing is computed or fetched. *)
Theorem C3_cache_hit (env : Env) (req : DownloadRequest) (id ct file : string)
    (buf : Buffer) :
  designId req = Some id -> id <> EmptyString ->
  bypassCache req = false ->
  getCachedExport env (id, default "download" (exportType req),
                       exportNameContains req, contentType req)
  = inr {| hit := true; buffer := Some buf; cached_contentType := Some ct;
           filename := Some file |} ->
  ct <> EmptyString -> file <> EmptyString ->
  postDownload env req =
    ({| status := 200;
        headers := [("X-Cache", "HIT"); ("Content-Type", ct);
                    ("Content-Disposition",
                     "attachment; filename=" +:+ Js.quoted file);
                    ("Content-Length", pretty (length buf))];
        body := BodyBytes buf |},
     [CacheGet (id, default "download" (exportType req),
                exportNameContains req, contentType req)]).
Proof.
  intros Hd Hne Hb Hg Hct Hfile.
  rewrite (postDownload_quiet env req _ _
             (cache_hit_reply env req id _ buf Hd Hne Hb Hg eq_refl eq_refl))
    by (by repeat constructor).
  unfold hitReply. simpl.
  by rewrite (bool_decide_eq_false_2 _ Hct), (bool_decide_eq_false_2 _ Hfile).
Qed.


(** Without a database connection no handler runs. *)
Lemma requireMongo_down env req :
  requireMongo false (postDownload env req)
  = (errorReply 503 "Database unavailable"
       "MongoDB is not connected. Please start MongoDB and restart the server.",
     []).
Proof. reflexivity. Qed.

Lemma requireMongo_up env req :
  requireMongo true (postDownload env req) = postDownload env req.
Proof. reflexivity. Qed.

(** ** Handlers only append to the trace *)










(** ** The headers of a fresh artifact *)

Lemma valid_digit d s :
  (d < 10)%N -> validHeaderValue s = true ->
  validHeaderValue (String (pretty_N_char d) s) = true.
Proof.
  intros Hd Hs.
  assert (d = 0 \/ d = 1 \/ d = 2 \/ d = 3 \/ d = 4 \/ d = 5 \/ d = 6 \/ d = 7
          \/ d = 8 \/ d = 9)%N as H by lia.
  repeat (destruct H as [-> | H]; [exact Hs |]). subst d. exact Hs.
Qed.

Lemma valid_pretty_go x : forall s,
  validHeaderValue s = true -> validHeaderValue (pretty_N_go x s) = true.
Proof.
  induction (N.lt_wf_0 x) as [x _ IH]. intros s Hs.
  destruct (N.eq_0_gt_0_cases x) as [-> | Hx]; [by rewrite pretty_N_go_0 |].
  rewrite pretty_N_go_step by done.
  apply IH; [by apply N.div_lt |].
  apply valid_digit; [apply N.mod_lt; lia | done].
Qed.

(** A length is written in digits, which every header accepts. *)
Lemma valid_length (n : nat) : validHeaderValue (pretty n) = true.
Proof.
  unfold pretty, pretty_nat, pretty, pretty_N. case_decide; [done |].
  by apply valid_pretty_go.
Qed.

(** Of the four headers only the content type and the file name can be
    refused. *)
Lemma refused_miss buf ct file :
  refusedHeader (headers (missReply buf ct file))
  = if validHeaderValue ct then
      if validHeaderValue ("attachment; filename=" +:+ Js.quoted file) then None
      else Some ([("X-Cache", "MISS"); ("Content-Type", ct)], "Content-Disposition")
    else Some ([("X-Cache", "MISS")], "Content-Type").
Proof.
  unfold missReply. cbn [headers refusedHeader].
  change (validHeaderValue "MISS") with true. cbn match.
  rewrite valid_length.
  destruct (validHeaderValue ct); [| done].
  by destruct (validHeaderValue _).
Qed.

Lemma refused_accepted buf ct file :
  headersAccepted ct file -> refusedHeader (headers (missReply buf ct file)) = None.
Proof. intros [H1 H2]. by rewrite refused_miss, H1, H2. Qed.

Lemma refused_inv buf ct file set name :
  refusedHeader (headers (missReply buf ct file)) = Some (set, name) ->
  ~ headersAccepted ct file
  /\ exists rest, headers (missReply buf ct file) = set ++ rest
                  /\ (name = "Content-Type" \/ name = "Content-Disposition").
Proof.
  rewrite refused_miss. unfold headersAccepted.
  destruct (validHeaderValue ct) eqn:E1;
    [destruct (validHeaderValue ("attachment; filename=" +:+ Js.quoted file)) eqn:E2;
       [done |] |];
    intros [= <- <-]; (split; [intros [? ?]; congruence |]);
    eexists; (split; [reflexivity | auto]).
Qed.

(** ** Export discovery *)





Lemma bind_selectExport exportType filter (o : option (list (string * ExportDef))) :
  o ≫= selectExport exportType filter
  = selectExport exportType filter (default [] o).
Proof. by destruct o. Qed.

(** Once an export is selected, the computation is submitted for it. *)
Lemma resolveExport_submits env req id sd pid eid nm t :
  parameters sd ≫= findModaJson = Some pid -> pid <> EmptyString ->
  selectExport (exportTypeOf req) (exportNameContains req) (default [] (exports sd))
  = Some (eid, nm) ->
  eid <> EmptyString ->
  resolveExport env req id (exportTypeOf req) (endpointOf req) sd t
  = bind (await (ComputeExports (endpointOf req) (sessionId sd)
                   (exportRequestFor id pid eid))
                (computeExports env (endpointOf req) (sessionId sd)
                   (exportRequestFor id pid eid)))
         (fun exportData =>
            match lookupExport exportData eid with
            | None =>
                send (errorReply 500 "Export missing" "Export not found in results")
            | Some selectedExportData =>
                deliver env req id (exportTypeOf req) nm selectedExportData
            end) t.
Proof.
  intros Hp Hpne Hsel Hene. unfold resolveExport.
  rewrite Hp, (truthy_Some _ Hpne), bind_selectExport, Hsel. simpl.
  by rewrite (bool_decide_eq_false_2 _ Hene).
Qed.

Lemma resolveExport_not_found env req id sd pid t :
  parameters sd ≫= findModaJson = Some pid -> pid <> EmptyString ->
  selectExport (exportTypeOf req) (exportNameContains req) (default [] (exports sd))
  = None ->
  resolveExport env req id (exportTypeOf req) (endpointOf req) sd t
  = (Sent (errorReply 404 "Export not found"
             (export_not_found_message (exportTypeOf req) (exportNameContains req))),
     t).
Proof.
  intros Hp Hpne Hsel. unfold resolveExport.
  by rewrite Hp, (truthy_Some _ Hpne), bind_selectExport, Hsel.
Qed.




(** ** The computed results *)

Lemma quiet_computeTrace req id sd pid eid :
  Forall (fun e => is_cache_put e = false) (computeTrace req id sd pid eid).
Proof.
  unfold computeTrace. apply Forall_app. split; [apply quiet_sessionTrace |].
  by repeat constructor.
Qed.

(** C10 (as amended).  When the computation returns a result without an
    exports map, or with an exports map that has no entry for the selected
    export id while that id is not a name every object inherits, the request
    fails with status 500 and body
    [{error: 'Export missing', message: 'Export not found in results'}],
    after the computation call and before any payload is extracted or
    fetched.  Under an inherited name the lookup finds the inherited value
    instead, and the request ends with 500 "No export content". *)
Theorem C10_export_missing (env : Env) (req : DownloadRequest)
    (id : string) (sd : SessionData) (pid eid nm : string) (data : ExportData) :
  ReachesDiscovery env req id sd pid ->
  selectExport (default "download" (exportType req)) (exportNameContains req)
               (default [] (exports sd)) = Some (eid, nm) ->
  eid <> EmptyString ->
  computeExports env (endpointOf req) (sessionId sd) (exportRequestFor id pid eid)
  = inr data ->
  let trace :=
    sessionTrace req id
    ++ [ComputeExports (endpointOf req) (sessionId sd) (exportRequestFor id pid eid)] in
  ((x_exports data = None
    \/ exists m, x_exports data = Some m /\ m !! eid = None /\ eid ∉ inheritedNames) ->
   postDownload env req =
     (json_reply 500 [("error", JStr "Export missing");
                      ("message", JStr "Export not found in results")],
      trace))
  /\ ((exists m, x_exports data = Some m /\ m !! eid = None /\ eid ∈ inheritedNames) ->
      postDownload env req =
        (json_reply 500 [("error", JStr "No export content");
                         ("message", JStr "No file content or URL returned by export")],
         trace)).
Proof.
  intros [Hd Hne Hmiss Hs Hp Hpne] Hsel Hene Hc trace.
  assert (handleDownload env req
          = match lookupExport data eid with
            | None =>
                (errorReply 500 "Export missing" "Export not found in results", trace)
            | Some r =>
                match deliver env req id (exportTypeOf req) nm r trace with
                | (Done r', t) | (Sent r', t) => (r', t)
                | (Thrown msg, t) =>
                    (errorReply 500 "Download error"
                       (Js.or_str (Some msg) "Unknown error"),
                     t ++ [ConsoleError "Error in download endpoint:" msg])
                end
            end) as Hrun.
  { unfold handleDownload.
    rewrite (downloadBody_session env req id sd Hd Hne Hmiss Hs).
    rewrite (resolveExport_submits env req id sd pid eid nm _ Hp Hpne Hsel Hene).
    rewrite (bind_done _ _ _ _ _
               (eq_trans (f_equal (fun r => await _ r _) Hc) (await_ok _ _ _))).
    by destruct (lookupExport data eid). }
  assert (Forall (fun e => is_cache_put e = false) trace) as Hq
    by apply (quiet_computeTrace req id sd pid eid).
  split.
  - intros Hmissing. apply postDownload_quiet; [| done].
    rewrite Hrun. unfold lookupExport.
    destruct Hmissing as [Hx | (m & Hx & Hm & Hin)]; rewrite Hx; [done |].
    by rewrite Hm, bool_decide_eq_false_2.
  - intros (m & Hx & Hm & Hin). apply postDownload_quiet; [| done].
    rewrite Hrun. unfold lookupExport.
    by rewrite Hx, Hm, bool_decide_eq_true_2.
Qed.

(** ** Fresh artifacts and the cache write *)

Lemma failed_sent {A} r t : status r <> 200 -> failed (@Sent A r, t).
Proof. intros H. left. by exists r. Qed.

Lemma failed_thrown {A} msg t : failed (@Thrown A msg, t).
Proof. right. by exists msg. Qed.

Lemma storeInCache_run b key buf ct file t :
  storeInCache b key buf ct file t = (Done tt, t ++ storeTrace b key buf ct file).
Proof.
  unfold storeInCache, storeTrace. destruct b; [| done].
  unfold ret. by rewrite app_nil_r.
Qed.

Lemma fetchPayload_cases env ex t :
  (exists o, fetchPayload env ex t = (Done o, t ++ fetchTrace ex))
  \/ failed (fetchPayload env ex t).
Proof.
  unfold fetchPayload, fetchTrace. destruct (fileBuffer ex) as [buf |].
  - left. exists (Some buf). unfold ret. by rewrite app_nil_r.
  - destruct (Js.truthy (downloadUrl ex)).
    + destruct (fetch env (Js.String_ (downloadUrl ex))) as [msg | r] eqn:Hf.
      * right. rewrite (bind_thrown _ _ _ _ _ (await_thrown _ msg t)).
        apply failed_thrown.
      * rewrite (bind_done _ _ _ _ _ (await_ok _ r t)).
        destruct (ok r); simpl; [left; by eexists | right; by apply failed_sent].
    + left. exists None. unfold ret. by rewrite app_nil_r.
Qed.

(** Once the payload is at hand, the headers decide: when they are all
    accepted the write is started and the artifact sent; when one is refused
    the error is logged and answered, and no write is started. *)
Lemma deliver_payload env req id et nm r t buf :
  let ex := extract (contentType req) r in
  let ct := (normalize (pickedContent ex) r (contentType req)).1 in
  let ext := (normalize (pickedContent ex) r (contentType req)).2 in
  let file := id +:+ "_" +:+ Js.or_str (Some nm) et +:+ ext in
  fetchPayload env ex t = (Done (Some buf), t ++ fetchTrace ex) ->
  deliver env req id et nm r t
  = match refusedHeader (headers (missReply buf ct file)) with
    | Some (set, name) =>
        (Sent (caughtReply set (invalidHeaderMessage name)),
         (t ++ fetchTrace ex)
         ++ [ConsoleError "Error in download endpoint:" (invalidHeaderMessage name)])
    | None =>
        (Sent (missReply buf ct file),
         (t ++ fetchTrace ex)
         ++ storeTrace (bypassCache req) (id, et, exportNameContains req, Some ct)
              buf ct file)
    end.
Proof.
  intros ex ct ext file Hf. unfold deliver. fold ex.
  rewrite (bind_done _ _ _ _ _ Hf). subst file ct ext.
  destruct (normalize (pickedContent ex) r (contentType req)) as [ct ext].
  cbn [fst snd].
  destruct (refusedHeader _) as [[set name] |]; [done |].
  by rewrite (bind_done _ _ _ _ _ (storeInCache_run _ _ _ _ _ _)).
Qed.

Lemma deliver_cases env req id et nm r t :
  let ex := extract (contentType req) r in
  let ct := (normalize (pickedContent ex) r (contentType req)).1 in
  let ext := (normalize (pickedContent ex) r (contentType req)).2 in
  let file := id +:+ "_" +:+ Js.or_str (Some nm) et +:+ ext in
  (exists buf,
     headersAccepted ct file
     /\ deliver env req id et nm r t
        = (Sent (missReply buf ct file),
           (t ++ fetchTrace ex)
           ++ storeTrace (bypassCache req)
                (id, et, exportNameContains req, Some ct) buf ct file))
  \/ failed (deliver env req id et nm r t).
Proof.
  intros ex ct ext file.
  destruct (fetchPayload_cases env ex t) as [[o Ho] | Hfail].
  - destruct o as [buf |].
    + rewrite (deliver_payload env req id et nm r t buf Ho).
      fold ex ct ext file. rewrite refused_miss. unfold headersAccepted.
      destruct (validHeaderValue ct);
        [destruct (validHeaderValue _) |];
        [left; by exists buf | right; by apply failed_sent ..].
    + right. unfold deliver. fold ex. rewrite (bind_done _ _ _ _ _ Ho).
      by apply failed_sent.
  - right. unfold deliver. fold ex.
    destruct Hfail as [(r' & H & Hst) | (msg & H)];
      destruct (fetchPayload env ex t) as [o t'] eqn:E; simpl in H; subst o.
    + rewrite (bind_sent _ _ _ _ _ E). by apply failed_sent.
    + rewrite (bind_thrown _ _ _ _ _ E). apply failed_thrown.
Qed.

Lemma failed_bind {A B} (m : Handler A) (k : A -> Handler B) t :
  failed (m t) -> failed (bind m k t).
Proof.
  intros [(r & H & Hst) | (msg & H)];
    destruct (m t) as [o t'] eqn:E; simpl in H; subst o.
  - rewrite (bind_sent _ _ _ _ _ E). by apply failed_sent.
  - rewrite (bind_thrown _ _ _ _ _ E). apply failed_thrown.
Qed.

Lemma resolveExport_cases env req id sd t :
  (exists pid eid nm data r,
     parameters sd ≫= findModaJson = Some pid /\ pid <> EmptyString
     /\ selectExport (exportTypeOf req) (exportNameContains req)
          (default [] (exports sd)) = Some (eid, nm)
     /\ eid <> EmptyString
     /\ computeExports env (endpointOf req) (sessionId sd)
          (exportRequestFor id pid eid) = inr data
     /\ lookupExport data eid = Some r
     /\ resolveExport env req id (exportTypeOf req) (endpointOf req) sd t
        = deliver env req id (exportTypeOf req) nm r
            (t ++ [ComputeExports (endpointOf req) (sessionId sd)
                     (exportRequestFor id pid eid)]))
  \/ failed (resolveExport env req id (exportTypeOf req) (endpointOf req) sd t).
Proof.
  destruct (parameters sd ≫= findModaJson) as [pid |] eqn:Hp;
    [| right; unfold resolveExport; rewrite Hp; apply failed_thrown].
  destruct (decide (pid = EmptyString)) as [-> | Hpne];
    [right; unfold resolveExport; rewrite Hp; apply failed_thrown |].
  destruct (selectExport (exportTypeOf req) (exportNameContains req)
              (default [] (exports sd))) as [[eid nm] |] eqn:Hsel;
    [| right; rewrite (resolveExport_not_found env req id sd pid t Hp Hpne Hsel);
       by apply failed_sent].
  destruct (decide (eid = EmptyString)) as [-> | Hene].
  { right. unfold resolveExport.
    rewrite Hp, (truthy_Some _ Hpne), bind_selectExport, Hsel. by apply failed_sent. }
  rewrite (resolveExport_submits env req id sd pid eid nm t Hp Hpne Hsel Hene).
  destruct (computeExports env (endpointOf req) (sessionId sd)
              (exportRequestFor id pid eid)) as [msg | data] eqn:Hc.
  { right. rewrite (bind_thrown _ _ _ _ _ (await_thrown _ msg t)).
    apply failed_thrown. }
  rewrite (bind_done _ _ _ _ _ (await_ok _ data t)).
  destruct (lookupExport data eid) as [r |] eqn:Hr;
    [| right; by apply failed_sent].
  left. by exists pid, eid, nm, data, r.
Qed.

Lemma downloadBody_cases env req :
  (exists id sd, ReachesSession env req id sd
     /\ downloadBody env req []
        = resolveExport env req id (exportTypeOf req) (endpointOf req) sd
            (sessionTrace req id))
  \/ (exists id cached buf,
        designId req = Some id /\ id <> EmptyString /\ bypassCache req = false
        /\ getCachedExport env (probeKey req id) = inr cached
        /\ hit cached = true /\ buffer cached = Some buf)
  \/ failed (downloadBody env req []).
Proof.
  destruct (designId req) as [id |] eqn:Hd;
    [| right; right; unfold downloadBody; rewrite Hd; by apply failed_sent].
  destruct (decide (id = EmptyString)) as [-> | Hne];
    [right; right; unfold downloadBody; rewrite Hd; by apply failed_sent |].
  assert (cacheMisses env req id
          \/ (exists cached buf, bypassCache req = false
                /\ getCachedExport env (probeKey req id) = inr cached
                /\ hit cached = true /\ buffer cached = Some buf)
          \/ (exists msg, bypassCache req = false
                /\ getCachedExport env (probeKey req id) = inl msg))
    as [Hmiss | [(cached & buf & Hb & Hg & Hh & Hbuf) | (msg & Hb & Hg)]].
  { unfold cacheMisses. destruct (bypassCache req); [by left; left |].
    destruct (getCachedExport env (probeKey req id)) as [msg | cached] eqn:Hg;
      [right; right; by exists msg |].
    destruct (hit cached) eqn:Hh; [| left; right; exists cached; by auto].
    destruct (buffer cached) as [buf |] eqn:Hbuf;
      [right; left; by exists cached, buf | left; right; exists cached; by auto]. }
  - destruct (createSessionByTicket env (endpointOf req) DOWNLOAD_TICKET)
      as [msg | sd] eqn:Hs.
    + right; right. unfold downloadBody.
      rewrite Hd, (truthy_Some _ Hne). simpl.
      rewrite (bind_done _ _ _ _ _ (probeCache_miss env req id [] Hmiss)).
      apply failed_bind. unfold openSession, try_catch. fold (endpointOf req).
      rewrite Hs. apply failed_thrown.
    + left. exists id, sd. split; [by constructor |].
      by apply downloadBody_session.
  - right; left. by exists id, cached, buf.
  - right; right. unfold downloadBody.
    rewrite Hd, (truthy_Some _ Hne), Hb. simpl.
    apply failed_bind. unfold probeCache. apply failed_bind.
    fold (exportTypeOf req). fold (probeKey req id). rewrite Hg.
    apply failed_thrown.
Qed.

(** The handler never reads the outcome of the cache write: up to its
    response it is the same handler whatever that outcome. *)
Lemma handleDownload_put env put req :
  handleDownload (withPut env put) req = handleDownload env req.
Proof. reflexivity. Qed.

Lemma put_does_not_change_response env put req :
  fst (postDownload (withPut env put) req) = fst (postDownload env req).
Proof. by rewrite !postDownload_response, handleDownload_put. Qed.

Lemma hit_not_fresh cached buf : ~ isFresh (hitReply cached buf).
Proof.
  unfold isFresh, hitReply. simpl. intros [_ [H | [H | H]]]; [done.. |].
  destruct (Js.truthy (filename cached)); simpl in H;
    repeat (destruct H as [H | H]; [done |]); done.
Qed.

Lemma failed_not_fresh env req :
  failed (downloadBody env req []) -> ~ isFresh (fst (handleDownload env req)).
Proof.
  unfold handleDownload, isFresh.
  intros [(r & H & Hst) | (msg & H)];
    destruct (downloadBody env req []) as [o t]; simpl in H; subst o;
    simpl; by intros [].
Qed.

(** A fresh artifact is only ever sent at the end of the whole pipeline,
    once its headers have been accepted; up to the response the trace of
    such a request is the probe, the session, the computation, the fetch if
    any, and the cache write if the cache is not bypassed. *)
Lemma fresh_reply_inv env req r t :
  handleDownload env req = (r, t) -> isFresh r ->
  exists id sd pid eid nm data res buf,
    ReachesDiscovery env req id sd pid
    /\ selectExport (exportTypeOf req) (exportNameContains req)
         (default [] (exports sd)) = Some (eid, nm)
    /\ eid <> EmptyString
    /\ computeExports env (endpointOf req) (sessionId sd)
         (exportRequestFor id pid eid) = inr data
    /\ lookupExport data eid = Some res
    /\ let ex := extract (contentType req) res in
       let ct := (normalize (pickedContent ex) res (contentType req)).1 in
       let ext := (normalize (pickedContent ex) res (contentType req)).2 in
       let file := id +:+ "_" +:+ Js.or_str (Some nm) (exportTypeOf req) +:+ ext in
       headersAccepted ct file
       /\ r = missReply buf ct file
       /\ t = ((sessionTrace req id
                ++ [ComputeExports (endpointOf req) (sessionId sd)
                      (exportRequestFor id pid eid)])
               ++ fetchTrace ex)
              ++ storeTrace (bypassCache req) (storeKey req id ct) buf ct file.
Proof.
  intros Hpost Hfresh.
  destruct (downloadBody_cases env req)
    as [(id & sd & [Hd Hne Hmiss Hs] & Hbody)
       | [(id & cached & buf & Hd & Hne & Hb & Hg & Hh & Hbuf) | Hfail]].
  - destruct (resolveExport_cases env req id sd (sessionTrace req id))
      as [(pid & eid & nm & data & res & Hp & Hpne & Hsel & Hene & Hc & Hres & Hrun)
         | Hfail].
    + destruct (deliver_cases env req id (exportTypeOf req) nm res
                  (sessionTrace req id
                   ++ [ComputeExports (endpointOf req) (sessionId sd)
                         (exportRequestFor id pid eid)]))
        as [(buf & Hacc & Hdel) | Hfail].
      * exists id, sd, pid, eid, nm, data, res, buf.
        split; [by constructor |]. do 4 (split; [done |]).
        unfold handleDownload in Hpost. rewrite Hbody, Hrun, Hdel in Hpost.
        injection Hpost as <- <-. by split.
      * rewrite <- Hrun, <- Hbody in Hfail.
        apply failed_not_fresh in Hfail. by rewrite Hpost in Hfail.
    + rewrite <- Hbody in Hfail.
      apply failed_not_fresh in Hfail. by rewrite Hpost in Hfail.
  - rewrite (cache_hit_reply env req id cached buf Hd Hne Hb Hg Hh Hbuf) in Hpost.
    injection Hpost as <- <-. by apply hit_not_fresh in Hfresh.
  - apply failed_not_fresh in Hfail. by rewrite Hpost in Hfail.
Qed.

(** C5 (as amended).  For every request with [bypassCache = false] that is
    answered with a freshly computed artifact, exactly one cache write is
    started, as the last thing before the response is sent; it stores the
    bytes, content type and file name of the response under the request's
    designId, export type and name filter together with the normalized
    content type of the response.  The write is not awaited: up to the
    response the handler does the same whatever the outcome of the write,
    and a rejected write only adds a warning to the log, after the
    response. *)
Theorem C5_cache_write (env : Env) (req : DownloadRequest) (r : Response)
    (t : list Event) :
  bypassCache req = false ->
  postDownload env req = (r, t) ->
  status r = 200 ->
  In ("X-Cache", "MISS") (headers r) ->
  exists id buf ct file before,
    designId req = Some id
    /\ r = missReply buf ct file
    /\ let key := (id, default "download" (exportType req),
                   exportNameContains req, Some ct) in
       handleDownload env req = (r, before ++ [CachePut key buf ct file])
       /\ Forall (fun e => is_cache_put e = false) before
       /\ (forall put, handleDownload (withPut env put) req = handleDownload env req)
       /\ t = (before ++ [CachePut key buf ct file])
              ++ match putCachedExport env key buf ct file with
                 | Some msg => [ConsoleWarn "⚠️ Cache store failed:" msg]
                 | None => []
                 end
       /\ forall put, fst (postDownload (withPut env put) req) = r.
Proof.
  intros Hb Hpost Hst Hmiss.
  destruct (handleDownload env req) as [r0 t0] eqn:Hrun.
  assert (r0 = r) as -> by (unfold postDownload in Hpost; rewrite Hrun in Hpost; congruence).
  destruct (fresh_reply_inv env req r t0 Hrun (conj Hst Hmiss))
    as (id & sd & pid & eid & nm & data & res & buf & [Hd _ _ _ _ _] & _ & _ & _ & _
        & _ & Hr & Ht).
  set (ex := extract (contentType req) res) in *.
  set (ct := (normalize (pickedContent ex) res (contentType req)).1) in *.
  set (file := id +:+ "_" +:+ _) in *.
  unfold storeTrace in Ht. rewrite Hb in Ht.
  set (before := (sessionTrace req id ++ _) ++ fetchTrace ex) in Ht.
  assert (Forall (fun e => is_cache_put e = false) before) as Hquiet.
  { subst before. apply Forall_app. split.
    - apply (quiet_computeTrace req id sd pid eid).
    - unfold fetchTrace. destruct (fileBuffer ex); [constructor |].
      destruct (Js.truthy (downloadUrl ex)); by repeat constructor. }
  exists id, buf, ct, file, before. split; [done |]. split; [done |].
  unfold storeKey, exportTypeOf in Ht. simpl.
  split; [by rewrite Ht |]. split; [done |].
  split; [intros put; by rewrite handleDownload_put |]. split.
  - unfold postDownload in Hpost. rewrite Hrun in Hpost.
    injection Hpost as <-. rewrite Ht, flat_map_app, (settled_quiet env _ Hquiet).
    simpl. by rewrite app_nil_r.
  - intros put. rewrite put_does_not_change_response, postDownload_response.
    by rewrite Hrun.
Qed.

(** ** Repeating a request against the cache *)

Lemma settle_app store t1 t2 : settle store (t1 ++ t2) = settle (settle store t1) t2.
Proof. unfold settle. apply fold_left_app. Qed.

(** Against the cache of the model every write completes: nothing is
    logged after the response. *)
Lemma postDownload_envOf remote store req :
  postDownload (envOf remote store) req = handleDownload (envOf remote store) req.
Proof.
  unfold postDownload. destruct (handleDownload _ req) as [r t].
  assert (flat_map (settled (envOf remote store)) t = []) as ->.
  { induction t as [| e t IH]; simpl; [done |]. rewrite IH. by destruct e. }
  by rewrite app_nil_r.
Qed.

(** After a fresh answer with [bypassCache = false], the cache holds the
    artifact under the store key, and nothing else has changed. *)
Lemma serve_fresh_store remote store req r t store' :
  bypassCache req = false ->
  serve remote store req = (r, t, store') -> isFresh r ->
  exists id buf ct file,
    designId req = Some id /\ id <> EmptyString
    /\ r = missReply buf ct file
    /\ store' = cachePut store (storeKey req id ct) buf ct file.
Proof.
  intros Hb Hserve Hfresh. unfold serve in Hserve.
  destruct (postDownload (envOf remote store) req) as [r0 t0] eqn:Hpost.
  injection Hserve as -> -> <-. rewrite postDownload_envOf in Hpost.
  destruct (fresh_reply_inv _ req r t Hpost Hfresh)
    as (id & sd & pid & eid & nm & data & res & buf & [Hd Hne _ _ _ _] & _ & _ & _ & _
        & _ & Hr & Ht).
  set (ex := extract (contentType req) res) in *.
  set (ct := (normalize (pickedContent ex) res (contentType req)).1) in *.
  set (file := id +:+ "_" +:+ _) in *.
  exists id, buf, ct, file. do 3 (split; [done |]).
  rewrite Ht, Hb, !settle_app. unfold sessionTrace, probeTrace, fetchTrace.
  rewrite Hb. simpl.
  destruct (fileBuffer ex); [done |].
  by destruct (Js.truthy (downloadUrl ex)).
Qed.

(** C4 (as amended).  Against a cache that returns an entry exactly under
    the criteria tuple it was stored with: when a request with
    [bypassCache = false] is answered with status 200 by a fresh computation
    whose write completes, and the preferred content type of the request is the
    normalized content type of that answer, the same request repeated is
    served from the cache, with the same bytes, under [X-Cache: HIT], and
    makes no call besides the probe. *)
Theorem C4_repeated_request_hits (remote : Remote) (store store' : gmap CacheKey Artifact)
    (req : DownloadRequest) (r : Response) (t : list Event) :
  bypassCache req = false ->
  serve remote store req = (r, t, store') ->
  status r = 200 ->
  In ("X-Cache", "MISS") (headers r) ->
  (exists ct, contentType req = Some ct /\ In ("Content-Type", ct) (headers r)) ->
  exists id r2,
    designId req = Some id
    /\ serve remote store' req
       = (r2, [CacheGet (id, default "download" (exportType req),
                         exportNameContains req, contentType req)], store')
    /\ In ("X-Cache", "HIT") (headers r2)
    /\ body r2 = body r.
Proof.
  intros Hb Hserve Hst Hmiss (ct0 & Hct0 & Hin).
  destruct (serve_fresh_store remote store req r t store' Hb Hserve (conj Hst Hmiss))
    as (id & buf & ct & file & Hd & Hne & -> & ->).
  assert (ct0 = ct) as ->.
  { simpl in Hin. destruct Hin as [H | [H | [H | [H | []]]]]; congruence. }
  assert (probeKey req id = storeKey req id ct) as Hkey.
  { unfold probeKey, storeKey. by rewrite Hct0. }
  eexists id, _. split; [done |]. unfold serve. rewrite postDownload_envOf.
  erewrite (cache_hit_reply (envOf remote _) req id _ buf Hd Hne Hb);
    [| simpl; unfold cacheGet, cachePut; rewrite Hkey, lookup_insert_eq; reflexivity
     | reflexivity | reflexivity].
  split; [reflexivity |]. split; [by left | reflexivity].
Qed.


(** Otherwise the write lands on another key than the one probed: the entry
    seen by the repeated request is the one that was there before. *)
Lemma repeat_probe_unchanged remote store req r t store' :
  bypassCache req = false ->
  serve remote store req = (r, t, store') -> isFresh r ->
  (forall ct, In ("Content-Type", ct) (headers r) -> contentType req <> Some ct) ->
  exists id, designId req = Some id
    /\ store' !! probeKey req id = store !! probeKey req id.
Proof.
  intros Hb Hserve Hfresh Hdiff.
  destruct (serve_fresh_store remote store req r t store' Hb Hserve Hfresh)
    as (id & buf & ct & file & Hd & Hne & -> & ->).
  exists id. split; [done |]. unfold cachePut.
  apply lookup_insert_ne. unfold probeKey, storeKey. intros Heq.
  apply (Hdiff ct); [simpl; by auto | congruence].
Qed.


(** ** Decimal numerals *)

Lemma digit_val_char d :
  (d < 10)%N -> ParseInt.digit_val 10 (pretty_N_char d) = Some (Z.of_N d).
Proof.
  intros Hd.
  assert (d = 0 \/ d = 1 \/ d = 2 \/ d = 3 \/ d = 4 \/ d = 5 \/ d = 6 \/ d = 7
          \/ d = 8 \/ d = 9)%N as H by lia.
  repeat (destruct H as [-> | H]; [reflexivity |]). by subst d.
Qed.

Lemma digits_pretty_go x : forall s acc,
  (0 < x)%N ->
  exists k : nat,
    ParseInt.digits 10 acc (pretty_N_go x s)
    = ParseInt.digits 10 (Some (default 0 acc * 10 ^ Z.of_nat k + Z.of_N x)) s.
Proof.
  induction (N.lt_wf_0 x) as [x _ IH]. intros s acc Hx.
  rewrite pretty_N_go_step by done.
  destruct (N.eq_0_gt_0_cases (x `div` 10)) as [Hq | Hq].
  - rewrite Hq, pretty_N_go_0. exists 1%nat. simpl.
    rewrite digit_val_char by (apply N.mod_lt; lia).
    do 2 f_equal. pose proof (N.div_mod x 10). lia.
  - destruct (IH (x `div` 10)%N (N.div_lt x 10 Hx eq_refl)
                (String (pretty_N_char (x `mod` 10)) s) acc Hq) as [k Hk].
    exists (S k). rewrite Hk. simpl.
    rewrite digit_val_char by (apply N.mod_lt; lia).
    do 2 f_equal. rewrite Nat2Z.inj_succ, Z.pow_succ_r by lia.
    pose proof (N.div_mod x 10). lia.
Qed.

(** The numeral of a positive number starts with a digit from 1 to 9. *)
Lemma pretty_go_head x : forall s,
  (0 < x)%N ->
  exists d rest, (0 < d < 10)%N /\ pretty_N_go x s = String (pretty_N_char d) rest.
Proof.
  induction (N.lt_wf_0 x) as [x _ IH]. intros s Hx.
  rewrite pretty_N_go_step by done.
  destruct (N.eq_0_gt_0_cases (x `div` 10)) as [Hq | Hq].
  - rewrite Hq, pretty_N_go_0. exists (x `mod` 10)%N, s. split; [| done].
    pose proof (N.div_mod x 10). pose proof (N.mod_lt x 10). lia.
  - apply IH; [by apply N.div_lt | done].
Qed.

Lemma parseInt_digits_only s d rest :
  (0 < d < 10)%N -> s = String (pretty_N_char d) rest ->
  ParseInt.parseInt s = ParseInt.digits 10 None s
  /\ ParseInt.parseInt (String "-" s) = Z.opp <$> ParseInt.digits 10 None s.
Proof.
  intros Hd ->.
  assert (d = 1 \/ d = 2 \/ d = 3 \/ d = 4 \/ d = 5 \/ d = 6 \/ d = 7
          \/ d = 8 \/ d = 9)%N as H by lia.
  assert (forall o : option Z, (fun v => 1 * v) <$> o = o) as H1.
  { intros [v |]; simpl; [f_equal; lia | done]. }
  assert (forall o : option Z, (fun v => -1 * v) <$> o = Z.opp <$> o) as H2.
  { intros [v |]; simpl; [f_equal; lia | done]. }
  repeat (destruct H as [-> | H]; [split; [apply H1 | apply H2] |]).
  subst d. split; [apply H1 | apply H2].
Qed.

(** [parseInt] reads the decimal numeral of an integer as that integer. *)
Lemma parseInt_pretty (z : Z) : ParseInt.parseInt (pretty z) = Some z.
Proof.
  assert (forall p : positive,
            ParseInt.parseInt (pretty p) = Some (Z.pos p)
            /\ ParseInt.parseInt (String "-" (pretty p)) = Some (Z.neg p)) as Hpos.
  { intros p. unfold pretty, pretty_positive, pretty, pretty_N.
    rewrite decide_False by done.
    destruct (pretty_go_head (N.pos p) EmptyString) as (d & rest & Hd & Hs); [lia |].
    destruct (parseInt_digits_only _ d rest Hd Hs) as [-> ->].
    destruct (digits_pretty_go (N.pos p) EmptyString None) as [k ->]; [lia |].
    simpl. split; f_equal; lia. }
  destruct z as [| p | p]; [reflexivity | apply Hpos | apply Hpos].
Qed.






(** ** Version resolution *)

#[global] Instance newerFirst_trans : Transitive newerFirst.
Proof. unfold newerFirst. intros a b c. lia. Qed.

#[global] Instance newerFirst_total : Total newerFirst.
Proof. unfold newerFirst. intros a b. lia. Qed.


Lemma versions_sorted coll n :
  StronglySorted newerFirst
    (merge_sort newerFirst (filter (fun d => name d = n) coll)).
Proof. apply (StronglySorted_merge_sort newerFirst). Qed.

Lemma versions_nonempty coll n :
  (exists d, d ∈ coll /\ name d = n) ->
  length (merge_sort newerFirst (filter (fun d => name d = n) coll)) <> 0%nat.
Proof.
  intros (d & Hin & Hn).
  rewrite (Permutation_length (merge_sort_Permutation newerFirst _)).
  assert (d ∈ filter (fun d => name d = n) coll) as H
    by (apply list_elem_of_filter; by split).
  destruct (filter _ coll); [by apply elem_of_nil in H | done].
Qed.


(** ** Every request follows the pipeline *)

Lemma runs_ret {A} lo hi P Q (D : A -> Prop) a : D a -> runs lo hi P Q D (ret a).
Proof.
  intros Ha t. exists (Done a), []. rewrite app_nil_r.
  repeat split; try done; constructor.
Qed.

Lemma runs_send {A} lo hi P (Q : Response -> Prop) (D : A -> Prop) r :
  Q r -> runs lo hi P Q D (send r).
Proof.
  intros Hr t. exists (Sent r), []. rewrite app_nil_r.
  repeat split; try done; constructor.
Qed.

Lemma runs_throw {A} lo hi P Q (D : A -> Prop) msg : runs lo hi P Q D (throw msg).
Proof.
  intros t. exists (Thrown msg), []. rewrite app_nil_r.
  repeat split; try done; constructor.
Qed.

Lemma runs_emit lo hi (P : Event -> Prop) Q e :
  P e -> (forall p, phase e = Some p -> (lo <= p < hi)%nat) ->
  runs lo hi P Q (fun _ : unit => True) (emit e).
Proof.
  intros He Hp t. exists (Done tt), [e]. split; [done |].
  split; [by repeat constructor |].
  unfold calls. simpl. destruct (phase e) as [p |] eqn:E; simpl.
  - repeat split; repeat constructor; apply (Hp p eq_refl).
  - repeat split; constructor.
Qed.

Lemma runs_bind {A B} lo mid hi P Q (D1 : A -> Prop) (D : B -> Prop)
    (m : Handler A) (k : A -> Handler B) :
  (lo <= mid <= hi)%nat ->
  runs lo mid P Q D1 m -> (forall a, D1 a -> runs mid hi P Q D (k a)) ->
  runs lo hi P Q D (bind m k).
Proof.
  intros Hb Hm Hk t. destruct (Hm t) as (o & t1 & Hrun & HP1 & Hs1 & Hr1 & Ho).
  unfold bind. rewrite Hrun.
  assert (Forall (fun p => lo <= p < hi)%nat (calls t1)) as Hr1'.
  { eapply Forall_impl; [exact Hr1 |]. intros x; simpl; lia. }
  destruct o as [a | r | e]; [| by exists (Sent r), t1 | by exists (Thrown e), t1].
  destruct (Hk a Ho (t ++ t1)) as (o2 & t2 & Hrun2 & HP2 & Hs2 & Hr2 & Ho2).
  exists o2, (t1 ++ t2). rewrite Hrun2, app_assoc. split; [done |].
  split; [by apply Forall_app |].
  unfold calls in *. rewrite omap_app. split; [| split; [| done]].
  - apply StronglySorted_app. split; [| done].
    intros x1 x2 H1 H2. rewrite Forall_forall in Hr1, Hr2.
    specialize (Hr1 x1 H1). specialize (Hr2 x2 H2). lia.
  - apply Forall_app. split; [done |].
    eapply Forall_impl; [exact Hr2 |]. intros x; simpl; lia.
Qed.

Lemma runs_await {A} lo hi (P : Event -> Prop) Q e (r : string + A) :
  (lo <= hi)%nat -> P e -> (forall p, phase e = Some p -> (lo <= p < hi)%nat) ->
  runs lo hi P Q (fun _ : A => True) (await e r).
Proof.
  intros Hle He Hp. unfold await.
  apply (runs_bind lo hi hi P Q (fun _ => True)); [lia | by apply runs_emit |].
  intros _ _. destruct r; [apply runs_throw | by apply runs_ret].
Qed.

Lemma or_str_nonempty o d : d <> EmptyString -> Js.or_str o d <> EmptyString.
Proof.
  intros Hd. unfold Js.or_str. destruct o as [s |]; [| done].
  by case_bool_decide.
Qed.

(** The normalized content type is never empty. *)
Lemma normalize_nonempty picked r contentType :
  (normalize picked r contentType).1 <> EmptyString.
Proof.
  assert (forall f, resolvedContentType f picked contentType <> EmptyString) as Hres.
  { intros f. unfold resolvedContentType.
    repeat case_bool_decide; try done. by apply or_str_nonempty. }
  unfold normalize, normalizeContentType. simpl.
  destruct (bool_decide _ && ObjPattern.test _); [done | apply Hres].
Qed.

Lemma wellFormed_hit cached buf : wellFormed (hitReply cached buf).
Proof.
  unfold wellFormed, hitReply. simpl. split; [done |]. split; [by left |].
  split; [eexists; split; [done | by apply or_str_nonempty] |].
  right; right. apply in_or_app. right. by left.
Qed.

Lemma wellFormed_miss buf ct file : ct <> EmptyString -> wellFormed (missReply buf ct file).
Proof.
  intros Hct. unfold wellFormed, missReply. simpl. split; [done |].
  split; [by right |]. split; [by exists ct |]. do 3 right. by left.
Qed.

Lemma wellFormed_error code e m :
  In code [400; 404; 500; 502; 503] -> wellFormed (errorReply code e m).
Proof.
  intros Hc. unfold wellFormed. simpl. split; [done |]. split; [by left |].
  by exists e, m.
Qed.

Lemma wellFormed_caught set msg :
  set !! 0%nat = Some ("X-Cache", "MISS") -> wellFormed (caughtReply set msg).
Proof.
  intros Hset. unfold wellFormed, caughtReply. simpl.
  split; [tauto |]. split; [by right |]. by eexists _, _.
Qed.

Lemma settled_warns env t :
  Forall (fun e => is_cache_event e = false /\ phase e = None)
    (flat_map (settled env) t).
Proof.
  induction t as [| e t IH]; simpl; [constructor |].
  apply Forall_app. split; [| done].
  destruct e; simpl; try constructor.
  destruct (putCachedExport env _ _ _ _); by repeat constructor.
Qed.

Lemma calls_settled env t : calls (flat_map (settled env) t) = [].
Proof.
  pose proof (settled_warns env t) as H. unfold calls.
  induction H as [| e l [_ He] _ IH]; simpl; [done |]. by rewrite He.
Qed.

Section Discipline.
Context (env : Env) (req : DownloadRequest) (P : Event -> Prop).
Hypothesis P_other : forall e, is_cache_event e = false -> P e.
Hypothesis P_cache : bypassCache req = false -> forall e, P e.

Lemma runs_probeCache key :
  runs 0 1 P wellFormed (fun _ : unit => True)
    (probeCache env (bypassCache req) key).
Proof.
  unfold probeCache. destruct (bypassCache req) eqn:Hb; [by apply runs_ret |].
  apply (runs_bind 0 1 1 P wellFormed (fun _ => True)); [lia | |].
  - apply runs_await; [lia | by apply P_cache |]. intros p [= <-]. lia.
  - intros cached _. destruct (hit cached); [| by apply runs_ret].
    destruct (buffer cached); [| by apply runs_ret].
    apply runs_send, wellFormed_hit.
Qed.

Lemma runs_openSession endpoint :
  runs 1 2 P wellFormed (fun _ : SessionData => True) (openSession env endpoint).
Proof.
  intros t. unfold openSession, try_catch, await, bind, emit.
  destruct (createSessionByTicket env endpoint DOWNLOAD_TICKET) as [msg | sd]; simpl.
  - eexists _, [_; _]. rewrite <- app_assoc. split; [reflexivity |].
    split; [repeat constructor; by apply P_other |].
    repeat split; repeat constructor; lia.
  - eexists _, [_]. split; [reflexivity |].
    split; [repeat constructor; by apply P_other |].
    repeat split; repeat constructor; lia.
Qed.

Lemma runs_fetchPayload ex :
  runs 3 4 P wellFormed (fun _ : option Buffer => True) (fetchPayload env ex).
Proof.
  unfold fetchPayload. destruct (fileBuffer ex); [by apply runs_ret |].
  destruct (Js.truthy (downloadUrl ex)); [| by apply runs_ret].
  apply (runs_bind 3 4 4 P wellFormed (fun _ => True)); [lia | |].
  - apply runs_await; [lia | by apply P_other |]. intros p [= <-]. lia.
  - intros r _. destruct (negb (ok r)); [| by apply runs_ret].
    apply runs_send, wellFormed_error. simpl. tauto.
Qed.

Lemma runs_storeInCache key buf ct file :
  runs 4 5 P wellFormed (fun _ : unit => True)
    (storeInCache (bypassCache req) key buf ct file).
Proof.
  unfold storeInCache. destruct (bypassCache req) eqn:Hb; [by apply runs_ret |].
  apply runs_emit; [by apply P_cache |]. intros p [= <-]. lia.
Qed.

Lemma runs_deliver id et nm r :
  runs 3 5 P wellFormed (fun _ : Response => False) (deliver env req id et nm r).
Proof.
  unfold deliver.
  apply (runs_bind 3 4 5 P wellFormed (fun _ => True));
    [lia | apply runs_fetchPayload |].
  intros [buf |] _; [| apply runs_send, wellFormed_error; simpl; tauto].
  pose proof (normalize_nonempty
                (pickedContent (extract (contentType req) r)) r (contentType req)) as Hne.
  destruct (normalize _ r (contentType req)) as [ct ext].
  destruct (refusedHeader _) as [[set name] |] eqn:Href.
  - assert (set !! 0%nat = Some ("X-Cache", "MISS")) as Hset.
    { rewrite refused_miss in Href.
      destruct (validHeaderValue ct); [destruct (validHeaderValue _) |];
        by inversion Href. }
    apply (runs_bind 4 5 5 P wellFormed (fun _ => True)); [lia | |].
    + apply runs_emit; [by apply P_other | done].
    + intros _ _. by apply runs_send, wellFormed_caught.
  - apply (runs_bind 4 5 5 P wellFormed (fun _ => True));
      [lia | apply runs_storeInCache |].
    intros _ _. by apply runs_send, wellFormed_miss.
Qed.

Lemma runs_resolveExport id et endpoint sd :
  runs 2 5 P wellFormed (fun _ : Response => False)
    (resolveExport env req id et endpoint sd).
Proof.
  unfold resolveExport.
  destruct (negb (Js.truthy (parameters sd ≫= findModaJson))); [apply runs_throw |].
  destruct (negb (Js.truthy (fst <$> _)));
    [apply runs_send, wellFormed_error; simpl; tauto |].
  apply (runs_bind 2 3 5 P wellFormed (fun _ => True)); [lia | |].
  - apply runs_await; [lia | by apply P_other |]. intros p [= <-]. lia.
  - intros data _. destruct (lookupExport data _);
      [apply runs_deliver | apply runs_send, wellFormed_error; simpl; tauto].
Qed.

Lemma runs_downloadBody :
  runs 0 5 P wellFormed (fun _ : Response => False) (downloadBody env req).
Proof.
  unfold downloadBody.
  destruct (negb (Js.truthy (designId req)));
    [apply runs_send, wellFormed_error; simpl; tauto |].
  apply (runs_bind 0 1 5 P wellFormed (fun _ => True));
    [lia | apply runs_probeCache |].
  intros _ _.
  apply (runs_bind 1 2 5 P wellFormed (fun _ => True));
    [lia | apply runs_openSession |].
  intros sd _. apply runs_resolveExport.
Qed.

(** The response and the trace of any request. *)
Lemma postDownload_discipline :
  wellFormed (fst (postDownload env req))
  /\ Forall P (snd (postDownload env req))
  /\ StronglySorted lt (calls (snd (postDownload env req))).
Proof.
  assert (wellFormed (fst (handleDownload env req))
          /\ Forall P (snd (handleDownload env req))
          /\ StronglySorted lt (calls (snd (handleDownload env req)))) as (Hw & HP & Hs).
  { destruct (runs_downloadBody []) as (o & t & Hrun & HP & Hs & _ & Ho).
    unfold handleDownload. rewrite Hrun. simpl.
    destruct o as [r | r | msg]; simpl; [done | done |].
    split; [apply wellFormed_error; simpl; tauto |].
    split; [apply Forall_app; split; [done | repeat constructor; by apply P_other] |].
    unfold calls. rewrite omap_app. simpl. by rewrite app_nil_r. }
  rewrite postDownload_response, postDownload_events. split; [done |]. split.
  - apply Forall_app. split; [done |].
    eapply Forall_impl; [apply settled_warns |]. intros e [He _]. by apply P_other.
  - unfold calls in *. by rewrite omap_app, (calls_settled env), app_nil_r.
Qed.
End Discipline.

(** X1.  Every response of the download endpoint, which stands behind the
    [requireMongo] middleware, has one of two shapes: status 200 with the
    bytes, [X-Cache] (HIT or MISS) as first header, a non-empty
    [Content-Type] and a [Content-Length] equal to the length of the body;
    or status 400, 404, 500, 502 or 503 with a JSON body [{error, message}].
    An error response carries no header set by the handler, except the 500
    answered after a header value was refused, which keeps the headers set
    before the refusal, [X-Cache: MISS] first. *)
Theorem download_response_shape (isMongoConnected : bool) (env : Env)
    (req : DownloadRequest) :
  wellFormed (fst (requireMongo isMongoConnected (postDownload env req))).
Proof.
  destruct isMongoConnected; simpl.
  - by destruct (postDownload_discipline env req (fun _ => True)) as [H _].
  - apply wellFormed_error. simpl. tauto.
Qed.

(** X2.  In the trace of any request the collaborator calls appear in the
    order cache probe, session creation, computation, fetch, cache write,
    and each at most once: their ranks are strictly increasing.  Nothing is
    retried. *)
Theorem download_calls_once_in_order (env : Env) (req : DownloadRequest) :
  StronglySorted lt (calls (snd (postDownload env req))).
Proof.
  by destruct (postDownload_discipline env req (fun _ => True)) as (_ & _ & H).
Qed.

(** X3.  With [bypassCache = true] the cache is neither probed nor written,
    whatever the outcome of the request. *)
Theorem bypass_never_touches_cache (env : Env) (req : DownloadRequest) :
  bypassCache req = true ->
  Forall (fun e => is_cache_event e = false) (snd (postDownload env req)).
Proof.
  intros Hb.
  destruct (postDownload_discipline env req (fun e => is_cache_event e = false))
    as (_ & H & _); [done | | done].
  intros Hf. congruence.
Qed.


Lemma handleDownload_sent env req r t :
  downloadBody env req [] = (Sent r, t) -> handleDownload env req = (r, t).
Proof. intros H. unfold handleDownload. by rewrite H. Qed.

Lemma handleDownload_thrown env req msg t :
  downloadBody env req [] = (Thrown msg, t) ->
  handleDownload env req
  = (errorReply 500 "Download error" (Js.or_str (Some msg) "Unknown error"),
     t ++ [ConsoleError "Error in download endpoint:" msg]).
Proof. intros H. unfold handleDownload. by rewrite H. Qed.

Lemma quiet_app (t1 t2 : list Event) :
  Forall (fun e => is_cache_put e = false) t1 ->
  Forall (fun e => is_cache_put e = false) t2 ->
  Forall (fun e => is_cache_put e = false) (t1 ++ t2).
Proof. intros H1 H2. by apply Forall_app. Qed.

Lemma findModaJson_first entries :
  match findModaJson entries with
  | Some pid =>
      exists l1 p l2, entries = l1 ++ (pid, p) :: l2
        /\ p_name p = Some "moda-json"
        /\ Forall (fun q => p_name q.2 <> Some "moda-json") l1
  | None => Forall (fun q => p_name q.2 <> Some "moda-json") entries
  end.
Proof.
  induction entries as [|[pid p] rest IH]; simpl; [constructor |].
  case_bool_decide as Hn.
  - exists [], p, rest. by repeat split.
  - destruct (findModaJson rest) as [pid' |].
    + destruct IH as (l1 & p' & l2 & -> & Hp & Hl1).
      exists ((pid, p) :: l1), p', l2. split; [done |]. split; [done |].
      by constructor.
    + by constructor.
Qed.

(** X4.  The input parameter is the first one, in iteration order, whose
    name is exactly [moda-json].  When the session declares none, the
    request ends with status 500 "Could not find moda-json input parameter"
    right after session creation, before any export is looked for and
    without any computation. *)
Theorem moda_json_required (env : Env) (req : DownloadRequest) (id : string)
    (sd : SessionData) :
  ReachesSession env req id sd ->
  match findModaJson (default [] (parameters sd)) with
  | Some pid =>
      exists l1 p l2, default [] (parameters sd) = l1 ++ (pid, p) :: l2
        /\ p_name p = Some "moda-json"
        /\ Forall (fun q => p_name q.2 <> Some "moda-json") l1
  | None =>
      postDownload env req
      = (errorReply 500 "Download error" "Could not find moda-json input parameter",
         sessionTrace req id
         ++ [ConsoleError "Error in download endpoint:"
               "Could not find moda-json input parameter"])
  end.
Proof.
  intros [Hd Hne Hmiss Hs].
  pose proof (findModaJson_first (default [] (parameters sd))) as H.
  destruct (findModaJson (default [] (parameters sd))) as [pid |] eqn:E; [done |].
  apply postDownload_quiet;
    [| apply quiet_app; [apply quiet_sessionTrace | by repeat constructor]].
  apply (handleDownload_thrown env req "Could not find moda-json input parameter").
  rewrite (downloadBody_session env req id sd Hd Hne Hmiss Hs).
  unfold resolveExport.
  assert (parameters sd ≫= findModaJson = None) as ->; [| done].
  destruct (parameters sd); [exact E | done].
Qed.


(** X5.  When the session cannot be created the request ends with status
    500; the message of the upstream error is wrapped as "Failed to create
    ShapeDiver session: ...", and nothing is computed, fetched or stored. *)
Theorem session_failure (env : Env) (req : DownloadRequest) (id msg : string) :
  designId req = Some id -> id <> EmptyString -> cacheMisses env req id ->
  createSessionByTicket env (endpointOf req) DOWNLOAD_TICKET = inl msg ->
  postDownload env req
  = (errorReply 500 "Download error" ("Failed to create ShapeDiver session: " +:+ msg),
     probeTrace req id
     ++ [CreateSession (endpointOf req) DOWNLOAD_TICKET;
         ConsoleError "Session creation failed:" msg;
         ConsoleError "Error in download endpoint:"
           ("Failed to create ShapeDiver session: " +:+ msg)]).
Proof.
  intros Hd Hne Hmiss Hs.
  apply postDownload_quiet;
    [| apply quiet_app; [apply quiet_probeTrace | by repeat constructor]].
  unfold handleDownload, downloadBody.
  rewrite Hd, (truthy_Some _ Hne). simpl.
  rewrite (bind_done _ _ _ _ _ (probeCache_miss env req id [] Hmiss)).
  unfold bind at 1. unfold openSession, try_catch, await, bind, emit.
  fold (endpointOf req). rewrite Hs. simpl. by rewrite <- !app_assoc.
Qed.


Lemma downloadBody_deliver env req id sd pid eid nm res :
  ReachesExtraction env req id sd pid eid nm res ->
  downloadBody env req []
  = deliver env req id (exportTypeOf req) nm res (computeTrace req id sd pid eid).
Proof.
  intros [[Hd Hne Hmiss Hs Hp Hpne] Hsel Hene (data & Hc & Hres)].
  rewrite (downloadBody_session env req id sd Hd Hne Hmiss Hs).
  rewrite (resolveExport_submits env req id sd pid eid nm _ Hp Hpne Hsel Hene).
  rewrite (bind_done _ _ _ _ _
             (eq_trans (f_equal (fun r => await _ r _) Hc) (await_ok _ _ _))).
  by rewrite Hres.
Qed.

(** X6.  When the computation call fails, the request ends with status 500
    and the message of the upstream error ("Unknown error" when it has
    none); nothing is fetched or stored, and the call is not repeated. *)
Theorem compute_failure (env : Env) (req : DownloadRequest) (id : string)
    (sd : SessionData) (pid eid nm msg : string) :
  ReachesDiscovery env req id sd pid ->
  selectExport (exportTypeOf req) (exportNameContains req) (default [] (exports sd))
  = Some (eid, nm) ->
  eid <> EmptyString ->
  computeExports env (endpointOf req) (sessionId sd) (exportRequestFor id pid eid)
  = inl msg ->
  postDownload env req
  = (errorReply 500 "Download error"
       (if bool_decide (msg = EmptyString) then "Unknown error" else msg),
     computeTrace req id sd pid eid
     ++ [ConsoleError "Error in download endpoint:" msg]).
Proof.
  intros [Hd Hne Hmiss Hs Hp Hpne] Hsel Hene Hc.
  apply postDownload_quiet;
    [| apply quiet_app; [apply quiet_computeTrace | by repeat constructor]].
  rewrite (handleDownload_thrown env req msg (computeTrace req id sd pid eid)); [done |].
  rewrite (downloadBody_session env req id sd Hd Hne Hmiss Hs).
  rewrite (resolveExport_submits env req id sd pid eid nm _ Hp Hpne Hsel Hene).
  by rewrite (bind_thrown _ _ _ _ _
                (eq_trans (f_equal (fun r => await _ r _) Hc) (await_thrown _ _ _))).
Qed.


(** X7.  When extraction found no inline payload but a URL, the URL is
    fetched once.  A non-success status ends the request with 502 "Download
    failed", quoting status and status text, and nothing is written to the
    cache.  On success the outcome depends on the content type and the file
    name as header values: when both are accepted, the body of the fetched
    response is the body of the answer, under status 200, and the handler
    starts at most the cache write before it answers; when one is refused,
    the request ends with status 500 "Download error" right after the fetch
    and nothing is written to the cache. *)
Theorem fetch_outcome (env : Env) (req : DownloadRequest) (id : string)
    (sd : SessionData) (pid eid nm url : string) (res : ExportResult)
    (resp : FetchResponse) :
  ReachesExtraction env req id sd pid eid nm res ->
  fileBuffer (extract (contentType req) res) = None ->
  downloadUrl (extract (contentType req) res) = Some url -> url <> EmptyString ->
  fetch env url = inr resp ->
  let ex := extract (contentType req) res in
  let ct := (normalize (pickedContent ex) res (contentType req)).1 in
  let ext := (normalize (pickedContent ex) res (contentType req)).2 in
  let file := id +:+ "_" +:+ Js.or_str (Some nm) (exportTypeOf req) +:+ ext in
  if ok resp then
    if validHeaderValue ct
       && validHeaderValue ("attachment; filename=" +:+ Js.quoted file)
    then
      handleDownload env req
      = (missReply (f_body resp) ct file,
         (computeTrace req id sd pid eid ++ [Fetch url])
         ++ storeTrace (bypassCache req) (storeKey req id ct) (f_body resp) ct file)
    else
      exists set msg,
        postDownload env req
        = (caughtReply set msg,
           (computeTrace req id sd pid eid ++ [Fetch url])
           ++ [ConsoleError "Error in download endpoint:" msg])
  else
    postDownload env req
    = (errorReply 502 "Download failed"
         ("Failed to download export: " +:+ pretty (f_status resp)
          +:+ " " +:+ statusText resp),
       computeTrace req id sd pid eid ++ [Fetch url]).
Proof.
  intros Hreach Hb Hu Hne Hf ex ct ext file.
  pose proof (fetchPayload_get env _ url resp (computeTrace req id sd pid eid)
                Hb Hu Hne Hf) as Hget.
  assert (Forall (fun e => is_cache_put e = false)
            (computeTrace req id sd pid eid ++ [Fetch url])) as Hq.
  { apply quiet_app; [apply quiet_computeTrace | by repeat constructor]. }
  assert (fetchTrace ex = [Fetch url]) as Htr.
  { unfold fetchTrace. fold ex in Hb, Hu. rewrite Hb, Hu. simpl.
    by rewrite (bool_decide_eq_false_2 _ Hne). }
  destruct (ok resp).
  - fold ex in Hget. rewrite <- Htr in Hget.
    pose proof (deliver_payload env req id (exportTypeOf req) nm res _ _ Hget) as Hd.
    fold ex ct ext file in Hd. rewrite refused_miss, Htr in Hd.
    destruct (validHeaderValue ct); simpl;
      [destruct (validHeaderValue _) |].
    + apply handleDownload_sent.
      by rewrite (downloadBody_deliver env req id sd pid eid nm res Hreach).
    + eexists _, _. apply postDownload_quiet;
        [| apply quiet_app; [exact Hq | by repeat constructor]].
      apply handleDownload_sent.
      by rewrite (downloadBody_deliver env req id sd pid eid nm res Hreach).
    + eexists _, _. apply postDownload_quiet;
        [| apply quiet_app; [exact Hq | by repeat constructor]].
      apply handleDownload_sent.
      by rewrite (downloadBody_deliver env req id sd pid eid nm res Hreach).
  - apply postDownload_quiet; [| exact Hq].
    apply handleDownload_sent.
    rewrite (downloadBody_deliver env req id sd pid eid nm res Hreach).
    unfold deliver. fold ex. by rewrite (bind_sent _ _ _ _ _ Hget).
Qed.


Lemma extract_inline contentType res :
  js_truthy (inlinePayload contentType res) = true ->
  downloadUrl (extract contentType res) = None
  /\ fileBuffer (extract contentType res)
     = match r_content res with
       | ContentArray _ => decodePicked (inlinePayload contentType res)
       | ContentValue _ => decodeDirect (inlinePayload contentType res)
       end.
Proof.
  unfold inlinePayload, extract. destruct (r_content res); intros ->; by split.
Qed.

(** X8.  An inline field ([data] or [content]) that is truthy takes
    precedence over every URL field, in both result shapes: no fetch is
    made.  When that field is of a type that does not decode (neither a
    string, an ArrayBuffer nor a Buffer) the request ends with 500 "No export
    content", even if the result carries a download URL.  When it decodes
    and the content type and the file name are accepted as header values,
    the decoded bytes are the body of the answer, under status 200; when one
    of the two is refused, the request ends with status 500 and nothing is
    written to the cache. *)
Theorem inline_precedence (env : Env) (req : DownloadRequest) (id : string)
    (sd : SessionData) (pid eid nm : string) (res : ExportResult) :
  ReachesExtraction env req id sd pid eid nm res ->
  js_truthy (inlinePayload (contentType req) res) = true ->
  let ex := extract (contentType req) res in
  let ct := (normalize (pickedContent ex) res (contentType req)).1 in
  let ext := (normalize (pickedContent ex) res (contentType req)).2 in
  let file := id +:+ "_" +:+ Js.or_str (Some nm) (exportTypeOf req) +:+ ext in
  Forall (fun e => is_fetch e = false) (snd (postDownload env req))
  /\ match inlinePayload (contentType req) res with
     | JOther _ | JUndefined =>
         fst (postDownload env req)
         = errorReply 500 "No export content" "No file content or URL returned by export"
     | _ =>
         if validHeaderValue ct
            && validHeaderValue ("attachment; filename=" +:+ Js.quoted file)
         then
           fst (postDownload env req) = missReply (default [] (fileBuffer ex)) ct file
         else
           status (fst (postDownload env req)) = 500
           /\ Forall (fun e => is_cache_put e = false) (snd (postDownload env req))
     end.
Proof.
  intros Hreach Htruthy ex ct ext file.
  destruct (extract_inline (contentType req) res Htruthy) as [Hu Hb].
  fold ex in Hu, Hb.
  assert (Forall (fun e => is_fetch e = false) (computeTrace req id sd pid eid)) as Hct.
  { unfold computeTrace, sessionTrace, probeTrace.
    destruct (bypassCache req); by repeat constructor. }
  assert (fetchTrace ex = []) as Htr.
  { unfold fetchTrace. rewrite Hu. by destruct (fileBuffer ex). }
  assert (forall t, Forall (fun e => is_fetch e = false) t ->
            Forall (fun e => is_fetch e = false) (t ++ flat_map (settled env) t))
    as Hsettle.
  { intros t Ht. apply Forall_app. split; [done |].
    eapply Forall_impl; [apply (settled_warns env) |].
    intros e [_ Hp]. by destruct e. }
  destruct (fileBuffer ex) as [buf |] eqn:Hfb.
  - assert (fetchPayload env ex (computeTrace req id sd pid eid)
            = (Done (Some buf), computeTrace req id sd pid eid ++ fetchTrace ex)) as Hget.
    { unfold fetchPayload. rewrite Hfb, Htr. unfold ret. by rewrite app_nil_r. }
    pose proof (deliver_payload env req id (exportTypeOf req) nm res _ _ Hget) as Hd.
    fold ex ct ext file in Hd. rewrite refused_miss, Htr, app_nil_r in Hd.
    rewrite <- (downloadBody_deliver env req id sd pid eid nm res Hreach) in Hd.
    assert (match inlinePayload (contentType req) res with
            | JOther _ | JUndefined => False
            | _ => True
            end) as Hdec.
    { destruct (r_content res), (inlinePayload (contentType req) res);
        unfold decodePicked, decodeDirect in Hb; try discriminate; done. }
    destruct (validHeaderValue ct); simpl;
      [destruct (validHeaderValue _) |];
      apply handleDownload_sent in Hd;
      rewrite postDownload_response, postDownload_events, Hd; simpl.
    + split.
      * apply Hsettle, Forall_app. split; [done |]. unfold storeTrace.
        destruct (bypassCache req); by repeat constructor.
      * by destruct (inlinePayload (contentType req) res).
    + split; [apply Hsettle, Forall_app; split; [done | by repeat constructor] |].
      rewrite settled_quiet, app_nil_r
        by (apply quiet_app; [apply quiet_computeTrace | by repeat constructor]).
      destruct (inlinePayload (contentType req) res); try done;
        (split; [done |]);
        (apply quiet_app; [apply quiet_computeTrace | by repeat constructor]).
    + split; [apply Hsettle, Forall_app; split; [done | by repeat constructor] |].
      rewrite settled_quiet, app_nil_r
        by (apply quiet_app; [apply quiet_computeTrace | by repeat constructor]).
      destruct (inlinePayload (contentType req) res); try done;
        (split; [done |]);
        (apply quiet_app; [apply quiet_computeTrace | by repeat constructor]).
  - assert (handleDownload env req
            = (errorReply 500 "No export content"
                 "No file content or URL returned by export",
               computeTrace req id sd pid eid)) as Hd.
    { apply handleDownload_sent.
      rewrite (downloadBody_deliver env req id sd pid eid nm res Hreach).
      unfold deliver, fetchPayload. fold ex. rewrite Hfb, Hu. simpl.
      by rewrite (bind_done _ _ _ _ _ (eq_refl : ret None _ = (Done None, _))). }
    rewrite (postDownload_quiet env req _ _ Hd (quiet_computeTrace _ _ _ _ _)). simpl.
    split; [done |].
    destruct (r_content res), (inlinePayload (contentType req) res) as [| s | | |];
      unfold decodePicked, decodeDirect in Hb; try discriminate; try done.
    by destruct (Js.startsWith s "data:").
Qed.

(** ** Versions: numerals, listing, upload *)

Lemma getVersion_served find n versions (v : nat) d :
  find n = inr versions -> versions !! v = Some d ->
  getVersion find n (pretty (Z.of_nat v))
  = json_reply 200
      (objSet "versionInfo" (versionInfo (Z.of_nat v) (length versions) d)
         (docFields d)).
Proof.
  intros Hf Hd. unfold getVersion. rewrite parseInt_pretty, Hf.
  assert ((Z.of_nat v <? 0) = false) as -> by (apply Z.ltb_ge; lia).
  pose proof (lookup_lt_Some _ _ _ Hd) as Hlt.
  rewrite bool_decide_eq_false_2 by lia.
  assert ((Z.of_nat (length versions) <=? Z.of_nat v) = false) as ->
    by (apply Z.leb_gt; lia).
  by rewrite Nat2Z.id, Hd.
Qed.

(** X10.  Version numbers written as decimal numerals address the sorted
    sequence: a negative numeral is answered with 400, the numeral of an
    index below the count with the document at that position, and the
    numeral of any larger number with 404. *)
Theorem version_by_numeral (coll : list Doc) (n : string) (z : Z) :
  (exists d, d ∈ coll /\ name d = n) ->
  let versions := merge_sort newerFirst (filter (fun d => name d = n) coll) in
  let reply := getVersion (findVersions coll) n (pretty z) in
  if z <? 0 then status reply = 400
  else
    match versions !! Z.to_nat z with
    | Some d =>
        reply = json_reply 200
                  (objSet "versionInfo" (versionInfo z (length versions) d)
                     (docFields d))
    | None => status reply = 404
    end.
Proof.
  intros Hex versions reply. subst reply.
  pose proof (versions_nonempty coll n Hex) as Hne. fold versions in Hne.
  destruct (z <? 0) eqn:Hz.
  - unfold getVersion. rewrite parseInt_pretty, Hz. reflexivity.
  - destruct (versions !! Z.to_nat z) as [d |] eqn:Hd.
    + rewrite <- (Z2Nat.id z) at 1 2 by lia.
      by apply (getVersion_served _ n versions).
    + unfold getVersion, findVersions. fold versions.
      rewrite parseInt_pretty, Hz, (bool_decide_eq_false_2 _ Hne).
      apply lookup_ge_None in Hd.
      by assert ((Z.of_nat (length versions) <=? z) = true) as ->
        by (apply Z.leb_le; lia).
Qed.


(** X11.  The list endpoint and the lookup endpoint each run their own
    query.  When both queries return the stored documents of the name,
    newest first, and these have pairwise distinct upload times, the version
    list numbers the documents from 0 in that order, marks exactly the first
    as current, and agrees with the lookup by number: the entry numbered [v]
    carries the id, name and upload time of the document that
    [/versions/:name/v] serves. *)
Theorem listing_agrees_with_lookup (findList findOne : string -> string + list Doc)
    (coll : list Doc) (n : string) (listed found : list Doc) :
  findList n = inr listed -> findOne n = inr found ->
  listed ≡ₚ filter (fun d => name d = n) coll ->
  found ≡ₚ filter (fun d => name d = n) coll ->
  StronglySorted newerFirst listed -> StronglySorted newerFirst found ->
  (forall d1 d2, d1 ∈ coll -> d2 ∈ coll -> name d1 = n -> name d2 = n ->
                 uploadedAt d1 = uploadedAt d2 -> d1 = d2) ->
  (exists d, d ∈ coll /\ name d = n) ->
  exists items,
    getVersions findList n
    = json_reply 200 [("designName", JStr n);
                      ("totalVersions", JNum (Z.of_nat (length items)));
                      ("versions", JArr items)]
    /\ length items = length (filter (fun d => name d = n) coll)
    /\ forall v item, items !! v = Some item ->
         exists d,
           item = JObj [("id", JStr (_id d)); ("name", JStr (name d));
                        ("versionNumber", JNum (Z.of_nat v));
                        ("uploadedAt", JNum (uploadedAt d));
                        ("isCurrent", JBool (bool_decide (v = 0%nat)))]
           /\ getVersion findOne n (pretty (Z.of_nat v))
              = json_reply 200
                  (objSet "versionInfo"
                     (versionInfo (Z.of_nat v) (length items) d) (docFields d)).
Proof.
  intros Hl Hf Hpl Hpf Hsl Hsf Hdistinct (d0 & Hin0 & Hn0).
  assert (listed = found) as Heq.
  { apply (StronglySorted_unique_strong newerFirst); [| done | done | by rewrite Hpl, Hpf].
    intros x1 x2 H1 H2 H12 H21. unfold newerFirst in H12, H21.
    rewrite Hpl in H1. rewrite Hpf in H2.
    apply list_elem_of_filter in H1 as [Hn1 H1], H2 as [Hn2 H2].
    apply Hdistinct; [done.. | lia]. }
  assert (length listed <> 0%nat) as Hne.
  { intros Hz. apply length_zero_iff_nil in Hz. rewrite Hz in Hpl.
    assert (d0 ∈ filter (fun d => name d = n) coll) as Hd0
      by (by apply list_elem_of_filter).
    rewrite <- Hpl in Hd0. by apply elem_of_nil in Hd0. }
  exists (imap versionEntry listed). split; [| split].
  - unfold getVersions. by rewrite Hl, (bool_decide_eq_false_2 _ Hne).
  - rewrite length_imap. by apply Permutation_length.
  - intros v item Hv. rewrite list_lookup_imap in Hv.
    destruct (listed !! v) as [d |] eqn:Hd; [| done].
    injection Hv as <-. exists d. split; [done |].
    rewrite length_imap, Heq. rewrite Heq in Hd.
    by apply (getVersion_served _ n found).
Qed.

Lemma filter_name_snoc coll doc n :
  filter (fun d => name d = n) (coll ++ [doc])
  = filter (fun d => name d = n) coll
    ++ (if decide (name doc = n) then [doc] else []).
Proof.
  rewrite filter_app. reflexivity.
Qed.

Section Upload.
Context (toISOString : Z -> string) (coll : list Doc) (designData : DesignData)
        (now : Z) (insertedId n : string).
Hypothesis named : u_name designData = Some n.
Hypothesis named_ne : n <> EmptyString.
Hypothesis later : forall d, d ∈ coll -> name d = n -> uploadedAt d < now.

Let doc : Doc :=
  {| _id := insertedId; name := n; uploadedAt := now; fields := u_fields designData |}.
Let old := merge_sort newerFirst (filter (fun d => name d = n) coll).

Lemma postUpload_ok :
  postUpload toISOString coll designData now insertedId
  = (json_reply 201
       [("message", JStr "Design uploaded successfully");
        ("id", JStr insertedId); ("name", JStr n);
        ("uploadedAt", JStr (toISOString now))],
     coll ++ [doc]).
Proof.
  unfold postUpload. by rewrite named, (truthy_Some _ named_ne).
Qed.

Lemma old_older d : d ∈ old -> uploadedAt d < now.
Proof.
  unfold old. rewrite merge_sort_Permutation.
  intros [Hin Hn]%list_elem_of_filter. by apply later.
Qed.

Lemma new_versions_perm :
  merge_sort newerFirst (filter (fun d => name d = n) (coll ++ [doc]))
  ≡ₚ doc :: old.
Proof.
  rewrite merge_sort_Permutation, filter_name_snoc. simpl.
  rewrite decide_True by done. unfold old.
  rewrite merge_sort_Permutation. by rewrite Permutation_app_comm.
Qed.

Lemma new_versions_head :
  exists rest,
    merge_sort newerFirst (filter (fun d => name d = n) (coll ++ [doc]))
    = doc :: rest
    /\ length rest = length old.
Proof.
  pose proof new_versions_perm as Hperm.
  pose proof (versions_sorted (coll ++ [doc]) n) as Hsorted.
  destruct (merge_sort newerFirst (filter (fun d => name d = n) (coll ++ [doc])))
    as [| h rest] eqn:E.
  { by apply Permutation_nil_cons in Hperm. }
  assert (h = doc) as ->.
  { assert (h ∈ doc :: old) as Hh by (rewrite <- Hperm; left).
    apply elem_of_cons in Hh as [-> | Hh]; [done |].
    assert (doc ∈ h :: rest) as Hd by (rewrite Hperm; left).
    apply elem_of_cons in Hd as [-> | Hd]; [done |].
    apply StronglySorted_inv in Hsorted as [_ Hall].
    rewrite Forall_forall in Hall. specialize (Hall doc Hd).
    unfold newerFirst in Hall. simpl in Hall.
    pose proof (old_older h Hh). lia. }
  exists rest. split; [done |].
  apply Permutation_length in Hperm. simpl in Hperm. lia.
Qed.

(** X12.  A successful upload adds one record and leaves every other
    record as it was.  When its time is later than that of every stored
    version of the same name, the new record is version 0 of that name
    and the number of versions has grown by one; the versions of every
    other name are answered as before. *)
Theorem upload_becomes_current :
  postUpload toISOString coll designData now insertedId
  = (json_reply 201
       [("message", JStr "Design uploaded successfully");
        ("id", JStr insertedId); ("name", JStr n);
        ("uploadedAt", JStr (toISOString now))],
     coll ++ [doc])
  /\ getVersion (findVersions (coll ++ [doc])) n "0"
     = json_reply 200
         (objSet "versionInfo" (versionInfo 0 (S (length old)) doc) (docFields doc))
  /\ forall n' v, n' <> n ->
       getVersion (findVersions (coll ++ [doc])) n' v
       = getVersion (findVersions coll) n' v.
Proof.
  split; [apply postUpload_ok |]. split.
  - destruct new_versions_head as (rest & Hrest & Hlen).
    change "0" with (pretty (Z.of_nat 0)).
    rewrite (getVersion_served _ n (doc :: rest) 0 doc);
      [| unfold findVersions; by rewrite Hrest | done].
    simpl. by rewrite Hlen.
  - intros n' v Hn'. unfold getVersion, findVersions.
    rewrite filter_name_snoc. simpl.
    rewrite decide_False by done. by rewrite app_nil_r.
Qed.

(** X13.  When moreover the stored versions of that name have pairwise
    distinct upload times, the upload shifts them by one: the document
    that was version [k] is version [k + 1] afterwards. *)
Theorem upload_shifts_versions :
  (forall d1 d2, d1 ∈ coll -> d2 ∈ coll -> name d1 = n -> name d2 = n ->
                 uploadedAt d1 = uploadedAt d2 -> d1 = d2) ->
  forall (k : nat) d,
    old !! k = Some d ->
    getVersion (findVersions (coll ++ [doc])) n (pretty (Z.of_nat (S k)))
    = json_reply 200
        (objSet "versionInfo"
           (versionInfo (Z.of_nat (S k)) (S (length old)) d) (docFields d)).
Proof.
  intros Hdistinct k d Hk.
  assert (merge_sort newerFirst (filter (fun d => name d = n) (coll ++ [doc]))
          = doc :: old) as Heq.
  { apply (StronglySorted_unique_strong newerFirst).
    - intros x1 x2 H1 H2 H12 H21. unfold newerFirst in H12, H21.
      rewrite new_versions_perm in H1.
      assert (forall x, x ∈ old -> x ∈ coll /\ name x = n) as Hold.
      { intros x. unfold old. rewrite merge_sort_Permutation.
        intros [? ?]%list_elem_of_filter. by split. }
      apply elem_of_cons in H1 as [-> | H1], H2 as [-> | H2]; [done | | |].
      + pose proof (old_older x2 H2). simpl in *. lia.
      + pose proof (old_older x1 H1). simpl in *. lia.
      + destruct (Hold x1 H1), (Hold x2 H2). apply Hdistinct; [done.. | lia].
    - apply versions_sorted.
    - constructor; [apply versions_sorted |].
      apply Forall_forall. intros x Hx. unfold newerFirst. simpl.
      pose proof (old_older x Hx). lia.
    - apply new_versions_perm. }
  rewrite (getVersion_served _ n (doc :: old) (S k) d);
    [done | unfold findVersions; by rewrite Heq | done].
Qed.
End Upload.


(** * The list of latest designs *)

Lemma ownGet_Some {V} k (o : list (string * V)) v :
  ownGet k o = Some v -> (k, v) ∈ o.
Proof.
  induction o as [| [k' v'] o IH]; simpl; [done |].
  destruct (decide (k' = k)) as [-> | Hne].
  - intros [= ->]. apply list_elem_of_here.
  - intros H. apply list_elem_of_further. by apply IH.
Qed.

Lemma ownGet_None {V} k (o : list (string * V)) :
  ownGet k o = None -> k ∉ o.*1.
Proof.
  induction o as [| [k' v'] o IH]; simpl.
  - intros _ H. by apply elem_of_nil in H.
  - destruct (decide (k' = k)) as [-> | Hne]; [done |].
    intros H Hin. apply elem_of_cons in Hin as [-> | Hin]; [done |].
    by apply IH.
Qed.

Lemma ownSet_keys {V} k (o : list (string * V)) v0 v :
  ownGet k o = Some v0 -> (ownSet k v o).*1 = o.*1.
Proof.
  induction o as [| [k' v'] o IH]; simpl; [done |].
  destruct (decide (k' = k)) as [-> | Hne]; simpl; [done |].
  intros H. f_equal. by apply IH.
Qed.

Lemma ownSet_elem {V} k (o : list (string * V)) v k' v' :
  NoDup o.*1 -> (k', v') ∈ ownSet k v o ->
  (k' = k /\ v' = v) \/ (k' <> k /\ (k', v') ∈ o).
Proof.
  induction o as [| [k1 v1] o IH]; simpl; intros Hnd.
  - intros H. apply list_elem_of_singleton in H. injection H as -> ->. by left.
  - apply NoDup_cons in Hnd as [Hk1 Hnd].
    destruct (decide (k1 = k)) as [-> | Hne].
    + intros H. apply elem_of_cons in H as [H | H].
      * injection H as -> ->. by left.
      * right. split; [| by apply list_elem_of_further].
        intros ->. apply Hk1. apply list_elem_of_fmap. by exists (k, v').
    + intros H. apply elem_of_cons in H as [H | H].
      * injection H as -> ->. right. split; [done | apply list_elem_of_here].
      * destruct (IH Hnd H) as [? | [? ?]]; [by left |].
        right. split; [done | by apply list_elem_of_further].
Qed.

Lemma ownSet_total k (o : list (string * list Doc)) v0 x :
  ownGet k o = Some v0 ->
  sum_list_with (fun e => length e.2) (ownSet k (v0 ++ [x]) o)
  = S (sum_list_with (fun e => length e.2) o).
Proof.
  induction o as [| [k' v'] o IH]; simpl; [done |].
  destruct (decide (k' = k)) as [-> | Hne]; simpl.
  - intros [= ->]. rewrite length_app. simpl. lia.
  - intros H. rewrite (IH H). lia.
Qed.

Lemma Grouped_nil : Grouped [] [].
Proof.
  split; [constructor |]. split; [| split; [| split; [| done]]].
  - intros k g H. by apply elem_of_nil in H.
  - intros d H. by apply elem_of_nil in H.
  - intros k H. by apply elem_of_nil in H.
Qed.

Lemma filter_snoc_other k (p : list Doc) item :
  displayName item <> k ->
  filter (fun d => displayName d = k) (p ++ [item])
  = filter (fun d => displayName d = k) p.
Proof.
  intros Hne. rewrite filter_app, filter_cons_False, filter_nil by done.
  by rewrite app_nil_r.
Qed.

Lemma filter_snoc_same (p : list Doc) item :
  filter (fun d => displayName d = displayName item) (p ++ [item])
  = filter (fun d => displayName d = displayName item) p ++ [item].
Proof. by rewrite filter_app, filter_cons_True, filter_nil by done. Qed.

Lemma groupItem_ok groups p item :
  Grouped groups p -> displayName item ∉ inheritedNames ->
  exists g', groupItem groups item = Some g' /\ Grouped g' (p ++ [item]).
Proof.
  intros (Hnd & Hg & Hc & Ho & Ht) Hni. unfold groupItem.
  destruct (ownGet (displayName item) groups) as [versions |] eqn:Hget.
  - eexists. split; [done |].
    pose proof (ownGet_Some _ _ _ Hget) as Hin.
    split; [| split; [| split; [| split]]].
    + by rewrite (ownSet_keys _ _ _ _ Hget).
    + intros k g H. apply ownSet_elem in H as [[-> ->] | [Hne H]]; [| | done].
      * destruct (Hg _ _ Hin) as [-> _]. rewrite filter_snoc_same.
        split; [done |]. by destruct (filter _ p).
      * destruct (Hg _ _ H) as [-> ?]. by rewrite filter_snoc_other.
    + intros d Hd. rewrite (ownSet_keys _ _ _ _ Hget).
      apply elem_of_app in Hd as [Hd | Hd]; [by apply Hc |].
      apply list_elem_of_singleton in Hd as ->.
      apply list_elem_of_fmap. by exists (displayName item, versions).
    + intros k. rewrite (ownSet_keys _ _ _ _ Hget). apply Ho.
    + rewrite (ownSet_total _ _ _ _ Hget), Ht, length_app. simpl. lia.
  - rewrite bool_decide_eq_false_2 by done.
    pose proof (ownGet_None _ _ Hget) as Hnin.
    eexists. split; [done |].
    assert (filter (fun d => displayName d = displayName item) p = []) as Hnone.
    { destruct (filter _ p) as [| d l] eqn:Hf; [done |].
      assert (d ∈ filter (fun d => displayName d = displayName item) p) as Hd
        by (rewrite Hf; apply list_elem_of_here).
      apply list_elem_of_filter in Hd as [Hd1 Hd2].
      destruct Hnin. rewrite <- Hd1. by apply Hc. }
    split; [| split; [| split; [| split]]].
    + rewrite fmap_app. simpl. apply NoDup_app. split; [done |].
      split; [| apply NoDup_singleton].
      intros k Hk Hk'. apply list_elem_of_singleton in Hk' as ->. done.
    + intros k g H. apply elem_of_app in H as [H | H].
      * destruct (Hg _ _ H) as [-> ?]. rewrite filter_snoc_other; [done |].
        intros <-. congruence.
      * apply list_elem_of_singleton in H. injection H as -> ->.
        by rewrite filter_snoc_same, Hnone.
    + intros d Hd. rewrite fmap_app. simpl.
      apply elem_of_app in Hd as [Hd | Hd].
      * apply elem_of_app. left. by apply Hc.
      * apply list_elem_of_singleton in Hd as ->.
        apply elem_of_app. right. apply list_elem_of_here.
    + intros k. rewrite fmap_app. simpl. intros Hk.
      apply elem_of_app in Hk as [Hk | Hk]; [by apply Ho |].
      by apply list_elem_of_singleton in Hk as ->.
    + rewrite sum_list_with_app, Ht, length_app. simpl. lia.
Qed.

Lemma groupItem_inherited groups p item :
  Grouped groups p -> displayName item ∈ inheritedNames ->
  groupItem groups item = None.
Proof.
  intros (Hnd & Hg & Hc & Ho & Ht) Hi. unfold groupItem.
  destruct (ownGet (displayName item) groups) as [versions |] eqn:Hget.
  - apply ownGet_Some in Hget. destruct (Ho (displayName item)); [| done].
    apply list_elem_of_fmap. by eexists (_, _).
  - by rewrite bool_decide_eq_true_2.
Qed.

Lemma groupAll_ok items : forall groups p,
  Grouped groups p ->
  (forall d, d ∈ items -> displayName d ∉ inheritedNames) ->
  exists g', groupAll groups items = Some g' /\ Grouped g' (p ++ items).
Proof.
  induction items as [| item rest IH]; intros groups p HG Hall; simpl.
  - exists groups. by rewrite app_nil_r.
  - destruct (groupItem_ok groups p item HG) as (g1 & -> & HG1).
    { apply Hall, list_elem_of_here. }
    destruct (IH g1 (p ++ [item]) HG1) as (g2 & -> & HG2).
    { intros d Hd. by apply Hall, list_elem_of_further. }
    exists g2. split; [done |]. by rewrite <- app_assoc in HG2.
Qed.

Lemma groupAll_inherited items : forall groups p,
  Grouped groups p ->
  (exists d, d ∈ items /\ displayName d ∈ inheritedNames) ->
  groupAll groups items = None.
Proof.
  induction items as [| item rest IH]; intros groups p HG (d & Hd & Hi); simpl.
  - by apply elem_of_nil in Hd.
  - destruct (decide (displayName item ∈ inheritedNames)) as [Hitem | Hitem].
    + by rewrite (groupItem_inherited groups p item HG).
    + destruct (groupItem_ok groups p item HG Hitem) as (g1 & -> & HG1).
      apply (IH g1 (p ++ [item]) HG1).
      apply elem_of_cons in Hd as [-> | Hd]; [done |]. by exists d.
Qed.

Lemma filter_partition {A} (f : A -> bool) (l : list A) :
  List.filter f l ++ List.filter (fun x => negb (f x)) l ≡ₚ l.
Proof.
  induction l as [| x l IH]; simpl; [done |].
  destruct (f x); simpl.
  - by rewrite IH.
  - by rewrite <- Permutation_middle, IH.
Qed.

Lemma objectEntries_perm {V} (o : list (string * V)) : objectEntries o ≡ₚ o.
Proof.
  unfold objectEntries. rewrite merge_sort_Permutation.
  apply (filter_partition (fun e => bool_decide (is_Some (arrayIndex e.1)))).
Qed.

Lemma insertNewest_perm d l : insertNewest d l ≡ₚ d :: l.
Proof.
  induction l as [| x l IH]; simpl; [done |].
  destruct (uploadedAt d <? uploadedAt x); [| done].
  rewrite IH. apply perm_swap.
Qed.

Lemma sortNewestFirst_perm l : sortNewestFirst l ≡ₚ l.
Proof.
  induction l as [| d l IH]; simpl; [done |].
  unfold sortNewestFirst in *. simpl. by rewrite insertNewest_perm, IH.
Qed.

Lemma insertNewest_sorted d l :
  StronglySorted newerFirst l -> StronglySorted newerFirst (insertNewest d l).
Proof.
  induction 1 as [| x l Hs IH Hx]; simpl.
  - repeat constructor.
  - destruct (uploadedAt d <? uploadedAt x) eqn:Hlt.
    + constructor; [done |].
      rewrite insertNewest_perm. constructor; [| done].
      unfold newerFirst. apply Z.ltb_lt in Hlt. lia.
    + apply Z.ltb_ge in Hlt. constructor; [by constructor |].
      constructor; [done |].
      eapply Forall_impl; [exact Hx |].
      intros y. unfold newerFirst. lia.
Qed.

Lemma sortNewestFirst_sorted l : StronglySorted newerFirst (sortNewestFirst l).
Proof.
  induction l as [| d l IH]; simpl; [constructor |].
  by apply insertNewest_sorted.
Qed.

Lemma latestOf_spec versions :
  versions <> [] ->
  exists h, latestOf versions
            = Some {| ld_id := _id h; ld_name := displayName h;
                      ld_uploadedAt := uploadedAt h;
                      ld_totalVersions := length versions |}
    /\ h ∈ versions
    /\ forall x, x ∈ versions -> uploadedAt x <= uploadedAt h.
Proof.
  intros Hne. unfold latestOf.
  pose proof (sortNewestFirst_perm versions) as Hp.
  pose proof (sortNewestFirst_sorted versions) as Hs.
  destruct (sortNewestFirst versions) as [| h l].
  - apply Permutation_nil in Hp. done.
  - exists h. split; [done |]. split.
    + rewrite <- Hp. apply list_elem_of_here.
    + intros x Hx. rewrite <- Hp in Hx.
      apply StronglySorted_inv in Hs as [_ Hh].
      apply elem_of_cons in Hx as [-> | Hx]; [lia |].
      rewrite Forall_forall in Hh. by apply Hh.
Qed.

Lemma latestAll_spec entries :
  (forall e, e ∈ entries -> e.2 <> []) ->
  exists l, latestAll entries = Some l /\ Forall2 latestFor entries l.
Proof.
  induction entries as [| [k g] rest IH]; intros Hne; simpl.
  - exists []. by split.
  - destruct (latestOf_spec g) as (h & -> & Hh & Hmax).
    { apply (Hne (k, g)), list_elem_of_here. }
    destruct IH as (l & -> & Hl).
    { intros e He. by apply Hne, list_elem_of_further. }
    eexists. split; [done |]. constructor; [| done].
    exists h. by repeat split.
Qed.

Lemma latest_names coll entries l :
  Forall2 latestFor entries l ->
  (forall k g, (k, g) ∈ entries -> g = filter (fun d => displayName d = k) coll) ->
  ld_name <$> l = entries.*1.
Proof.
  induction 1 as [| [k g] r entries l (h & Hh & _ & ->) HF IH]; intros Hg;
    simpl; [done |].
  f_equal.
  - simpl in Hh. rewrite (Hg k g) in Hh by apply list_elem_of_here.
    by apply list_elem_of_filter in Hh as [? _].
  - apply IH. intros k' g' H'. by apply Hg, list_elem_of_further.
Qed.

Lemma latest_totals entries l :
  Forall2 latestFor entries l ->
  sum_list_with ld_totalVersions l = sum_list_with (fun e => length e.2) entries.
Proof.
  induction 1 as [| e r entries l (h & _ & _ & ->) HF IH]; simpl; [done |].
  by rewrite IH.
Qed.

Lemma latest_elem entries l r :
  Forall2 latestFor entries l -> r ∈ l ->
  exists e, e ∈ entries /\ latestFor e r.
Proof.
  induction 1 as [| e r' entries l He HF IH]; intros Hr.
  - by apply elem_of_nil in Hr.
  - apply elem_of_cons in Hr as [-> | Hr].
    + exists e. split; [apply list_elem_of_here | done].
    + destruct (IH Hr) as (e' & ? & ?). exists e'.
      split; [by apply list_elem_of_further | done].
Qed.

Lemma latestDesigns_ok coll :
  (forall d, d ∈ coll -> displayName d ∉ inheritedNames) ->
  exists l, latestDesigns coll = Some l
    /\ NoDup (ld_name <$> l)
    /\ (forall d, d ∈ coll -> displayName d ∈ ld_name <$> l)
    /\ sum_list_with ld_totalVersions l = length coll
    /\ forall e, e ∈ l -> reportsLatest coll e.
Proof.
  intros Hall.
  destruct (groupAll_ok coll [] [] Grouped_nil Hall)
    as (groups & Hgroups & Hnd & Hg & Hc & _ & Ht).
  simpl in Hg, Hc, Ht.
  pose proof (objectEntries_perm groups) as Hperm.
  destruct (latestAll_spec (objectEntries groups)) as (l & Hl & HF).
  { intros [k g] He. rewrite Hperm in He. by destruct (Hg _ _ He). }
  assert (ld_name <$> l = (objectEntries groups).*1) as Hnames.
  { apply (latest_names coll); [done |].
    intros k g He. rewrite Hperm in He. by destruct (Hg _ _ He). }
  exists l. unfold latestDesigns. rewrite Hgroups. simpl.
  split; [done |]. split; [| split; [| split]].
  - by rewrite Hnames, Hperm.
  - intros d Hd. rewrite Hnames, Hperm. by apply Hc.
  - by rewrite (latest_totals _ _ HF), Hperm.
  - intros e He. destruct (latest_elem _ _ _ HF He) as ([k g] & Hin & h & Hh & Hmax & ->).
    rewrite Hperm in Hin. destruct (Hg _ _ Hin) as [Hgk _].
    simpl in Hh, Hmax.
    assert (displayName h = k /\ h ∈ coll) as [Hk Hcoll].
    { rewrite Hgk in Hh. by apply list_elem_of_filter in Hh. }
    unfold reportsLatest. simpl. rewrite Hk. split; [by rewrite <- Hgk |].
    exists h. repeat split; try done.
    intros d' Hd' Hn'. apply Hmax. rewrite Hgk. by apply list_elem_of_filter.
Qed.

Lemma latestDesigns_Some coll l :
  latestDesigns coll = Some l ->
  forall d, d ∈ coll -> displayName d ∉ inheritedNames.
Proof.
  intros Hl d Hd Hi. unfold latestDesigns in Hl.
  rewrite (groupAll_inherited coll [] [] Grouped_nil) in Hl; [done |].
  by exists d.
Qed.

(** X14. When no stored record carries a name inherited from
    [Object.prototype], the list of latest designs answers 200 with one
    element per distinct display name: every stored record's name occurs,
    no name occurs twice, and each element reports the number of records
    of its name and the id and upload time of one with the latest upload
    time among them. *)
Theorem latest_per_name (coll : list Doc) :
  (forall d, d ∈ coll -> displayName d ∉ inheritedNames) ->
  exists l,
    listLatest (inr coll)
    = {| status := 200; headers := []; body := BodyJson (JArr (latestJson <$> l)) |}
    /\ NoDup (ld_name <$> l)
    /\ (forall d, d ∈ coll -> displayName d ∈ ld_name <$> l)
    /\ forall e, e ∈ l -> reportsLatest coll e.
Proof.
  intros Hall.
  destruct (latestDesigns_ok coll Hall) as (l & Hl & Hnd & Hc & _ & Hr).
  exists l. simpl. by rewrite Hl.
Qed.

Lemma designStore_names d :
  d ∈ designStore -> displayName d ∉ inheritedNames.
Proof.
  intros Hd. unfold designStore in Hd.
  repeat (apply elem_of_cons in Hd as [-> | Hd]);
    [apply (bool_decide_unpack _); by vm_compute .. |].
  by apply elem_of_nil in Hd.
Qed.


(** X15. Whenever the list of latest designs is produced, the
    [totalVersions] of its elements add up to the number of stored
    records: every record is counted in exactly one element. *)
Theorem latest_counts_every_record (coll : list Doc) (l : list LatestDesign) :
  latestDesigns coll = Some l ->
  sum_list_with ld_totalVersions l = length coll.
Proof.
  intros Hl.
  destruct (latestDesigns_ok coll (latestDesigns_Some coll l Hl))
    as (l' & Hl' & _ & _ & Ht & _).
  congruence.
Qed.


(** X16. One stored record whose name is a property every object
    inherits ([constructor], [toString], [__proto__], ...) makes the whole
    list of latest designs fail with 500 'Failed to fetch design list',
    whatever else is stored. *)
Theorem latest_fails_on_inherited_name (coll : list Doc) (d : Doc) :
  d ∈ coll -> displayName d ∈ inheritedNames ->
  listLatest (inr coll)
  = json_reply 500 [("error", JStr "Failed to fetch design list")].
Proof.
  intros Hd Hi. simpl. unfold latestDesigns.
  rewrite (groupAll_inherited coll [] [] Grouped_nil); [done |]. by exists d.
Qed.


Lemma displayName_named d n :
  n <> "Unnamed Item" -> displayName d = n -> name d = n.
Proof.
  intros Hn. unfold displayName, Js.or_str.
  case_bool_decide; [congruence | done].
Qed.

Lemma displayName_nonempty d : displayName d <> EmptyString.
Proof. by apply or_str_nonempty. Qed.

Lemma named_displayName d (coll : list Doc) :
  displayName d <> "Unnamed Item" ->
  filter (fun d' => displayName d' = displayName d) coll
  = filter (fun d' => name d' = displayName d) coll.
Proof.
  intros Hn. apply list_filter_iff. intros d'. split.
  - by apply displayName_named.
  - intros Hd'. unfold displayName at 1. unfold Js.or_str.
    case_bool_decide as He; [| done].
    rewrite He in Hd'. symmetry in Hd'. by apply displayName_nonempty in Hd'.
Qed.

(** X17. The list of latest designs agrees with the version lookup: for
    an element whose name is not the placeholder 'Unnamed Item', version 0
    of that name is a record of that name with the upload time the element
    reports, and the lookup reports the same number of versions. *)
Theorem latest_agrees_with_version_zero
    (coll : list Doc) (l : list LatestDesign) (e : LatestDesign) :
  latestDesigns coll = Some l -> e ∈ l -> ld_name e <> "Unnamed Item" ->
  exists d, d ∈ coll /\ name d = ld_name e /\ uploadedAt d = ld_uploadedAt e
    /\ getVersion (findVersions coll) (ld_name e) "0"
       = json_reply 200
           (objSet "versionInfo" (versionInfo 0 (ld_totalVersions e) d)
              (docFields d)).
Proof.
  intros Hl He Hn.
  destruct (latestDesigns_ok coll (latestDesigns_Some coll l Hl))
    as (l' & Hl' & _ & _ & _ & Hr).
  assert (l' = l) as -> by congruence.
  destruct (Hr e He) as (Hcount & h & Hh & Hname & _ & Htime & Hmax).
  rewrite <- Hname in *. rewrite named_displayName in Hcount by done.
  set (versions := merge_sort newerFirst
                     (filter (fun d => name d = displayName h) coll)).
  pose proof (merge_sort_Permutation newerFirst
                (filter (fun d => name d = displayName h) coll)) as Hperm.
  fold versions in Hperm.
  assert (h ∈ versions) as Hin.
  { rewrite Hperm. apply list_elem_of_filter.
    split; [by apply displayName_named | done]. }
  pose proof (versions_sorted coll (displayName h)) as Hs. fold versions in Hs.
  destruct versions as [| d rest] eqn:Hv; [by apply elem_of_nil in Hin |].
  assert (d ∈ filter (fun d => name d = displayName h) coll) as Hd
    by (rewrite <- Hperm; apply list_elem_of_here).
  apply list_elem_of_filter in Hd as [Hdn Hdc].
  exists d. split; [done |]. split; [done |]. split.
  - apply Z.le_antisymm.
    + rewrite <- Htime. apply Hmax; [done |].
      unfold displayName at 1. unfold Js.or_str. rewrite Hdn.
      case_bool_decide as E; [| done]. by apply displayName_nonempty in E.
    + apply StronglySorted_inv in Hs as [_ Hall].
      apply elem_of_cons in Hin as [-> | Hin]; [rewrite <- Htime; lia |].
      rewrite Forall_forall in Hall. rewrite <- Htime. by apply Hall.
  - rewrite Hcount, <- (Permutation_length Hperm).
    apply (getVersion_served (findVersions coll) (displayName h) (d :: rest) 0 d);
      [| done].
    unfold findVersions. by rewrite <- Hv.
Qed.


(** X18. An accepted upload shows in the list of latest designs: when the
    upload time is later than that of every stored record of the name and
    no name involved is an inherited property, the list computed on the
    collection after the upload holds, for the uploaded name, the new
    record's id and upload time and one version more than before. *)
Theorem upload_listed_latest (toISOString : Z -> string) (coll : list Doc)
    (designData : DesignData) (now : Z) (insertedId n : string) :
  u_name designData = Some n -> n <> EmptyString ->
  (forall d, d ∈ coll -> displayName d = n -> uploadedAt d < now) ->
  (forall d, d ∈ coll -> displayName d ∉ inheritedNames) ->
  n ∉ inheritedNames ->
  exists l,
    latestDesigns (postUpload toISOString coll designData now insertedId).2 = Some l
    /\ {| ld_id := insertedId; ld_name := n; ld_uploadedAt := now;
          ld_totalVersions :=
            S (length (filter (fun d => displayName d = n) coll)) |} ∈ l.
Proof.
  intros Hname Hne Hlater Hcoll Hn.
  rewrite (postUpload_ok toISOString coll designData now insertedId n Hname Hne).
  simpl.
  set (doc := {| _id := insertedId; name := n; uploadedAt := now;
                 fields := u_fields designData |}).
  assert (displayName doc = n) as Hdoc.
  { unfold displayName, Js.or_str. simpl. by rewrite bool_decide_eq_false_2. }
  destruct (latestDesigns_ok (coll ++ [doc])) as (l & Hl & _ & Hc & _ & Hr).
  { intros d Hd. apply elem_of_app in Hd as [Hd | Hd]; [by apply Hcoll |].
    apply list_elem_of_singleton in Hd as ->. by rewrite Hdoc. }
  exists l. split; [done |].
  assert (doc ∈ coll ++ [doc]) as Hin
    by (apply elem_of_app; right; apply list_elem_of_here).
  pose proof (Hc doc Hin) as He. rewrite Hdoc in He.
  apply list_elem_of_fmap in He as (e & Hen & He).
  destruct (Hr e He) as (Hcount & d & Hd & Hdn & Hid & Htime & Hmax).
  rewrite <- Hen in Hcount, Hdn, Hmax.
  assert (d = doc) as ->.
  { apply elem_of_app in Hd as [Hd | Hd].
    - pose proof (Hlater d Hd Hdn) as Hlt.
      pose proof (Hmax doc Hin Hdoc) as Hle. simpl in Hle. lia.
    - by apply list_elem_of_singleton in Hd. }
  rewrite filter_app, filter_cons_True, filter_nil, length_app in Hcount by done.
  simpl in Hcount, Hid, Htime.
  destruct e as [i m t c]. simpl in Hen, Hcount, Hid, Htime.
  rewrite Nat.add_1_r in Hcount. by rewrite <- Hcount, Hid, Htime, Hen.
Qed.

End Server.

(** * The handlers on sample requests

    The samples run under [asciiRuntime].  Their strings are ASCII and their
    numbers small, and there every runtime folds and prints as it does. *)

#[local] Existing Instance asciiRuntime.

Example base64_abc : Base64.decode "QUJD" = [65; 66; 67].
Proof. reflexivity. Qed.

Example base64_skips : Base64.decode "QU,JD=QUJD" = [65; 66; 67].
Proof. reflexivity. Qed.

Example base64_tail : Base64.decode "QUI=" = [65; 66].
Proof. reflexivity. Qed.

(** A code unit above 0xFF is read by its low 8 bits: U+0144 counts as [D]. *)
Example base64_wide :
  Js.codeUnits "QUJń" = [81; 85; 74; 324]
  /\ Base64.decode "QUJń" = [65; 66; 67].
Proof. split; reflexivity. Qed.

Example obj_vendor : ObjPattern.test "text/x-obj" = true.
Proof. reflexivity. Qed.

Example obj_upper : ObjPattern.test "application/X-OBJ; q=1" = true.
Proof. reflexivity. Qed.

Example obj_object : ObjPattern.test "application/object" = false.
Proof. reflexivity. Qed.

Example parseInt_ex :
  ParseInt.parseInt "12" = Some 12 /\ ParseInt.parseInt " -3x" = Some (-3)
  /\ ParseInt.parseInt "abc" = None /\ ParseInt.parseInt "0x1f" = Some 31
  /\ ParseInt.parseInt "1.5" = Some 1 /\ ParseInt.parseInt EmptyString = None.
Proof. repeat split; reflexivity. Qed.

(** A no-break space (U+00A0) before the digits is skipped as white space. *)
Example parseInt_nbsp :
  ParseInt.parseInt (String (Ascii.ascii_of_N 194) (String (Ascii.ascii_of_N 160) "1"))
  = Some 1.
Proof. reflexivity. Qed.

Example header_values :
  validHeaderValue "application/pdf" = true
  /\ validHeaderValue ("attachment; filename=" +:+ Js.quoted "abc_plan.pdf") = true
  /\ validHeaderValue lineFeedId = false
  /\ validHeaderValue "plan–A" = false
  /\ validHeaderValue "café" = true.
Proof. repeat split; reflexivity. Qed.

(** C1, as stated, fails: a preferred content type that no entry declares
    leaves the pick empty instead of falling back to the first entry. *)
Lemma C1_counterexample :
  Forall (fun c => contentTypeIs (Some "model/obj") c = false) [pdfEntry]
  /\ pickContent (Some "model/obj") [pdfEntry] = None
  /\ [pdfEntry] !! 0%nat = Some pdfEntry
  /\ pickContent (Some "model/obj") [pdfEntry] <> [pdfEntry] !! 0%nat.
Proof. repeat split; [by repeat constructor | done]. Qed.

(** An entry of vendor type [text/x-obj], without and with a format token. *)
Lemma C7_obj_normalization_witness :
  normalize (Some (entry (Some "text/x-obj") None JUndefined None None))
            (arrayResult []) None = ("model/obj", ".obj")
  /\ normalize (Some (entry (Some "text/x-obj") (Some "STL") JUndefined None None))
               (arrayResult []) None = ("text/x-obj", ".stl").
Proof.
  split.
  - apply (C7_obj_normalization
             (Some (entry (Some "text/x-obj") None JUndefined None None))
             (arrayResult []) None); reflexivity.
  - refine (eq_trans
              (proj2 (C7_obj_normalization
                        (Some (entry (Some "text/x-obj") (Some "STL") JUndefined None None))
                        (arrayResult []) None) _) _);
      [vm_compute; discriminate | reflexivity].
Defined.

(** C7, as stated, fails twice: with a format token the vendor type is kept,
    and a type that merely contains the letters [obj] is not rewritten. *)
Lemma C7_counterexample :
  (ObjPattern.test "text/x-obj" = true
   /\ normalize (Some (entry (Some "text/x-obj") (Some "stl") JUndefined None None))
                (arrayResult []) None = ("text/x-obj", ".stl"))
  /\ (Js.includes (Js.lowerAscii "application/object") "obj" = true
      /\ formatOf (Some (entry (Some "application/object") None JUndefined None None))
                  (arrayResult []) = EmptyString
      /\ normalize (Some (entry (Some "application/object") None JUndefined None None))
                   (arrayResult []) None = ("application/object", EmptyString)).
Proof. repeat split. Qed.

(** C2: the code at the failing input.  A [data:] payload carried by the
    result object itself is decoded whole, scheme and media type included,
    and not from what follows its first comma; in a picked content entry the
    decoded part ends at the second comma. *)
Lemma C2_data_uri_fallback_shape :
  (fileBuffer (extract None
      (directResult (JString "data:application/pdf;base64,QUJD") None None None))
   = Some (Base64.decode "data:application/pdf;base64,QUJD")
   /\ Base64.decode "data:application/pdf;base64,QUJD" <> Base64.decode "QUJD"
   /\ Base64.decode "QUJD" = [65; 66; 67])
  /\ (fileBuffer (extract None
        (arrayResult [entry None None (JString "data:text/plain;base64,QUJD,REVG")
                        None None]))
      = Some [65; 66; 67]
      /\ Base64.decode "QUJD,REVG" = [65; 66; 67; 68; 69; 70]).
Proof. repeat split. vm_compute. discriminate. Qed.

(** C8: the code at the failing input.  A picked content entry that carries
    no inline payload and whose only URL-like field is [url] is not fetched:
    the request ends in 500 "No export content" without any GET, while the
    same field on the result object itself is fetched. *)
Lemma C8_entry_url_not_fetched :
  let viaEntry :=
    arrayResult [entry None None JUndefined None (Some "https://files.example/a.pdf")] in
  let viaResult :=
    directResult JUndefined None None (Some "https://files.example/a.pdf") in
  downloadUrl (extract None viaEntry) = None
  /\ postDownload (envOf (remoteReturning viaEntry [1; 2; 3]) ∅)
                  (requestFor "abc" None true)
     = (errorReply 500 "No export content" "No file content or URL returned by export",
        [CreateSession DEFAULT_ENDPOINT DOWNLOAD_TICKET;
         ComputeExports DEFAULT_ENDPOINT "s1"
           {| rq_parameters :=
                [("p1", "https://mongo-sd-server.onrender.com/api/data/abc")];
              rq_exports := ["e1"] |}])
  /\ postDownload (envOf (remoteReturning viaResult [1; 2; 3]) ∅)
                  (requestFor "abc" None true)
     = (missReply [1; 2; 3] "application/octet-stream" "abc_plan",
        [CreateSession DEFAULT_ENDPOINT DOWNLOAD_TICKET;
         ComputeExports DEFAULT_ENDPOINT "s1"
           {| rq_parameters :=
                [("p1", "https://mongo-sd-server.onrender.com/api/data/abc")];
              rq_exports := ["e1"] |};
         Fetch "https://files.example/a.pdf"]).
Proof. repeat split; vm_compute; reflexivity. Qed.

(** A request for [abc] against a cache holding its artifact. *)
Lemma C3_cache_hit_witness :
  postDownload
    (envOf (remoteReturning (arrayResult []) [])
           {[ ("abc", "download", None, None) := cachedPdf ]})
    (requestFor "abc" None false)
  = ({| status := 200;
        headers := [("X-Cache", "HIT"); ("Content-Type", "application/pdf");
                    ("Content-Disposition",
                     "attachment; filename=" +:+ Js.quoted "abc_plan.pdf");
                    ("Content-Length", "3")];
        body := BodyBytes [65; 66; 67] |},
     [CacheGet ("abc", "download", None, None)]).
Proof.
  apply (C3_cache_hit
           (envOf (remoteReturning (arrayResult []) [])
                  {[ ("abc", "download", None, None) := cachedPdf ]})
           (requestFor "abc" None false) "abc" "application/pdf" "abc_plan.pdf"
           [65; 66; 67]);
    first [ reflexivity | discriminate | vm_compute; reflexivity ].
Defined.


(** A computation that returns an empty exports map, for the export [e1]
    and for an export whose id is an inherited name. *)
Lemma C10_export_missing_witness :
  postDownload (envOf (remoteWith sampleSession (Some ∅) []) ∅)
               (requestFor "abc" None true)
  = (json_reply 500 [("error", JStr "Export missing");
                     ("message", JStr "Export not found in results")],
     [CreateSession DEFAULT_ENDPOINT DOWNLOAD_TICKET;
      ComputeExports DEFAULT_ENDPOINT "s1" (exportRequestFor "abc" "p1" "e1")])
  /\ postDownload (envOf (remoteWith inheritedIdSession (Some ∅) []) ∅)
                  (requestFor "abc" None true)
     = (json_reply 500 [("error", JStr "No export content");
                        ("message", JStr "No file content or URL returned by export")],
        [CreateSession DEFAULT_ENDPOINT DOWNLOAD_TICKET;
         ComputeExports DEFAULT_ENDPOINT "s4"
           (exportRequestFor "abc" "p1" "constructor")]).
Proof.
  split.
  - refine (proj1 (C10_export_missing
                     (envOf (remoteWith sampleSession (Some ∅) []) ∅)
                     (requestFor "abc" None true) "abc" sampleSession "p1" "e1" "plan"
                     {| x_exports := Some ∅ |} _ _ _ _) _).
    + constructor; first [ reflexivity | discriminate | by left ].
    + reflexivity.
    + discriminate.
    + reflexivity.
    + right. exists ∅. split; [reflexivity |]. split; [reflexivity |].
      apply (bool_decide_unpack _). by vm_compute.
  - refine (proj2 (C10_export_missing
                     (envOf (remoteWith inheritedIdSession (Some ∅) []) ∅)
                     (requestFor "abc" None true) "abc" inheritedIdSession "p1"
                     "constructor" "plan" {| x_exports := Some ∅ |} _ _ _ _) _).
    + constructor; first [ reflexivity | discriminate | by left ].
    + reflexivity.
    + discriminate.
    + reflexivity.
    + exists ∅. split; [reflexivity |]. split; [reflexivity |]. by left.
Defined.

(** C10, as stated, fails: when the selected export has the id
    [constructor] and the exports map of the result has no entry for it,
    the lookup finds what every object inherits under that name, and the
    request ends with "No export content" instead of "Export missing". *)
Lemma C10_counterexample :
  (∅ : gmap string ExportResult) !! "constructor" = None
  /\ postDownload (envOf (remoteWith inheritedIdSession (Some ∅) []) ∅)
                  (requestFor "abc" None true)
     = (json_reply 500 [("error", JStr "No export content");
                        ("message", JStr "No file content or URL returned by export")],
        [CreateSession DEFAULT_ENDPOINT DOWNLOAD_TICKET;
         ComputeExports DEFAULT_ENDPOINT "s4"
           (exportRequestFor "abc" "p1" "constructor")]).
Proof. split; [reflexivity | vm_compute; reflexivity]. Qed.

(** A fresh answer whose cache write is rejected: the handler has sent the
    response before the warning is logged. *)
Lemma C5_cache_write_witness :
  let env := withPut (envOf (remoteReturning (arrayResult [pdfEntry]) []) ∅)
                     (fun _ _ _ _ => Some "quota exceeded") in
  let req := requestFor "abc" None false in
  let r := missReply [65; 66; 67] "application/pdf" "abc_plan.pdf" in
  let put := CachePut ("abc", "download", None, Some "application/pdf")
               [65; 66; 67] "application/pdf" "abc_plan.pdf" in
  let before := [CacheGet ("abc", "download", None, None);
                 CreateSession DEFAULT_ENDPOINT DOWNLOAD_TICKET;
                 ComputeExports DEFAULT_ENDPOINT "s1"
                   (exportRequestFor "abc" "p1" "e1")] in
  handleDownload env req = (r, before ++ [put])
  /\ postDownload env req
     = (r, (before ++ [put]) ++ [ConsoleWarn "⚠️ Cache store failed:" "quota exceeded"])
  /\ exists id buf ct file before',
       designId req = Some id
       /\ r = missReply buf ct file
       /\ let key := (id, default "download" (exportType req),
                      exportNameContains req, Some ct) in
          handleDownload env req = (r, before' ++ [CachePut key buf ct file])
          /\ Forall (fun e => is_cache_put e = false) before'
          /\ (forall put, handleDownload (withPut env put) req = handleDownload env req)
          /\ (before ++ [put]) ++ [ConsoleWarn "⚠️ Cache store failed:" "quota exceeded"]
             = (before' ++ [CachePut key buf ct file])
               ++ match putCachedExport env key buf ct file with
                  | Some msg => [ConsoleWarn "⚠️ Cache store failed:" msg]
                  | None => []
                  end
          /\ forall put, fst (postDownload (withPut env put) req) = r.
Proof.
  intros env req r put before.
  split; [vm_compute; reflexivity |]. split; [vm_compute; reflexivity |].
  apply (C5_cache_write env req r
           ((before ++ [put]) ++ [ConsoleWarn "⚠️ Cache store failed:" "quota exceeded"])).
  - reflexivity.
  - vm_compute. reflexivity.
  - reflexivity.
  - left. reflexivity.
Defined.

(** C5, as stated, fails: with [bypassCache = true] a request answered by a
    fresh computation starts no cache write. *)
Lemma C5_counterexample :
  postDownload (envOf (remoteReturning (arrayResult [pdfEntry]) []) ∅)
               (requestFor "abc" None true)
  = (missReply [65; 66; 67] "application/pdf" "abc_plan.pdf",
     [CreateSession DEFAULT_ENDPOINT DOWNLOAD_TICKET;
      ComputeExports DEFAULT_ENDPOINT "s1" (exportRequestFor "abc" "p1" "e1")])
  /\ List.filter is_cache_put
       (snd (postDownload (envOf (remoteReturning (arrayResult [pdfEntry]) []) ∅)
                          (requestFor "abc" None true))) = [].
Proof. split; vm_compute; reflexivity. Qed.

(** A request preferring [application/pdf], repeated after its fresh answer. *)
Lemma C4_repeated_request_hits_witness :
  exists id r2,
    Some "abc" = Some id
    /\ serve (remoteReturning (arrayResult [pdfEntry]) []) (settle ∅ pdfTrace)
             (requestFor "abc" (Some "application/pdf") false)
       = (r2, [CacheGet (id, "download", None, Some "application/pdf")],
          settle ∅ pdfTrace)
    /\ In ("X-Cache", "HIT") (headers r2)
    /\ body r2 = BodyBytes [65; 66; 67].
Proof.
  apply (C4_repeated_request_hits
           (remoteReturning (arrayResult [pdfEntry]) []) ∅ (settle ∅ pdfTrace)
           (requestFor "abc" (Some "application/pdf") false)
           (missReply [65; 66; 67] "application/pdf" "abc_plan.pdf")
           pdfTrace).
  - reflexivity.
  - unfold serve.
    replace (postDownload _ _)
      with (missReply [65; 66; 67] "application/pdf" "abc_plan.pdf", pdfTrace);
      [reflexivity | vm_compute; reflexivity].
  - reflexivity.
  - left. reflexivity.
  - exists "application/pdf". split; [reflexivity | right; left; reflexivity].
Defined.

(** The cache marker alone does not tell a fresh success: a request whose
    file name is refused as a header value is answered with status 500
    under [X-Cache: MISS], after the content type was set, and starts no
    cache write. *)
Example refused_name_keeps_marker :
  let '(r, t) :=
    postDownload (envOf (remoteReturning (arrayResult [pdfEntry]) []) ∅)
                 (requestFor lineFeedId (Some "application/pdf") false) in
  status r = 500
  /\ headers r = [("X-Cache", "MISS"); ("Content-Type", "application/pdf")]
  /\ body r = BodyJson (JObj [("error", JStr "Download error");
                              ("message",
                               JStr (invalidHeaderMessage "Content-Disposition"))])
  /\ List.filter is_cache_put t = [].
Proof. vm_compute. repeat split. Qed.

(** C4, as stated, fails: a request that names no preferred content type is
    answered by a fresh computation and its artifact is stored under the
    normalized content type [application/pdf]; the same request repeated
    probes the cache without a content type, misses, and is computed
    again. *)
Lemma C4_counterexample :
  let remote := remoteReturning (arrayResult [pdfEntry]) [] in
  let req := requestFor "abc" None false in
  let '(r1, t1, store1) := serve remote ∅ req in
  let '(r2, t2, store2) := serve remote store1 req in
  r1 = missReply [65; 66; 67] "application/pdf" "abc_plan.pdf"
  /\ store1 !! ("abc", "download", None, Some "application/pdf") = Some cachedPdf
  /\ store1 !! ("abc", "download", None, None) = None
  /\ r2 = missReply [65; 66; 67] "application/pdf" "abc_plan.pdf"
  /\ t2 = [CacheGet ("abc", "download", None, None);
           CreateSession DEFAULT_ENDPOINT DOWNLOAD_TICKET;
           ComputeExports DEFAULT_ENDPOINT "s1" (exportRequestFor "abc" "p1" "e1");
           CachePut ("abc", "download", None, Some "application/pdf")
             [65; 66; 67] "application/pdf" "abc_plan.pdf"].
Proof. vm_compute. repeat split. Qed.

(** The three versions of [chair], newest first. *)
Lemma chair_versions :
  findVersions threeVersions "chair"
  = inr [ {| _id := "a"; name := "chair"; uploadedAt := 300; fields := [] |};
          {| _id := "b"; name := "chair"; uploadedAt := 200; fields := [] |};
          {| _id := "c"; name := "chair"; uploadedAt := 100; fields := [] |} ].
Proof. reflexivity. Qed.

Lemma chair_versions_sorted :
  StronglySorted newerFirst
    [ {| _id := "a"; name := "chair"; uploadedAt := 300; fields := [] |};
      {| _id := "b"; name := "chair"; uploadedAt := 200; fields := [] |};
      {| _id := "c"; name := "chair"; uploadedAt := 100; fields := [] |} ].
Proof. repeat constructor; unfold newerFirst; simpl; lia. Qed.



(** The three-version scenario: version 0 is the newest document, version 2
    the oldest, version 3 is out of range. *)
Example three_versions :
  getVersion (findVersions threeVersions) "chair" "0"
  = json_reply 200
      [("_id", JStr "a"); ("name", JStr "chair"); ("uploadedAt", JNum 300);
       ("versionInfo",
        JObj [("versionNumber", JNum 0); ("totalVersions", JNum 3);
              ("isCurrent", JBool true); ("uploadedAt", JNum 300)])]
  /\ getVersion (findVersions threeVersions) "chair" "2"
     = json_reply 200
         [("_id", JStr "c"); ("name", JStr "chair"); ("uploadedAt", JNum 100);
          ("versionInfo",
           JObj [("versionNumber", JNum 2); ("totalVersions", JNum 3);
                 ("isCurrent", JBool false); ("uploadedAt", JNum 100)])]
  /\ getVersion (findVersions threeVersions) "chair" "-1"
     = invalidVersionReply
  /\ getVersion (findVersions threeVersions) "stool" "0"
     = json_reply 404 [("error", JStr "No versions found for this design name")].
Proof. repeat split; vm_compute; reflexivity. Qed.

Lemma bypass_never_touches_cache_witness :
  Forall (fun e => is_cache_event e = false)
    (snd (postDownload (envOf (remoteReturning (arrayResult [pdfEntry]) []) ∅)
                       (requestFor "abc" None true))).
Proof. apply bypass_never_touches_cache. reflexivity. Defined.

Lemma moda_json_required_witness :
  postDownload
    (envOf (remoteWith {| sessionId := "s3"; parameters := None;
                          exports := exports sampleSession |} None []) ∅)
    (requestFor "abc" None true)
  = (errorReply 500 "Download error" "Could not find moda-json input parameter",
     [CreateSession DEFAULT_ENDPOINT DOWNLOAD_TICKET;
      ConsoleError "Error in download endpoint:"
        "Could not find moda-json input parameter"]).
Proof.
  apply (moda_json_required
           (envOf (remoteWith {| sessionId := "s3"; parameters := None;
                                 exports := exports sampleSession |} None []) ∅)
           (requestFor "abc" None true) "abc"
           {| sessionId := "s3"; parameters := None; exports := exports sampleSession |}).
  constructor; first [ reflexivity | discriminate | by left ].
Defined.

Lemma session_failure_witness :
  postDownload
    (envOf {| remote_session := fun _ _ => inl "ticket expired";
              remote_compute := fun _ _ _ => inl "unused";
              remote_fetch := fun _ => inl "unused" |} ∅)
    (requestFor "abc" None true)
  = (errorReply 500 "Download error"
       "Failed to create ShapeDiver session: ticket expired",
     [CreateSession DEFAULT_ENDPOINT DOWNLOAD_TICKET;
      ConsoleError "Session creation failed:" "ticket expired";
      ConsoleError "Error in download endpoint:"
        "Failed to create ShapeDiver session: ticket expired"]).
Proof.
  apply (session_failure
           (envOf {| remote_session := fun _ _ => inl "ticket expired";
                     remote_compute := fun _ _ _ => inl "unused";
                     remote_fetch := fun _ => inl "unused" |} ∅)
           (requestFor "abc" None true) "abc" "ticket expired");
    first [ reflexivity | discriminate | by left ].
Defined.

Lemma compute_failure_witness :
  postDownload
    (envOf {| remote_session := fun _ _ => inr sampleSession;
              remote_compute := fun _ _ _ => inl EmptyString;
              remote_fetch := fun _ => inl "unused" |} ∅)
    (requestFor "abc" None true)
  = (errorReply 500 "Download error" "Unknown error",
     [CreateSession DEFAULT_ENDPOINT DOWNLOAD_TICKET;
      ComputeExports DEFAULT_ENDPOINT "s1" (exportRequestFor "abc" "p1" "e1");
      ConsoleError "Error in download endpoint:" EmptyString]).
Proof.
  apply (compute_failure
           (envOf {| remote_session := fun _ _ => inr sampleSession;
                     remote_compute := fun _ _ _ => inl EmptyString;
                     remote_fetch := fun _ => inl "unused" |} ∅)
           (requestFor "abc" None true) "abc" sampleSession "p1" "e1" "plan"
           EmptyString).
  - constructor; first [ reflexivity | discriminate | by left ].
  - reflexivity.
  - discriminate.
  - reflexivity.
Defined.

Lemma reaches_fetch (resp : FetchResponse) (id : string) :
  id <> EmptyString ->
  ReachesExtraction (envOf (remoteFetching resp) ∅) (requestFor id None true)
    id sampleSession "p1" "e1" "plan"
    (directResult JUndefined None None (Some "https://files.example/a.pdf")).
Proof.
  intros Hid. constructor; [| reflexivity | discriminate |].
  - constructor; first [ reflexivity | discriminate | done | by left ].
  - eexists. split; reflexivity.
Qed.

(** A fetch answered with 403, a fetch answered with 200, and a fetch
    answered with 200 for a design id that the file name cannot carry. *)
Lemma fetch_outcome_witness :
  postDownload
    (envOf (remoteFetching {| ok := false; f_status := 403; statusText := "Forbidden";
                              f_body := [] |}) ∅)
    (requestFor "abc" None true)
  = (errorReply 502 "Download failed" "Failed to download export: 403 Forbidden",
     [CreateSession DEFAULT_ENDPOINT DOWNLOAD_TICKET;
      ComputeExports DEFAULT_ENDPOINT "s1" (exportRequestFor "abc" "p1" "e1");
      Fetch "https://files.example/a.pdf"])
  /\ handleDownload
       (envOf (remoteFetching {| ok := true; f_status := 200; statusText := "OK";
                                 f_body := [1; 2; 3] |}) ∅)
       (requestFor "abc" None true)
     = (missReply [1; 2; 3] "application/octet-stream" "abc_plan",
        [CreateSession DEFAULT_ENDPOINT DOWNLOAD_TICKET;
         ComputeExports DEFAULT_ENDPOINT "s1" (exportRequestFor "abc" "p1" "e1");
         Fetch "https://files.example/a.pdf"])
  /\ exists set msg,
       postDownload
         (envOf (remoteFetching {| ok := true; f_status := 200; statusText := "OK";
                                   f_body := [1; 2; 3] |}) ∅)
         (requestFor lineFeedId None true)
       = (caughtReply set msg,
          [CreateSession DEFAULT_ENDPOINT DOWNLOAD_TICKET;
           ComputeExports DEFAULT_ENDPOINT "s1" (exportRequestFor lineFeedId "p1" "e1");
           Fetch "https://files.example/a.pdf";
           ConsoleError "Error in download endpoint:" msg]).
Proof.
  split; [| split].
  - refine (fetch_outcome _ (requestFor "abc" None true) "abc" sampleSession
              "p1" "e1" "plan" "https://files.example/a.pdf" _
              {| ok := false; f_status := 403; statusText := "Forbidden"; f_body := [] |}
              (reaches_fetch _ "abc" _) _ _ _ _);
      first [ reflexivity | discriminate ].
  - refine (fetch_outcome _ (requestFor "abc" None true) "abc" sampleSession
              "p1" "e1" "plan" "https://files.example/a.pdf" _
              {| ok := true; f_status := 200; statusText := "OK"; f_body := [1; 2; 3] |}
              (reaches_fetch _ "abc" _) _ _ _ _);
      first [ reflexivity | discriminate ].
  - refine (fetch_outcome _ (requestFor lineFeedId None true) lineFeedId sampleSession
              "p1" "e1" "plan" "https://files.example/a.pdf" _
              {| ok := true; f_status := 200; statusText := "OK"; f_body := [1; 2; 3] |}
              (reaches_fetch _ lineFeedId _) _ _ _ _);
      first [ reflexivity | discriminate ].
Defined.

Lemma reaches_inline (r : ExportResult) (id : string) :
  id <> EmptyString ->
  ReachesExtraction (envOf (remoteReturning r []) ∅) (requestFor id None true)
    id sampleSession "p1" "e1" "plan" r.
Proof.
  intros Hid. constructor; [| reflexivity | discriminate |].
  - constructor; first [ reflexivity | discriminate | done | by left ].
  - eexists. split; [reflexivity |]. unfold lookupExport. simpl.
    by rewrite lookup_singleton_eq.
Qed.

(** An inline field that does not decode next to a URL, one that decodes,
    and one that decodes for a design id that the file name cannot carry. *)
Lemma inline_precedence_witness :
  (Forall (fun e => is_fetch e = false)
     (snd (postDownload
             (envOf (remoteReturning
                       (arrayResult [entry None None (JOther true)
                                       (Some "https://files.example/a.pdf") None]) []) ∅)
             (requestFor "abc" None true)))
   /\ fst (postDownload
             (envOf (remoteReturning
                       (arrayResult [entry None None (JOther true)
                                       (Some "https://files.example/a.pdf") None]) []) ∅)
             (requestFor "abc" None true))
      = errorReply 500 "No export content" "No file content or URL returned by export")
  /\ fst (postDownload (envOf (remoteReturning (arrayResult [pdfEntry]) []) ∅)
                       (requestFor "abc" None true))
     = missReply [65; 66; 67] "application/pdf" "abc_plan.pdf"
  /\ status (fst (postDownload (envOf (remoteReturning (arrayResult [pdfEntry]) []) ∅)
                               (requestFor lineFeedId None true))) = 500.
Proof.
  split; [| split].
  - refine (inline_precedence _ (requestFor "abc" None true) "abc" sampleSession
              "p1" "e1" "plan"
              (arrayResult [entry None None (JOther true)
                              (Some "https://files.example/a.pdf") None])
              (reaches_inline _ "abc" _) _);
      first [ reflexivity | discriminate ].
  - refine (proj2 (inline_precedence _ (requestFor "abc" None true) "abc" sampleSession
                     "p1" "e1" "plan" (arrayResult [pdfEntry])
                     (reaches_inline _ "abc" _) _));
      first [ reflexivity | discriminate ].
  - refine (proj1 (proj2 (inline_precedence _ (requestFor lineFeedId None true)
                            lineFeedId sampleSession "p1" "e1" "plan"
                            (arrayResult [pdfEntry])
                            (reaches_inline _ lineFeedId _) _)));
      first [ reflexivity | discriminate ].
Defined.

Lemma version_by_numeral_witness :
  getVersion (findVersions threeVersions) "chair" (pretty 1)
  = json_reply 200
      (objSet "versionInfo"
         (versionInfo 1 3 {| _id := "b"; name := "chair"; uploadedAt := 200;
                             fields := [] |})
         (docFields {| _id := "b"; name := "chair"; uploadedAt := 200; fields := [] |})).
Proof.
  refine (version_by_numeral threeVersions "chair" 1 _).
  exists {| _id := "a"; name := "chair"; uploadedAt := 300; fields := [] |}.
  split; [| reflexivity]. do 2 right. left.
Defined.

Lemma threeVersions_distinct (d1 d2 : Doc) :
  d1 ∈ threeVersions -> d2 ∈ threeVersions ->
  uploadedAt d1 = uploadedAt d2 -> d1 = d2.
Proof.
  intros H1 H2.
  repeat (apply elem_of_cons in H1 as [-> | H1]);
    repeat (apply elem_of_cons in H2 as [-> | H2]);
    try (by apply elem_of_nil in H1); try (by apply elem_of_nil in H2);
    simpl; intros; first [ reflexivity | lia ].
Qed.

(** The two endpoints on the three versions of [chair]. *)
Lemma listing_agrees_with_lookup_witness :
  exists items,
    getVersions (findVersions threeVersions) "chair"
    = json_reply 200 [("designName", JStr "chair");
                      ("totalVersions", JNum (Z.of_nat (length items)));
                      ("versions", JArr items)]
    /\ length items = 3%nat
    /\ forall v item, items !! v = Some item ->
         exists d,
           item = JObj [("id", JStr (_id d)); ("name", JStr (name d));
                        ("versionNumber", JNum (Z.of_nat v));
                        ("uploadedAt", JNum (uploadedAt d));
                        ("isCurrent", JBool (bool_decide (v = 0%nat)))]
           /\ getVersion (findVersions threeVersions) "chair" (pretty (Z.of_nat v))
              = json_reply 200
                  (objSet "versionInfo"
                     (versionInfo (Z.of_nat v) (length items) d) (docFields d)).
Proof.
  refine (listing_agrees_with_lookup (findVersions threeVersions)
            (findVersions threeVersions) threeVersions "chair" _ _
            chair_versions chair_versions _ _ chair_versions_sorted
            chair_versions_sorted _ _).
  - apply perm_swap.
  - apply perm_swap.
  - intros d1 d2 H1 H2 _ _. by apply threeVersions_distinct.
  - exists {| _id := "a"; name := "chair"; uploadedAt := 300; fields := [] |}.
    split; [| reflexivity]. do 2 right. left.
Defined.

Lemma upload_becomes_current_witness :
  getVersion
    (findVersions
       (threeVersions ++ [ {| _id := "n"; name := "chair"; uploadedAt := 400;
                              fields := [] |} ])) "chair" "0"
  = json_reply 200
      [("_id", JStr "n"); ("name", JStr "chair"); ("uploadedAt", JNum 400);
       ("versionInfo",
        JObj [("versionNumber", JNum 0); ("totalVersions", JNum 4);
              ("isCurrent", JBool true); ("uploadedAt", JNum 400)])].
Proof.
  refine (proj1 (proj2 (upload_becomes_current (fun _ => "2026") threeVersions
                          {| u_name := Some "chair"; u_fields := [] |} 400 "n" "chair"
                          eq_refl _ _))).
  - discriminate.
  - intros d Hd _.
    repeat (apply elem_of_cons in Hd as [-> | Hd]; [simpl; lia |]).
    by apply elem_of_nil in Hd.
Defined.

Lemma upload_shifts_versions_witness :
  getVersion
    (findVersions
       (threeVersions ++ [ {| _id := "n"; name := "chair"; uploadedAt := 400;
                              fields := [] |} ])) "chair" (pretty (Z.of_nat 1))
  = json_reply 200
      (objSet "versionInfo"
         (versionInfo (Z.of_nat 1) 4
            {| _id := "a"; name := "chair"; uploadedAt := 300; fields := [] |})
         (docFields {| _id := "a"; name := "chair"; uploadedAt := 300; fields := [] |})).
Proof.
  refine (upload_shifts_versions threeVersions
            {| u_name := Some "chair"; u_fields := [] |} 400 "n" "chair"
            _ _ 0%nat _ eq_refl).
  - intros d Hd _.
    repeat (apply elem_of_cons in Hd as [-> | Hd]; [simpl; lia |]).
    by apply elem_of_nil in Hd.
  - intros d1 d2 H1 H2 _ _. by apply threeVersions_distinct.
Defined.

Lemma latest_per_name_witness :
  exists l,
    listLatest (inr designStore)
    = {| status := 200; headers := []; body := BodyJson (JArr (latestJson <$> l)) |}
    /\ NoDup (ld_name <$> l)
    /\ (forall d, d ∈ designStore -> displayName d ∈ ld_name <$> l)
    /\ forall e, e ∈ l -> reportsLatest designStore e.
Proof. apply (latest_per_name designStore). exact designStore_names. Defined.

Lemma latest_counts_every_record_witness :
  sum_list_with ld_totalVersions designStoreLatest = length designStore.
Proof. apply (latest_counts_every_record designStore). by vm_compute. Defined.

Lemma latest_fails_on_inherited_name_witness :
  listLatest (inr (designStore ++
    [ {| _id := "z"; name := "toString"; uploadedAt := 1; fields := [] |} ]))
  = json_reply 500 [("error", JStr "Failed to fetch design list")].
Proof.
  apply (latest_fails_on_inherited_name _
           {| _id := "z"; name := "toString"; uploadedAt := 1; fields := [] |}).
  - apply elem_of_app. right. apply list_elem_of_here.
  - apply (bool_decide_unpack _). by vm_compute.
Defined.

Lemma latest_agrees_with_version_zero_witness :
  exists d, d ∈ designStore /\ name d = "chair" /\ uploadedAt d = 300
    /\ getVersion (findVersions designStore) "chair" "0"
       = json_reply 200
           (objSet "versionInfo" (versionInfo 0 2 d) (docFields d)).
Proof.
  apply (latest_agrees_with_version_zero designStore designStoreLatest
           {| ld_id := "a"; ld_name := "chair"; ld_uploadedAt := 300;
              ld_totalVersions := 2 |}).
  - by vm_compute.
  - apply list_elem_of_further, list_elem_of_here.
  - done.
Defined.

Lemma upload_listed_latest_witness :
  exists l,
    latestDesigns
      (postUpload (fun _ => "later") designStore
         {| u_name := Some "chair"; u_fields := [] |} 400 "c").2 = Some l
    /\ {| ld_id := "c"; ld_name := "chair"; ld_uploadedAt := 400;
          ld_totalVersions :=
            S (length (filter (fun d => displayName d = "chair") designStore)) |} ∈ l.
Proof.
  apply (upload_listed_latest (fun _ => "later") designStore
           {| u_name := Some "chair"; u_fields := [] |} 400 "c" "chair").
  - done.
  - done.
  - intros d Hd. unfold designStore in Hd.
    repeat (apply elem_of_cons in Hd as [-> | Hd]); try (by vm_compute).
    by apply elem_of_nil in Hd.
  - exact designStore_names.
  - apply (bool_decide_unpack _). by vm_compute.
Defined.

Lemma extract_direct_url_witness :
  extract None (directResult JUndefined None None (Some "https://files.example/a.pdf"))
  = {| fileBuffer := None; pickedContent := None;
       downloadUrl := Some "https://files.example/a.pdf" |}.
Proof.
  apply (extract_direct_url None
           (directResult JUndefined None None (Some "https://files.example/a.pdf"))
           JUndefined); reflexivity.
Defined.

Lemma decodePicked_data_uri_witness :
  decodePicked (JString "data:text/plain;base64,QUJD") = Some [65; 66; 67].
Proof.
  apply (decodePicked_data_uri "data:text/plain;base64" "QUJD").
  - reflexivity.
  - intros a b H.
    repeat (destruct a as [| ? a]; simpl in H; [discriminate H | injection H as _ H]).
    destruct a; discriminate H.
  - intros a b H.
    repeat (destruct a as [| ? a]; simpl in H; [discriminate H | injection H as _ H]).
    destruct a; discriminate H.
Defined.
